(** * Detection-evaluation engine: [evaluate.mjs] and the labelling tool

    A shallow embedding of the batch evaluator ([evaluate.mjs]), of the
    evaluation written by the interactive export ([DataExport.tsx]), of the
    drawing canvas ([LabelingCanvas.tsx]) and of the predictor
    ([LLMPredictor.tsx]).

    Numbers.  The scripts are read twice.

    [Evaluate], [DataExport], [LabelingCanvas] and [LLMPredictor] read them
    over typed label sets and [number]: an exact rational, or one of the
    three special values a division can produce ([NaN], [+Infinity],
    [-Infinity]).  Rounding and overflow of binary64 arithmetic are not
    modelled there, and zero carries no sign.  This reading carries the
    properties of counting, matching and ordering.

    [Script] and [Component] read [evaluate.mjs] and the evaluation of
    [DataExport.tsx] as the engine runs them: a number is a binary64
    [float], a document is whatever JSON value [JSON.parse] returns, and a
    property read or a conversion can throw a [TypeError].  This reading
    carries the properties that depend on rounding, on [NaN] or on the shape
    of a document.  [Spec] is the specification computed in binary64.

    Counters ([length], [x++], sums of counters) are integers written in
    [Z]; they enter a division through [of_Z]. *)

From Stdlib Require Import QArith Qround Qabs Lqa.
From stdpp Require Import gmap strings list pretty.
From Stdlib Require Import Floats.

Local Open Scope Z_scope.
Set Warnings "-inexact-float,-register-all".

(** ** JavaScript numbers *)

Inductive number : Type :=
  | Num (q : Q)
  | NaN
  | PInf
  | NInf.

Definition of_Z (z : Z) : number := Num (inject_Z z).

Definition is_finite (n : number) : Prop :=
  match n with Num _ => True | _ => False end.

(** The sign of a rational as a [comparison] with zero. *)
Definition Qsign (q : Q) : comparison := (q ?= 0)%Q.

Definition js_neg (a : number) : number :=
  match a with
  | Num q => Num (- q)%Q
  | NaN => NaN
  | PInf => NInf
  | NInf => PInf
  end.

Definition js_add (a b : number) : number :=
  match a, b with
  | NaN, _ | _, NaN => NaN
  | Num p, Num q => Num (p + q)%Q
  | PInf, NInf | NInf, PInf => NaN
  | PInf, _ | _, PInf => PInf
  | NInf, _ | _, NInf => NInf
  end.

Definition js_sub (a b : number) : number := js_add a (js_neg b).

(** An infinity of the sign given by [c]; [Eq] is the undefined product
    [0 * Infinity]. *)
Definition signed_inf (c : comparison) : number :=
  match c with Gt => PInf | Lt => NInf | Eq => NaN end.

Definition number_sign (a : number) : option comparison :=
  match a with
  | Num q => Some (Qsign q)
  | PInf => Some Gt
  | NInf => Some Lt
  | NaN => None
  end.

Definition sign_mul (c d : comparison) : comparison :=
  match c, d with
  | Eq, _ | _, Eq => Eq
  | Gt, Gt | Lt, Lt => Gt
  | _, _ => Lt
  end.

Definition js_mul (a b : number) : number :=
  match a, b with
  | Num p, Num q => Num (p * q)%Q
  | _, _ =>
      match number_sign a, number_sign b with
      | Some c, Some d => signed_inf (sign_mul c d)
      | _, _ => NaN
      end
  end.

(** [a / b].  A finite quotient is the exact one; [0 / 0] is [NaN]; a non-zero
    number over zero is the infinity with the sign of the numerator. *)
Definition js_div (a b : number) : number :=
  match a, b with
  | NaN, _ | _, NaN => NaN
  | Num p, Num q =>
      match Qsign q with
      | Eq => signed_inf (Qsign p)
      | _ => Num (p / q)%Q
      end
  | Num _, _ => Num 0
  | _, Num q =>
      match number_sign a with
      | Some c => signed_inf (sign_mul c (match Qsign q with Lt => Lt | _ => Gt end))
      | None => NaN
      end
  | _, _ => NaN
  end.

(** Ordering: [None] when one side is [NaN] (every comparison is then false). *)
Definition js_compare (a b : number) : option comparison :=
  match a, b with
  | NaN, _ | _, NaN => None
  | Num p, Num q => Some (p ?= q)%Q
  | PInf, PInf | NInf, NInf => Some Eq
  | PInf, _ | _, NInf => Some Gt
  | NInf, _ | _, PInf => Some Lt
  end.

(** [a > b], [a >= b], [a === b] *)
Definition js_gt (a b : number) : bool :=
  match js_compare a b with Some Gt => true | _ => false end.

Definition js_ge (a b : number) : bool :=
  match js_compare a b with Some Gt | Some Eq => true | _ => false end.

Definition js_eq (a b : number) : bool :=
  match js_compare a b with Some Eq => true | _ => false end.

(** [Math.max(a, b)], [Math.min(a, b)] *)
Definition Math_max (a b : number) : number :=
  match js_compare a b with
  | None => NaN
  | Some Lt => b
  | Some _ => a
  end.

Definition Math_min (a b : number) : number :=
  match js_compare a b with
  | None => NaN
  | Some Gt => b
  | Some _ => a
  end.

(** [Math.round(a)]: the integer nearest to [a], halves going up. *)
Definition Math_round (a : number) : number :=
  match a with
  | Num q => of_Z (Qfloor (q + (1 # 2)))
  | _ => a
  end.

(** Equality of numbers up to the representation of a rational. *)
Definition num_eq (a b : number) : Prop :=
  match a, b with
  | Num p, Num q => (p == q)%Q
  | NaN, NaN | PInf, PInf | NInf, NInf => True
  | _, _ => False
  end.

(** ** Boxes *)

(** A bounding box [[x1, y1, x2, y2]]; the fields are the array's four
    positions. *)
Record box : Type := Box { x1 : number; y1 : number; x2 : number; y2 : number }.

Definition finite_box (b : box) : Prop :=
  is_finite (x1 b) ∧ is_finite (y1 b) ∧ is_finite (x2 b) ∧ is_finite (y2 b).

Definition qbox (a b c d : Q) : box := Box (Num a) (Num b) (Num c) (Num d).

Definition interArea (boxA boxB : box) : number :=
  let xA := Math_max (x1 boxA) (x1 boxB) in
  let yA := Math_max (y1 boxA) (y1 boxB) in
  let xB := Math_min (x2 boxA) (x2 boxB) in
  let yB := Math_min (y2 boxA) (y2 boxB) in
  js_mul (Math_max (Num 0) (js_sub xB xA)) (Math_max (Num 0) (js_sub yB yA)).

Definition boxArea (b : box) : number :=
  js_mul (js_sub (x2 b) (x1 b)) (js_sub (y2 b) (y1 b)).

Definition unionArea (boxA boxB : box) : number :=
  js_sub (js_add (boxArea boxA) (boxArea boxB)) (interArea boxA boxB).

Definition IOU_THRESHOLD : number := Num (1 # 2).

Definition UI_TAGS : list string := ["Button"; "Input"; "Radio"; "Dropdown"]%string.

(** ** Objects and metrics *)

(** A JavaScript object with string keys, in insertion order. *)
Definition object (V : Type) : Type := list (string * V).

(** [o[k]]: [None] stands for [undefined]. *)
Fixpoint obj_get {V : Type} (k : string) (o : object V) : option V :=
  match o with
  | [] => None
  | (k', v) :: o' => if decide (k' = k) then Some v else obj_get k o'
  end.

(** [o[k] = v]: an existing key keeps its position, a new key goes last. *)
Fixpoint obj_set {V : Type} (k : string) (v : V) (o : object V) : object V :=
  match o with
  | [] => [(k, v)]
  | (k', v') :: o' =>
      if decide (k' = k) then (k, v) :: o' else (k', v') :: obj_set k v o'
  end.

(** [Object.values(o)] *)
Definition obj_values {V : Type} (o : object V) : list V := o.*2.

(** The entry written for one category (interface [TagMetrics]). *)
Record TagMetrics : Type := {
  true_positives : Z;
  false_positives : Z;
  false_negatives : Z;
  ground_truth_count : Z;
  predicted_count : Z;
  precision : number;
  recall : number;
  f1_score : number
}.

(** [forEach] with the callback's state threaded through: the callback gets
    the state, the element and its index. *)
Fixpoint forEach {A S : Type} (f : S → A → Z → S) (i : Z) (l : list A) (s : S) : S :=
  match l with
  | [] => s
  | x :: l' => forEach f (i + 1) l' (f s x i)
  end.

(** ** The batch evaluator, [evaluate.mjs] *)

Module Evaluate.

Record label : Type := Label { tag : string; bbox : box }.

(** A label-set document, as [JSON.parse] returns it. *)
Record document : Type := Document { image_filename : string; labels : list label }.

Definition calculateIoU (boxA boxB : box) : number :=
  let interArea := interArea boxA boxB in
  let unionArea := unionArea boxA boxB in
  if js_eq unionArea (Num 0) then Num 0 else js_div interArea unionArea.

(** The callback of [predBoxes.forEach]; the state is
    [(bestIoU, bestMatchIndex)]. *)
Definition scan_pred (matchedPredIndices : gset Z) (gtBox : label)
    (best : number * Z) (predBox : label) (i : Z) : number * Z :=
  if decide (i ∈ matchedPredIndices) then best
  else
    let iou := calculateIoU (bbox gtBox) (bbox predBox) in
    if js_gt iou best.1 then (iou, i) else best.

(** The body of [for (const gtBox of gtBoxes)]; the state is
    [(truePositives, matchedPredIndices)]. *)
Definition match_gtBox (predBoxes : list label) (st : Z * gset Z) (gtBox : label)
    : Z * gset Z :=
  let '(bestIoU, bestMatchIndex) :=
    forEach (scan_pred st.2 gtBox) 0 predBoxes (Num 0, -1) in
  if js_ge bestIoU IOU_THRESHOLD
  then (st.1 + 1, {[bestMatchIndex]} ∪ st.2)
  else st.

(** The loop over [gtBoxes], from [truePositives = 0] and an empty
    [matchedPredIndices]. *)
Definition match_boxes (gtBoxes predBoxes : list label) : Z * gset Z :=
  fold_left (match_gtBox predBoxes) gtBoxes (0, ∅).

(** The three rates, as [evaluateSingleFile] and [aggregateResults] (for a
    category and for [Overall]) compute them from their counters. *)
Definition precision_of (tp fp : Z) : number :=
  if 0 <? tp + fp then js_div (of_Z tp) (of_Z (tp + fp)) else Num 0.

Definition recall_of (tp fn : Z) : number :=
  if 0 <? tp + fn then js_div (of_Z tp) (of_Z (tp + fn)) else Num 0.

Definition f1_of (precision recall : number) : number :=
  if js_gt (js_add precision recall) (Num 0)
  then js_div (js_mul (Num 2) (js_mul precision recall)) (js_add precision recall)
  else Num 0.

(** One round of [for (const tag of UI_TAGS)] in [evaluateSingleFile]. *)
Definition evaluateTag (gtData predData : document) (t : string) : TagMetrics :=
  let gtBoxes := filter (λ l, tag l = t) (labels gtData) in
  let predBoxes := filter (λ l, tag l = t) (labels predData) in
  let truePositives := (match_boxes gtBoxes predBoxes).1 in
  let falsePositives := Z.of_nat (length predBoxes) - truePositives in
  let falseNegatives := Z.of_nat (length gtBoxes) - truePositives in
  let precision := precision_of truePositives falsePositives in
  let recall := recall_of truePositives falseNegatives in
  {| true_positives := truePositives;
     false_positives := falsePositives;
     false_negatives := falseNegatives;
     ground_truth_count := Z.of_nat (length gtBoxes);
     predicted_count := Z.of_nat (length predBoxes);
     precision := precision;
     recall := recall;
     f1_score := f1_of precision recall |}.

Definition evaluateSingleFile (gtData predData : document) : object TagMetrics :=
  fold_left (λ metrics t, obj_set t (evaluateTag gtData predData t) metrics) UI_TAGS [].

(** The five counters summed by [aggregateResults]. *)
Record TagStats : Type := {
  s_true_positives : Z;
  s_false_positives : Z;
  s_false_negatives : Z;
  s_ground_truth_count : Z;
  s_predicted_count : Z
}.

Definition zero_stats : TagStats := Build_TagStats 0 0 0 0 0.

(** [acc.x += stats.x] for the five counters. *)
Definition add_stats (acc : TagStats) (stats : TagMetrics) : TagStats :=
  {| s_true_positives := s_true_positives acc + true_positives stats;
     s_false_positives := s_false_positives acc + false_positives stats;
     s_false_negatives := s_false_negatives acc + false_negatives stats;
     s_ground_truth_count := s_ground_truth_count acc + ground_truth_count stats;
     s_predicted_count := s_predicted_count acc + predicted_count stats |}.

(** [{ ...stats, precision, recall, f1_score }] *)
Definition with_rates (stats : TagStats) : TagMetrics :=
  let precision := precision_of (s_true_positives stats) (s_false_positives stats) in
  let recall := recall_of (s_true_positives stats) (s_false_negatives stats) in
  {| true_positives := s_true_positives stats;
     false_positives := s_false_positives stats;
     false_negatives := s_false_negatives stats;
     ground_truth_count := s_ground_truth_count stats;
     predicted_count := s_predicted_count stats;
     precision := precision;
     recall := recall;
     f1_score := f1_of precision recall |}.

(** [for (const fileMetrics of allMetrics) if (fileMetrics[tag]) ...] *)
Definition sum_tag (t : string) (allMetrics : list (object TagMetrics)) : TagStats :=
  fold_left
    (λ tagStats fileMetrics,
       match obj_get t fileMetrics with
       | Some m => add_stats tagStats m
       | None => tagStats
       end)
    allMetrics zero_stats.

Definition aggregateTags (allMetrics : list (object TagMetrics)) : object TagMetrics :=
  fold_left (λ finalReport t, obj_set t (with_rates (sum_tag t allMetrics)) finalReport)
    UI_TAGS [].

Definition aggregateResults (allMetrics : list (object TagMetrics)) : object TagMetrics :=
  let finalReport := aggregateTags allMetrics in
  let overall := fold_left add_stats (obj_values finalReport) zero_stats in
  obj_set "Overall" (with_rates overall) finalReport.

(** *** The batch driver: [printReport] and [main] *)

(** A thrown value: [err.code] ([None] when the property is absent, as for a
    [SyntaxError]) and [err.message]. *)
Record Error : Type := { code : option string; message : string }.

Inductive result (A : Type) : Type :=
  | Ok (a : A)
  | Throw (e : Error).
Arguments Ok {A} a.
Arguments Throw {A} e.

#[export] Instance result_ret : MRet result := λ A a, Ok a.
#[export] Instance result_bind : MBind result := λ A B f m,
  match m with
  | Ok a => f a
  | Throw e => Throw e
  end.

(** What the script asks of Node: [path], [fs], [JSON] and the printing of
    numbers.  [JSON_parse] stands for [JSON.parse] with its value read at the
    type of a label-set document; it throws on a text that is no such
    document. *)
Record Host : Type := {
  path_extname : string → string;
  path_join : string → string → string;
  fs_readdir : string → result (list string);
  fs_readFile : string → result string;
  JSON_parse : string → result document;
  String_of : Z → string;
  toFixed : number → nat → string
}.

Inductive console_call : Type :=
  | console_log (s : string)
  | console_warn (s : string)
  | console_error (args : list string).

(** What a run leaves behind: the console calls in order and the exit code. *)
Record outcome : Type := { console : list console_call; exit_code : Z }.

Definition nl : string := String (Ascii.ascii_of_nat 10) EmptyString.

Fixpoint spaces (n : nat) : string :=
  match n with
  | O => EmptyString
  | S n' => String (Ascii.ascii_of_nat 32) (spaces n')
  end.

Definition padEnd (s : string) (n : nat) : string :=
  s +:+ spaces (n - String.length s).

Definition padStart (s : string) (n : nat) : string :=
  spaces (n - String.length s) +:+ s.

Definition formatPercent (h : Host) (n : number) : string :=
  padStart (toFixed h (js_mul n (Num 100)) 2) 6.

Definition formatInt (h : Host) (n : Z) : string :=
  padEnd (String_of h n) 5.

Definition report_row (h : Host) (t : string) (stats : TagMetrics) : string :=
  String.concat " | "
    [ padEnd t 9;
      padEnd (String_of h (ground_truth_count stats)) 8;
      padEnd (String_of h (predicted_count stats)) 10;
      formatInt h (true_positives stats);
      formatInt h (false_positives stats);
      formatInt h (false_negatives stats);
      formatPercent h (precision stats);
      formatPercent h (recall stats);
      formatPercent h (f1_score stats) ].

Definition report_rows (h : Host) (report : object TagMetrics) : list console_call :=
  flat_map
    (λ t, match obj_get t report with
          | Some stats => [console_log (report_row h t stats)]
          | None => []
          end)
    (UI_TAGS ++ ["Overall"%string]).

Definition printReport (h : Host) (report : object TagMetrics) : list console_call :=
  [ console_log (nl +:+ "--- LLM Tagging Performance Evaluation ---");
    console_log ("IoU Threshold: 0.5" +:+ nl);
    console_log
      "Tag       | GT Count | Pred Count | TP   | FP   | FN   | Precision | Recall | F1-Score";
    console_log
      "----------|----------|------------|------|------|------|-----------|--------|---------" ]
  ++ report_rows h report
  ++ [ console_log
         "------------------------------------------------------------------------------------" ].

(** The inner [try] block of [main] for one file. *)
Definition load_pair (h : Host) (gtFolder predFolder file : string)
    : result (object TagMetrics) :=
  gtContent ← fs_readFile h (path_join h gtFolder file);
  predContent ← fs_readFile h (path_join h predFolder file);
  gtData ← JSON_parse h gtContent;
  predData ← JSON_parse h predContent;
  mret (evaluateSingleFile gtData predData).

(** The inner [catch (err)] block. *)
Definition on_error (file : string) (err : Error) : console_call :=
  if decide (code err = Some "ENOENT"%string)
  then console_warn ("Warning: Prediction file not found for " +:+ file +:+ ". Skipping.")
  else console_error ["Error processing file " +:+ file +:+ ":"; message err].

(** The body of [for (const file of gtFiles)]; the state is the console so
    far and [allMetrics]. *)
Definition process_file (h : Host) (gtFolder predFolder : string)
    (st : list console_call * list (object TagMetrics)) (file : string)
    : list console_call * list (object TagMetrics) :=
  if decide (path_extname h file = ".json"%string) then
    match load_pair h gtFolder predFolder file with
    | Ok fileMetrics => (st.1, st.2 ++ [fileMetrics])
    | Throw err => (st.1 ++ [on_error file err], st.2)
    end
  else st.

Definition usage : string :=
  "Usage: node evaluate.mjs <ground_truth_folder> <predictions_folder>".

(** [main], run with [process.argv = argv]. *)
Definition main (h : Host) (argv : list string) : outcome :=
  match drop 2 argv with
  | [gtFolder; predFolder] =>
      match fs_readdir h gtFolder with
      | Ok gtFiles =>
          let '(out, allMetrics) :=
            fold_left (process_file h gtFolder predFolder) gtFiles ([], []) in
          if decide (length allMetrics = 0)%nat
          then {| console := out ++ [console_log "No matching file pairs found to evaluate."];
                  exit_code := 0 |}
          else {| console := out ++ printReport h (aggregateResults allMetrics);
                  exit_code := 0 |}
      | Throw error =>
          {| console := [console_error ["Failed to read directories: " +:+ message error]];
             exit_code := 1 |}
      end
  | _ => {| console := [console_error [usage]]; exit_code := 1 |}
  end.

End Evaluate.

(** ** The interactive export, [DataExport.tsx] *)

Module DataExport.

Inductive box_type : Type := manual | predicted.

(** Interface [BoundingBox] of [LabelingCanvas.tsx]. *)
Record BoundingBox : Type := {
  id : string;
  tag : string;
  bbox : box;
  type : box_type
}.

(** The document handed to [downloadJSON] by [generateEvaluation]; nothing is
    ever put into [details]. *)
Record evaluation : Type := {
  image_filename : string;
  iou_threshold : number;
  summary : object TagMetrics;
  details : list Empty_set
}.

(** [labels.map(label => ({ tag: label.tag, bbox: label.bbox }))] *)
Definition export_labels (ls : list BoundingBox) : list Evaluate.label :=
  (λ label, Evaluate.Label (tag label) (bbox label)) <$> ls.

(** The document downloaded by [exportGroundTruth] (interface
    [GroundTruthData]); [None] is the early return after [toast.error]. *)
Definition exportGroundTruth (manualLabels : list BoundingBox) (imageName : string)
    : option Evaluate.document :=
  if (length manualLabels =? 0)%nat then None
  else Some (Evaluate.Document imageName (export_labels manualLabels)).

(** The document downloaded by [exportPredictions] (interface
    [PredictionData]). *)
Definition exportPredictions (predictedLabels : list BoundingBox) (imageName : string)
    : option Evaluate.document :=
  if (length predictedLabels =? 0)%nat then None
  else Some (Evaluate.Document imageName (export_labels predictedLabels)).

Definition calculateIoU (boxA boxB : box) : number :=
  let interArea := interArea boxA boxB in
  js_div interArea (js_sub (js_add (boxArea boxA) (boxArea boxB)) interArea).

Definition iouThreshold : number := Num (1 # 2).

Definition tags : list string := ["Button"; "Input"; "Radio"; "Dropdown"]%string.

(** The callback of [gtBoxes.forEach]; the state is [(bestIoU, bestMatch)]. *)
Definition scan_gt (matchedGT : gset string) (predBox : BoundingBox)
    (best : number * option BoundingBox) (gtBox : BoundingBox)
    : number * option BoundingBox :=
  if decide (id gtBox ∈ matchedGT) then best
  else
    let iou := calculateIoU (bbox predBox) (bbox gtBox) in
    if js_gt iou best.1 && js_ge iou iouThreshold then (iou, Some gtBox) else best.

(** The mutable state of the matching pass of one tag. *)
Record match_state : Type := {
  truePositives : Z;
  matchedGT : gset string;
  matchedPred : gset string
}.

(** The callback of [predBoxes.forEach]. *)
Definition match_predBox (gtBoxes : list BoundingBox) (st : match_state)
    (predBox : BoundingBox) : match_state :=
  match (fold_left (scan_gt (matchedGT st) predBox) gtBoxes (Num 0, None)).2 with
  | Some bestMatch =>
      {| truePositives := truePositives st + 1;
         matchedGT := {[id bestMatch]} ∪ matchedGT st;
         matchedPred := {[id predBox]} ∪ matchedPred st |}
  | None => st
  end.

(** The loop over [predBoxes], from [truePositives = 0] and empty sets. *)
Definition match_boxes (gtBoxes predBoxes : list BoundingBox) : match_state :=
  fold_left (match_predBox gtBoxes) predBoxes
    {| truePositives := 0; matchedGT := ∅; matchedPred := ∅ |}.

(** The three rates, as [generateEvaluation] computes them for a tag and for
    [overall]. *)
Definition precision_of (tp fp : Z) : number :=
  if 0 <? tp then js_div (of_Z tp) (of_Z (tp + fp)) else Num 0.

Definition recall_of (tp fn : Z) : number :=
  if 0 <? tp then js_div (of_Z tp) (of_Z (tp + fn)) else Num 0.

Definition f1_of (precision recall : number) : number :=
  if js_gt (js_add precision recall) (Num 0)
  then js_div (js_mul (js_mul (Num 2) precision) recall) (js_add precision recall)
  else Num 0.

(** [Math.round(x * 1000) / 1000] *)
Definition round3 (x : number) : number :=
  js_div (Math_round (js_mul x (Num 1000))) (Num 1000).

(** The counters and the rates of one tag before they are stored. *)
Record tag_result : Type := {
  r_gt_count : Z;
  r_pred_count : Z;
  r_tp : Z;
  r_fp : Z;
  r_fn : Z;
  r_precision : number;
  r_recall : number;
  r_f1Score : number
}.

Definition computeTag (manualLabels predictedLabels : list BoundingBox) (t : string)
    : tag_result :=
  let gtBoxes := filter (λ l, tag l = t) manualLabels in
  let predBoxes := filter (λ l, tag l = t) predictedLabels in
  let truePositives := truePositives (match_boxes gtBoxes predBoxes) in
  let falsePositives := Z.of_nat (length predBoxes) - truePositives in
  let falseNegatives := Z.of_nat (length gtBoxes) - truePositives in
  let precision := precision_of truePositives falsePositives in
  let recall := recall_of truePositives falseNegatives in
  {| r_gt_count := Z.of_nat (length gtBoxes);
     r_pred_count := Z.of_nat (length predBoxes);
     r_tp := truePositives;
     r_fp := falsePositives;
     r_fn := falseNegatives;
     r_precision := precision;
     r_recall := recall;
     r_f1Score := f1_of precision recall |}.

(** [evaluation.summary[tag] = { ... }], the rates rounded to three decimals. *)
Definition store (r : tag_result) : TagMetrics :=
  {| ground_truth_count := r_gt_count r;
     predicted_count := r_pred_count r;
     true_positives := r_tp r;
     false_positives := r_fp r;
     false_negatives := r_fn r;
     precision := round3 (r_precision r);
     recall := round3 (r_recall r);
     f1_score := round3 (r_f1Score r) |}.

Definition summaryTags (manualLabels predictedLabels : list BoundingBox)
    : object TagMetrics :=
  fold_left
    (λ summary t, obj_set t (store (computeTag manualLabels predictedLabels t)) summary)
    tags [].

(** [tagMetrics.reduce((sum, metrics) => sum + metrics.field, 0)] *)
Definition reduce_sum (field : TagMetrics → Z) (tagMetrics : list TagMetrics) : Z :=
  fold_left (λ sum metrics, sum + field metrics) tagMetrics 0.

Definition overallOf (manualLabels predictedLabels : list BoundingBox)
    (summary : object TagMetrics) : tag_result :=
  let totalGT := Z.of_nat (length manualLabels) in
  let totalPred := Z.of_nat (length predictedLabels) in
  let tagMetrics := obj_values summary in
  let totalTP := reduce_sum true_positives tagMetrics in
  let totalFP := reduce_sum false_positives tagMetrics in
  let totalFN := reduce_sum false_negatives tagMetrics in
  let overallPrecision := precision_of totalTP totalFP in
  let overallRecall := recall_of totalTP totalFN in
  {| r_gt_count := totalGT;
     r_pred_count := totalPred;
     r_tp := totalTP;
     r_fp := totalFP;
     r_fn := totalFN;
     r_precision := overallPrecision;
     r_recall := overallRecall;
     r_f1Score := f1_of overallPrecision overallRecall |}.

(** [None] is the early return after [toast.error]: nothing is downloaded. *)
Definition generateEvaluation (manualLabels predictedLabels : list BoundingBox)
    (imageName : string) : option evaluation :=
  if (length manualLabels =? 0)%nat || (length predictedLabels =? 0)%nat then None
  else
    let summary := summaryTags manualLabels predictedLabels in
    let overall := overallOf manualLabels predictedLabels summary in
    Some {| image_filename := imageName;
            iou_threshold := iouThreshold;
            summary := obj_set "overall" (store overall) summary;
            details := [] |}.

End DataExport.

(** ** The drawing canvas, [LabelingCanvas.tsx] *)

Module LabelingCanvas.

(** [Math.abs(a)] *)
Definition Math_abs (a : number) : number :=
  match a with
  | Num q => Num (Qabs q)
  | NaN => NaN
  | PInf | NInf => PInf
  end.

(** [type UITag = typeof UI_TAGS[number]]: the values of the tag selector. *)
Inductive UITag : Type := Button | Input | Radio | Dropdown.

Definition tag_name (t : UITag) : string :=
  match t with
  | Button => "Button"
  | Input => "Input"
  | Radio => "Radio"
  | Dropdown => "Dropdown"
  end.

(** What the component keeps in [rect.data]. *)
Record RectData : Type := {
  data_id : string;
  data_tag : string;
  data_type : DataExport.box_type
}.

(** A Fabric [Rect], as far as the component reads and writes it. *)
Record Rect : Type := {
  left : number;
  top : number;
  width : number;
  height : number;
  data : RectData
}.

(** The variables of one call of [startDrawing], shared by the three
    handlers it registers: the [selectedTag] it captured, [startX] and
    [startY] ([undefined], which arithmetic reads as [NaN], until the first
    press) and [rect], a reference to a rectangle or [null]. *)
Record drawing : Type := {
  d_tag : UITag;
  startX : number;
  startY : number;
  rect : option nat
}.

(** The component: the rectangles created so far, addressed by their
    position in [heap]; [fabricCanvas.getObjects()] as references into it;
    the selector; the registered handlers ([isDrawing] is true exactly when
    there are some); and the state [labels], which [onLabelsChange] copies to
    [manualLabels] at every change. *)
Record state : Type := {
  heap : list Rect;
  objects : list nat;
  selectedTag : UITag;
  session : option drawing;
  labels : list DataExport.BoundingBox
}.

Definition initial : state :=
  {| heap := []; objects := []; selectedTag := Button; session := None; labels := [] |}.

(** The button is disabled while [isDrawing]. *)
Definition startDrawing (st : state) : state :=
  match session st with
  | Some _ => st
  | None =>
      {| heap := heap st; objects := objects st; selectedTag := selectedTag st;
         session := Some {| d_tag := selectedTag st; startX := NaN; startY := NaN;
                            rect := None |};
         labels := labels st |}
  end.

Definition handleMouseDown (pointer : number * number) (now : Z) (st : state) : state :=
  match session st with
  | None => st
  | Some d =>
      let new :=
        {| left := pointer.1; top := pointer.2; width := Num 0; height := Num 0;
           data := {| data_type := DataExport.manual;
                      data_tag := tag_name (d_tag d);
                      data_id := "manual-" +:+ pretty now |} |} in
      {| heap := heap st ++ [new];
         objects := objects st ++ [length (heap st)];
         selectedTag := selectedTag st;
         session := Some {| d_tag := d_tag d; startX := pointer.1; startY := pointer.2;
                            rect := Some (length (heap st)) |};
         labels := labels st |}
  end.

Definition handleMouseMove (pointer : number * number) (st : state) : state :=
  match session st with
  | None => st
  | Some d =>
      match rect d with
      | None => st
      | Some r =>
          match heap st !! r with
          | None => st
          | Some old =>
              let moved :=
                {| width := Math_abs (js_sub pointer.1 (startX d));
                   height := Math_abs (js_sub pointer.2 (startY d));
                   left := Math_min (startX d) pointer.1;
                   top := Math_min (startY d) pointer.2;
                   data := data old |} in
              {| heap := <[r := moved]> (heap st); objects := objects st;
                 selectedTag := selectedTag st; session := session st;
                 labels := labels st |}
          end
      end
  end.

(** The label of a rectangle that is wider and higher than 10. *)
Definition newLabel (d : drawing) (r : Rect) : option DataExport.BoundingBox :=
  if js_gt (width r) (Num 10) && js_gt (height r) (Num 10) then
    Some {| DataExport.id := data_id (data r);
            DataExport.tag := tag_name (d_tag d);
            DataExport.bbox :=
              Box (left r) (top r) (js_add (left r) (width r)) (js_add (top r) (height r));
            DataExport.type := DataExport.manual |}
  else None.

Definition handleMouseUp (st : state) : state :=
  match session st with
  | None => st
  | Some d =>
      {| heap := heap st; objects := objects st; selectedTag := selectedTag st;
         session := None;
         labels :=
           match r ← rect d; drawn ← heap st !! r; newLabel d drawn with
           | Some label => labels st ++ [label]
           | None => labels st
           end |}
  end.

(** [obj.data?.type === ty] for the rectangle that [r] refers to. *)
Definition has_type (ty : DataExport.box_type) (rects : list Rect) (r : nat) : bool :=
  match data_type ∘ data <$> rects !! r, ty with
  | Some DataExport.manual, DataExport.manual
  | Some DataExport.predicted, DataExport.predicted => true
  | _, _ => false
  end.

Definition deleteBox (id : string) (st : state) : state :=
  match list_find (λ r, data_id ∘ data <$> heap st !! r = Some id) (objects st) with
  | Some (i, _) =>
      {| heap := heap st; objects := delete i (objects st);
         selectedTag := selectedTag st; session := session st;
         labels := filter (λ label, DataExport.id label ≠ id) (labels st) |}
  | None => st
  end.

Definition clearCanvas (st : state) : state :=
  {| heap := heap st;
     objects :=
       filter (λ r, has_type DataExport.manual (heap st) r = false) (objects st);
     selectedTag := selectedTag st; session := session st;
     labels := [] |}.

Definition setSelectedTag (t : UITag) (st : state) : state :=
  {| heap := heap st; objects := objects st; selectedTag := t; session := session st;
     labels := labels st |}.

(** The rectangle drawn for a predicted label. *)
Definition predictedRect (label : DataExport.BoundingBox) : Rect :=
  let b := DataExport.bbox label in
  {| left := x1 b; top := y1 b; width := js_sub (x2 b) (x1 b);
     height := js_sub (y2 b) (y1 b);
     data := {| data_id := DataExport.id label; data_tag := DataExport.tag label;
                data_type := DataExport.predicted |} |}.

(** The effect on [predictedLabels]: the predicted rectangles are replaced
    by those of the new predictions; nothing happens for an empty list. *)
Definition showPredictions (predictedLabels : list DataExport.BoundingBox) (st : state)
    : state :=
  match predictedLabels with
  | [] => st
  | _ =>
      let kept :=
        filter (λ r, has_type DataExport.predicted (heap st) r = false) (objects st) in
      {| heap := heap st ++ (predictedRect <$> predictedLabels);
         objects := kept ++ seq (length (heap st)) (length predictedLabels);
         selectedTag := selectedTag st; session := session st; labels := labels st |}
  end.

(** What happens to the component; the pointer of a mouse event has finite
    coordinates. *)
Inductive action : Type :=
  | StartDrawing
  | MouseDown (x y : Q) (now : Z)
  | MouseMove (x y : Q)
  | MouseUp
  | DeleteBox (id : string)
  | ClearCanvas
  | SetSelectedTag (t : UITag)
  | ShowPredictions (predictedLabels : list DataExport.BoundingBox).

Definition step (st : state) (a : action) : state :=
  match a with
  | StartDrawing => startDrawing st
  | MouseDown x y now => handleMouseDown (Num x, Num y) now st
  | MouseMove x y => handleMouseMove (Num x, Num y) st
  | MouseUp => handleMouseUp st
  | DeleteBox id => deleteBox id st
  | ClearCanvas => clearCanvas st
  | SetSelectedTag t => setSelectedTag t st
  | ShowPredictions predictedLabels => showPredictions predictedLabels st
  end.

Definition run (st : state) (actions : list action) : state := fold_left step actions st.

End LabelingCanvas.

(** ** The predictor, [LLMPredictor.tsx] *)

Module LLMPredictor.

(** [Math.floor(a)] *)
Definition Math_floor (a : number) : number :=
  match a with
  | Num q => of_Z (Qfloor q)
  | _ => a
  end.

(** [a < b] *)
Definition js_lt (a b : number) : bool := js_gt b a.

(** [array[idx]]: [undefined] unless [idx] is the number of a position. *)
Definition array_get {A : Type} (array : list A) (idx : number) : option A :=
  match idx with
  | Num q =>
      if Qeq_bool q (inject_Z (Qfloor q)) && (0 <=? Qfloor q)
      then array !! Z.to_nat (Qfloor q)
      else None
  | _ => None
  end.

(** The two clocks of the environment: the successive results of
    [Math.random()], each a finite number, and of [Date.now()]. *)
Record Source : Type := {
  Math_random : nat → Q;
  Date_now : nat → Z
}.

(** An element of [mockPredictions]; its tag is what the array access
    returned. *)
Record prediction : Type := {
  id : string;
  tag : option string;
  bbox : box;
  type : DataExport.box_type
}.

Definition tags : list string := ["Button"; "Input"; "Radio"; "Dropdown"]%string.

(** [`predicted-${Date.now()}-${i}`] *)
Definition predicted_id (now i : Z) : string :=
  "predicted-" +:+ pretty now +:+ "-" +:+ pretty i.

(** The loop of [generateMockPredictions] from the test of its condition on:
    [i] is the loop variable, [k] the number of calls of [Math.random] and [c]
    the number of calls of [Date.now] so far.  [None] when [fuel] tests of the
    condition did not end the loop. *)
Fixpoint mock_loop (src : Source) (fuel : nat) (i : Z) (k c : nat)
    (mockPredictions : list prediction) : option (list prediction) :=
  match fuel with
  | O => None
  | S fuel' =>
      let random j := Num (Math_random src (k + j)) in
      if js_lt (of_Z i) (js_add (Math_floor (js_mul (random 0%nat) (Num 5))) (Num 2)) then
        let x1 := js_mul (random 1%nat) (Num 600) in
        let y1 := js_mul (random 2%nat) (Num 400) in
        let width := js_add (js_mul (random 3%nat) (Num 150)) (Num 50) in
        let height := js_add (js_mul (random 4%nat) (Num 50)) (Num 30) in
        let new :=
          {| id := predicted_id (Date_now src c) i;
             tag := array_get tags
                      (Math_floor (js_mul (random 5%nat) (of_Z (Z.of_nat (length tags)))));
             bbox := Box x1 y1 (js_add x1 width) (js_add y1 height);
             type := DataExport.predicted |} in
        mock_loop src fuel' (i + 1) (k + 6) (S c) (mockPredictions ++ [new])
      else Some mockPredictions
  end.

Definition generateMockPredictions (src : Source) (fuel : nat) : option (list prediction) :=
  mock_loop src fuel 0 0 0 [].

(** Interface [ApiLabel] is [Evaluate.label]: a tag and a box.
    [parsed.labels?.map((label, index) => ...) || []] of [callGemini] and
    [callOpenAI]; [None] is an answer without [labels], and [now index] the
    time at which the element [index] is mapped. *)
Definition to_predictions (now : nat → Z) (parsed_labels : option (list Evaluate.label))
    : list DataExport.BoundingBox :=
  match parsed_labels with
  | Some labels =>
      imap (λ index label,
              {| DataExport.id := predicted_id (now index) (Z.of_nat index);
                 DataExport.tag := Evaluate.tag label;
                 DataExport.bbox := Evaluate.bbox label;
                 DataExport.type := DataExport.predicted |})
        labels
  | None => []
  end.

End LLMPredictor.

(** ** The invariant and the rates over exact numbers *)

Module Reference.

(** The invariant of a match outcome. *)
Definition consistent_counts (m : TagMetrics) : Prop :=
  ground_truth_count m = true_positives m + false_negatives m ∧
  predicted_count m = true_positives m + false_positives m ∧
  true_positives m ≤ Z.min (ground_truth_count m) (predicted_count m) ∧
  0 ≤ false_positives m ∧ 0 ≤ false_negatives m.

(** The rates of section 4.3 as exact quotients. *)
Definition precision_spec (tp fp : Z) : Q :=
  if 0 <? tp + fp then (inject_Z tp / inject_Z (tp + fp))%Q else 0%Q.

Definition recall_spec (tp fn : Z) : Q :=
  if 0 <? tp + fn then (inject_Z tp / inject_Z (tp + fn))%Q else 0%Q.

Definition f1_spec (p r : Q) : Q :=
  match (0 ?= p + r)%Q with
  | Lt => (2 * p * r / (p + r))%Q
  | _ => 0%Q
  end.

(** An entry whose three rates are those quotients of its own counters. *)
Definition rates_of_counts (m : TagMetrics) : Prop :=
  let p := precision_spec (true_positives m) (false_positives m) in
  let r := recall_spec (true_positives m) (false_negatives m) in
  num_eq (precision m) (Num p) ∧
  num_eq (recall m) (Num r) ∧
  num_eq (f1_score m) (Num (f1_spec p r)).

End Reference.

(** ** The scripts as the engine runs them: binary64 and JSON values *)

Module Js.

(** *** Numbers *)

(** [Math.max(a, b)] and [Math.min(a, b)] on two numbers: [NaN] when one of
    them is, and [+0] above [-0]. *)
Definition Math_max (a b : float) : float :=
  match PrimFloat.compare a b with
  | FNotComparable => nan
  | FLt => b
  | FGt => a
  | FEq => match classify a with FloatClass.NZero => b | _ => a end
  end.

Definition Math_min (a b : float) : float :=
  match PrimFloat.compare a b with
  | FNotComparable => nan
  | FLt => a
  | FGt => b
  | FEq => match classify a with FloatClass.PZero => b | _ => a end
  end.

(** The number of a counter.  A counter is a whole number below [2^53] (an
    array has fewer than [2^32] elements), which binary64 holds exactly, and
    so is the sum of two counters. *)
Definition of_Z (z : Z) : float :=
  match z with
  | Z0 => zero
  | Zpos _ => of_uint63 (Uint63.of_Z z)
  | Zneg _ => opp (of_uint63 (Uint63.of_Z (- z)))
  end.

(** [Math.round(x)]: the whole number nearest to [x], a half going up; a
    result of zero keeps the sign of [x].  A finite [x] is [m * 2^e] up to
    its sign. *)
Definition Math_round (x : float) : float :=
  match Prim2SF x with
  | S754_finite s m e =>
      if 0 <=? e then x
      else
        let d := 2 ^ (- e) in
        let n := ((if s then - (2 * Z.pos m) else 2 * Z.pos m) + d) / (2 * d) in
        if n =? 0 then (if s then neg_zero else zero) else of_Z n
  | _ => x
  end.

(** A box [[x1, y1, x2, y2]] of four numbers. *)
Record box : Type := Box { x1 : float; y1 : float; x2 : float; y2 : float }.

(** The entry written for one category (interface [TagMetrics]). *)
Record TagMetrics : Type := {
  true_positives : Z;
  false_positives : Z;
  false_negatives : Z;
  ground_truth_count : Z;
  predicted_count : Z;
  precision : float;
  recall : float;
  f1_score : float
}.

(** *** Values *)

(** What [JSON.parse] returns.  An object lists each key once, with the value
    that [JSON.parse] keeps for it. *)
Inductive json : Type :=
  | JNull
  | JBool (b : bool)
  | JNumber (x : float)
  | JString (s : string)
  | JArray (items : list json)
  | JObject (members : object json).

(** A value read from such a document: [None] stands for [undefined]. *)
Definition value : Type := option json.

(** The ways an operation on a value throws a [TypeError]: a property read
    of [undefined] or of [null], the call of what is no function, and the
    conversion to a number of an object that yields no primitive. *)
Inductive fault : Type :=
  | read_of_undefined (key : string)
  | read_of_null (key : string)
  | not_a_function (callee : string)
  | not_a_primitive.

(** The outcome of code that can only throw a [TypeError]. *)
Inductive completion (A : Type) : Type :=
  | Return (a : A)
  | ThrowTypeError (f : fault).
Arguments Return {A} a.
Arguments ThrowTypeError {A} f.

#[export] Instance completion_ret : MRet completion := λ A a, Return a.
#[export] Instance completion_bind : MBind completion := λ A B f m,
  match m with
  | Return a => f a
  | ThrowTypeError e => ThrowTypeError e
  end.

(** What the scripts ask of the engine and of Node: the text of a
    [TypeError], the characters of a string and the number a string or an
    object converts to ([None]: the conversion throws), [JSON.parse] ([inr]
    is the message of its [SyntaxError]), [path], [fs], and the printing of
    numbers. *)
Record Host : Type := {
  TypeError_message : fault → string;
  String_at : string → nat → option string;
  StringToNumber : string → float;
  ObjectToNumber : json → option float;
  JSON_parse : string → json + string;
  path_extname : string → string;
  path_join : string → string → string;
  fs_readdir : string → Evaluate.result (list string);
  fs_readFile : string → Evaluate.result string;
  String_of : Z → string;
  toFixed : float → nat → string
}.

(** [v.key], for a key that no prototype defines ([labels], [tag],
    [bbox]): the member of an object, [undefined] on any other value, and a
    [TypeError] on [undefined] and [null]. *)
Definition get (v : value) (key : string) : completion value :=
  match v with
  | None => ThrowTypeError (read_of_undefined key)
  | Some JNull => ThrowTypeError (read_of_null key)
  | Some (JObject members) => Return (obj_get key members)
  | Some _ => Return None
  end.

(** [v[i]]: the element of an array, the character of a string, the member
    of an object under the key that [i] prints to. *)
Definition index (h : Host) (v : value) (i : nat) : completion value :=
  match v with
  | None => ThrowTypeError (read_of_undefined (pretty i))
  | Some JNull => ThrowTypeError (read_of_null (pretty i))
  | Some (JArray items) => Return (items !! i)
  | Some (JString s) => Return (JString <$> String_at h s i)
  | Some (JObject members) => Return (obj_get (pretty i) members)
  | Some _ => Return None
  end.

(** The conversion of a value to a number. *)
Definition ToNumber (h : Host) (v : value) : completion float :=
  match v with
  | None => Return nan
  | Some JNull => Return zero
  | Some (JBool b) => Return (if b then one else zero)
  | Some (JNumber x) => Return x
  | Some (JString s) => Return (StringToNumber h s)
  | Some o =>
      match ObjectToNumber h o with
      | Some x => Return x
      | None => ThrowTypeError not_a_primitive
      end
  end.

(** [v === s] for a string [s]. *)
Definition is_string (v : value) (s : string) : bool :=
  match v with
  | Some (JString s') => bool_decide (s' = s)
  | _ => false
  end.

(** The thrown [TypeError]: it has no [code]. *)
Definition TypeError (h : Host) (f : fault) : Evaluate.Error :=
  {| Evaluate.code := None; Evaluate.message := TypeError_message h f |}.

(** The thrown [SyntaxError]. *)
Definition SyntaxError (message : string) : Evaluate.Error :=
  {| Evaluate.code := None; Evaluate.message := message |}.

(** [for (const x of l)] and [l.forEach((x, i) => ...)] with the state of the
    body threaded through; a throw ends the loop. *)
Fixpoint for_of {A S : Type} (f : S → A → completion S) (l : list A) (s : S)
    : completion S :=
  match l with
  | [] => Return s
  | x :: l' => s' ← f s x; for_of f l' s'
  end.

Fixpoint forEach {A S : Type} (f : S → A → Z → completion S) (i : Z) (l : list A) (s : S)
    : completion S :=
  match l with
  | [] => Return s
  | x :: l' => s' ← f s x i; forEach f (i + 1) l' s'
  end.

End Js.

(** ** [evaluate.mjs], run by Node *)

Module Script.

Import Js.

Definition IOU_THRESHOLD : float := 0.5%float.

(** [Math.max(a, b)], [Math.min(a, b)] and [a - b] on two values: both are
    converted, the left one first. *)
Definition max_of (h : Host) (a b : value) : completion float :=
  x ← ToNumber h a; y ← ToNumber h b; mret (Math_max x y).

Definition min_of (h : Host) (a b : value) : completion float :=
  x ← ToNumber h a; y ← ToNumber h b; mret (Math_min x y).

Definition minus (h : Host) (a b : value) : completion float :=
  x ← ToNumber h a; y ← ToNumber h b; mret (x - y)%float.

(** [(box[2] - box[0]) * (box[3] - box[1])] *)
Definition boxArea (h : Host) (box : value) : completion float :=
  r ← index h box 2; l ← index h box 0; w ← minus h r l;
  b ← index h box 3; t ← index h box 1; d ← minus h b t;
  mret (w * d)%float.

Definition calculateIoU (h : Host) (boxA boxB : value) : completion float :=
  a0 ← index h boxA 0; b0 ← index h boxB 0; xA ← max_of h a0 b0;
  a1 ← index h boxA 1; b1 ← index h boxB 1; yA ← max_of h a1 b1;
  a2 ← index h boxA 2; b2 ← index h boxB 2; xB ← min_of h a2 b2;
  a3 ← index h boxA 3; b3 ← index h boxB 3; yB ← min_of h a3 b3;
  let interArea := (Math_max 0 (xB - xA) * Math_max 0 (yB - yA))%float in
  boxAArea ← boxArea h boxA;
  boxBArea ← boxArea h boxB;
  let unionArea := (boxAArea + boxBArea - interArea)%float in
  if (unionArea =? 0)%float then mret 0%float
  else mret (interArea / unionArea)%float.

(** The callback [l => l.tag === tag] of [filter], run over the elements of
    an array. *)
Fixpoint filter_tag (tag : string) (items : list json) : completion (list json) :=
  match items with
  | [] => Return []
  | l :: rest =>
      t ← get (Some l) "tag";
      kept ← filter_tag tag rest;
      mret (if is_string t tag then l :: kept else kept)
  end.

(** [labels.filter(l => l.tag === tag)]: only an array has a [filter] to
    call. *)
Definition labels_filter (callee : string) (labels : value) (tag : string)
    : completion (list json) :=
  match labels with
  | None => ThrowTypeError (read_of_undefined "filter")
  | Some JNull => ThrowTypeError (read_of_null "filter")
  | Some (JArray items) => filter_tag tag items
  | Some _ => ThrowTypeError (not_a_function callee)
  end.

(** The callback of [predBoxes.forEach]; the state is
    [(bestIoU, bestMatchIndex)]. *)
Definition scan_pred (h : Host) (matchedPredIndices : gset Z) (gtBox : json)
    (best : float * Z) (predBox : json) (i : Z) : completion (float * Z) :=
  if decide (i ∈ matchedPredIndices) then mret best
  else
    boxA ← get (Some gtBox) "bbox";
    boxB ← get (Some predBox) "bbox";
    iou ← calculateIoU h boxA boxB;
    mret (if (best.1 <? iou)%float then (iou, i) else best).

(** The body of [for (const gtBox of gtBoxes)]; the state is
    [(truePositives, matchedPredIndices)]. *)
Definition match_gtBox (h : Host) (predBoxes : list json) (st : Z * gset Z) (gtBox : json)
    : completion (Z * gset Z) :=
  best ← forEach (scan_pred h st.2 gtBox) 0 predBoxes (0%float, -1);
  mret (if (IOU_THRESHOLD <=? best.1)%float
        then (st.1 + 1, {[best.2]} ∪ st.2)
        else st).

(** The three rates, as [evaluateSingleFile] and [aggregateResults] (for a
    category and for [Overall]) compute them from their counters. *)
Definition precision_of (tp fp : Z) : float :=
  if 0 <? tp + fp then (of_Z tp / of_Z (tp + fp))%float else 0%float.

Definition recall_of (tp fn : Z) : float :=
  if 0 <? tp + fn then (of_Z tp / of_Z (tp + fn))%float else 0%float.

Definition f1_of (precision recall : float) : float :=
  if (0 <? precision + recall)%float
  then (2 * (precision * recall) / (precision + recall))%float
  else 0%float.

(** One round of [for (const tag of UI_TAGS)] in [evaluateSingleFile]. *)
Definition evaluateTag (h : Host) (gtData predData : json) (tag : string)
    : completion TagMetrics :=
  gtLabels ← get (Some gtData) "labels";
  gtBoxes ← labels_filter "gtData.labels.filter" gtLabels tag;
  predLabels ← get (Some predData) "labels";
  predBoxes ← labels_filter "predData.labels.filter" predLabels tag;
  st ← for_of (match_gtBox h predBoxes) gtBoxes (0, ∅);
  let truePositives := st.1 in
  let falsePositives := Z.of_nat (length predBoxes) - truePositives in
  let falseNegatives := Z.of_nat (length gtBoxes) - truePositives in
  let precision := precision_of truePositives falsePositives in
  let recall := recall_of truePositives falseNegatives in
  mret {| true_positives := truePositives;
          false_positives := falsePositives;
          false_negatives := falseNegatives;
          ground_truth_count := Z.of_nat (length gtBoxes);
          predicted_count := Z.of_nat (length predBoxes);
          precision := precision;
          recall := recall;
          f1_score := f1_of precision recall |}.

Definition evaluateSingleFile (h : Host) (gtData predData : json)
    : completion (object TagMetrics) :=
  for_of
    (λ metrics tag, m ← evaluateTag h gtData predData tag; mret (obj_set tag m metrics))
    UI_TAGS [].

(** The five counters summed by [aggregateResults]. *)
Record TagStats : Type := {
  s_true_positives : Z;
  s_false_positives : Z;
  s_false_negatives : Z;
  s_ground_truth_count : Z;
  s_predicted_count : Z
}.

Definition zero_stats : TagStats := Build_TagStats 0 0 0 0 0.

(** [acc.x += stats.x] for the five counters. *)
Definition add_stats (acc : TagStats) (stats : TagMetrics) : TagStats :=
  {| s_true_positives := s_true_positives acc + true_positives stats;
     s_false_positives := s_false_positives acc + false_positives stats;
     s_false_negatives := s_false_negatives acc + false_negatives stats;
     s_ground_truth_count := s_ground_truth_count acc + ground_truth_count stats;
     s_predicted_count := s_predicted_count acc + predicted_count stats |}.

(** [{ ...stats, precision, recall, f1_score }] *)
Definition with_rates (stats : TagStats) : TagMetrics :=
  let precision := precision_of (s_true_positives stats) (s_false_positives stats) in
  let recall := recall_of (s_true_positives stats) (s_false_negatives stats) in
  {| true_positives := s_true_positives stats;
     false_positives := s_false_positives stats;
     false_negatives := s_false_negatives stats;
     ground_truth_count := s_ground_truth_count stats;
     predicted_count := s_predicted_count stats;
     precision := precision;
     recall := recall;
     f1_score := f1_of precision recall |}.

(** [for (const fileMetrics of allMetrics) if (fileMetrics[tag]) ...] *)
Definition sum_tag (tag : string) (allMetrics : list (object TagMetrics)) : TagStats :=
  fold_left
    (λ tagStats fileMetrics,
       match obj_get tag fileMetrics with
       | Some m => add_stats tagStats m
       | None => tagStats
       end)
    allMetrics zero_stats.

Definition aggregateTags (allMetrics : list (object TagMetrics)) : object TagMetrics :=
  fold_left (λ finalReport tag, obj_set tag (with_rates (sum_tag tag allMetrics)) finalReport)
    UI_TAGS [].

Definition aggregateResults (allMetrics : list (object TagMetrics)) : object TagMetrics :=
  let finalReport := aggregateTags allMetrics in
  let overall := fold_left add_stats (obj_values finalReport) zero_stats in
  obj_set "Overall" (with_rates overall) finalReport.

Definition formatPercent (h : Host) (n : float) : string :=
  Evaluate.padStart (toFixed h (n * 100)%float 2) 6.

Definition formatInt (h : Host) (n : Z) : string :=
  Evaluate.padEnd (String_of h n) 5.

Definition report_row (h : Host) (tag : string) (stats : TagMetrics) : string :=
  String.concat " | "
    [ Evaluate.padEnd tag 9;
      Evaluate.padEnd (String_of h (ground_truth_count stats)) 8;
      Evaluate.padEnd (String_of h (predicted_count stats)) 10;
      formatInt h (true_positives stats);
      formatInt h (false_positives stats);
      formatInt h (false_negatives stats);
      formatPercent h (precision stats);
      formatPercent h (recall stats);
      formatPercent h (f1_score stats) ].

Definition report_rows (h : Host) (report : object TagMetrics)
    : list Evaluate.console_call :=
  flat_map
    (λ tag, match obj_get tag report with
            | Some stats => [Evaluate.console_log (report_row h tag stats)]
            | None => []
            end)
    (UI_TAGS ++ ["Overall"%string]).

Definition printReport (h : Host) (report : object TagMetrics) : list Evaluate.console_call :=
  [ Evaluate.console_log (Evaluate.nl +:+ "--- LLM Tagging Performance Evaluation ---");
    Evaluate.console_log ("IoU Threshold: 0.5" +:+ Evaluate.nl);
    Evaluate.console_log
      "Tag       | GT Count | Pred Count | TP   | FP   | FN   | Precision | Recall | F1-Score";
    Evaluate.console_log
      "----------|----------|------------|------|------|------|-----------|--------|---------" ]
  ++ report_rows h report
  ++ [ Evaluate.console_log
         "------------------------------------------------------------------------------------" ].

(** The inner [try] block of [main] for one file. *)
Definition load_pair (h : Host) (gtFolder predFolder file : string)
    : Evaluate.result (object TagMetrics) :=
  match fs_readFile h (path_join h gtFolder file) with
  | Evaluate.Throw err => Evaluate.Throw err
  | Evaluate.Ok gtContent =>
      match fs_readFile h (path_join h predFolder file) with
      | Evaluate.Throw err => Evaluate.Throw err
      | Evaluate.Ok predContent =>
          match JSON_parse h gtContent with
          | inr message => Evaluate.Throw (SyntaxError message)
          | inl gtData =>
              match JSON_parse h predContent with
              | inr message => Evaluate.Throw (SyntaxError message)
              | inl predData =>
                  match evaluateSingleFile h gtData predData with
                  | ThrowTypeError f => Evaluate.Throw (TypeError h f)
                  | Return fileMetrics => Evaluate.Ok fileMetrics
                  end
              end
          end
      end
  end.

(** The body of [for (const file of gtFiles)]; the state is the console so
    far and [allMetrics].  The inner [catch] is [Evaluate.on_error]. *)
Definition process_file (h : Host) (gtFolder predFolder : string)
    (st : list Evaluate.console_call * list (object TagMetrics)) (file : string)
    : list Evaluate.console_call * list (object TagMetrics) :=
  if decide (path_extname h file = ".json"%string) then
    match load_pair h gtFolder predFolder file with
    | Evaluate.Ok fileMetrics => (st.1, st.2 ++ [fileMetrics])
    | Evaluate.Throw err => (st.1 ++ [Evaluate.on_error file err], st.2)
    end
  else st.

(** [main], run with [process.argv = argv]. *)
Definition main (h : Host) (argv : list string) : Evaluate.outcome :=
  match drop 2 argv with
  | [gtFolder; predFolder] =>
      match fs_readdir h gtFolder with
      | Evaluate.Ok gtFiles =>
          let '(out, allMetrics) :=
            fold_left (process_file h gtFolder predFolder) gtFiles ([], []) in
          if decide (length allMetrics = 0)%nat
          then {| Evaluate.console :=
                    out ++ [Evaluate.console_log "No matching file pairs found to evaluate."];
                  Evaluate.exit_code := 0 |}
          else {| Evaluate.console := out ++ printReport h (aggregateResults allMetrics);
                  Evaluate.exit_code := 0 |}
      | Evaluate.Throw error =>
          {| Evaluate.console :=
               [Evaluate.console_error
                  ["Failed to read directories: " +:+ Evaluate.message error]];
             Evaluate.exit_code := 1 |}
      end
  | _ => {| Evaluate.console := [Evaluate.console_error [Evaluate.usage]];
            Evaluate.exit_code := 1 |}
  end.

End Script.

(** ** [DataExport.tsx], run by the browser *)

Module Component.

Import Js.

(** Interface [BoundingBox] of [LabelingCanvas.tsx]. *)
Record BoundingBox : Type := {
  id : string;
  tag : string;
  bbox : box;
  type : DataExport.box_type
}.

(** The document handed to [downloadJSON] by [generateEvaluation]; nothing is
    ever put into [details]. *)
Record evaluation : Type := {
  image_filename : string;
  iou_threshold : float;
  summary : object TagMetrics;
  details : list Empty_set
}.

Definition calculateIoU (boxA boxB : box) : float :=
  let xA := Math_max (x1 boxA) (x1 boxB) in
  let yA := Math_max (y1 boxA) (y1 boxB) in
  let xB := Math_min (x2 boxA) (x2 boxB) in
  let yB := Math_min (y2 boxA) (y2 boxB) in
  let interArea := (Math_max 0 (xB - xA) * Math_max 0 (yB - yA))%float in
  let boxAArea := ((x2 boxA - x1 boxA) * (y2 boxA - y1 boxA))%float in
  let boxBArea := ((x2 boxB - x1 boxB) * (y2 boxB - y1 boxB))%float in
  (interArea / (boxAArea + boxBArea - interArea))%float.

Definition iouThreshold : float := 0.5%float.

Definition tags : list string := ["Button"; "Input"; "Radio"; "Dropdown"]%string.

(** The callback of [gtBoxes.forEach]; the state is [(bestIoU, bestMatch)]. *)
Definition scan_gt (matchedGT : gset string) (predBox : BoundingBox)
    (best : float * option BoundingBox) (gtBox : BoundingBox)
    : float * option BoundingBox :=
  if decide (id gtBox ∈ matchedGT) then best
  else
    let iou := calculateIoU (bbox predBox) (bbox gtBox) in
    if (best.1 <? iou)%float && (iouThreshold <=? iou)%float then (iou, Some gtBox) else best.

(** The mutable state of the matching pass of one tag. *)
Record match_state : Type := {
  truePositives : Z;
  matchedGT : gset string;
  matchedPred : gset string
}.

(** The callback of [predBoxes.forEach]. *)
Definition match_predBox (gtBoxes : list BoundingBox) (st : match_state)
    (predBox : BoundingBox) : match_state :=
  match (fold_left (scan_gt (matchedGT st) predBox) gtBoxes (0%float, None)).2 with
  | Some bestMatch =>
      {| truePositives := truePositives st + 1;
         matchedGT := {[id bestMatch]} ∪ matchedGT st;
         matchedPred := {[id predBox]} ∪ matchedPred st |}
  | None => st
  end.

(** The loop over [predBoxes], from [truePositives = 0] and empty sets. *)
Definition match_boxes (gtBoxes predBoxes : list BoundingBox) : match_state :=
  fold_left (match_predBox gtBoxes) predBoxes
    {| truePositives := 0; matchedGT := ∅; matchedPred := ∅ |}.

(** The three rates, as [generateEvaluation] computes them for a tag and for
    [overall]. *)
Definition precision_of (tp fp : Z) : float :=
  if 0 <? tp then (of_Z tp / of_Z (tp + fp))%float else 0%float.

Definition recall_of (tp fn : Z) : float :=
  if 0 <? tp then (of_Z tp / of_Z (tp + fn))%float else 0%float.

Definition f1_of (precision recall : float) : float :=
  if (0 <? precision + recall)%float
  then (2 * precision * recall / (precision + recall))%float
  else 0%float.

(** [Math.round(x * 1000) / 1000] *)
Definition round3 (x : float) : float := (Math_round (x * 1000) / 1000)%float.

(** The counters and the rates of one tag before they are stored. *)
Record tag_result : Type := {
  r_gt_count : Z;
  r_pred_count : Z;
  r_tp : Z;
  r_fp : Z;
  r_fn : Z;
  r_precision : float;
  r_recall : float;
  r_f1Score : float
}.

Definition computeTag (manualLabels predictedLabels : list BoundingBox) (t : string)
    : tag_result :=
  let gtBoxes := filter (λ l, tag l = t) manualLabels in
  let predBoxes := filter (λ l, tag l = t) predictedLabels in
  let truePositives := truePositives (match_boxes gtBoxes predBoxes) in
  let falsePositives := Z.of_nat (length predBoxes) - truePositives in
  let falseNegatives := Z.of_nat (length gtBoxes) - truePositives in
  let precision := precision_of truePositives falsePositives in
  let recall := recall_of truePositives falseNegatives in
  {| r_gt_count := Z.of_nat (length gtBoxes);
     r_pred_count := Z.of_nat (length predBoxes);
     r_tp := truePositives;
     r_fp := falsePositives;
     r_fn := falseNegatives;
     r_precision := precision;
     r_recall := recall;
     r_f1Score := f1_of precision recall |}.

(** [evaluation.summary[tag] = { ... }], the rates rounded to three decimals. *)
Definition store (r : tag_result) : TagMetrics :=
  {| ground_truth_count := r_gt_count r;
     predicted_count := r_pred_count r;
     true_positives := r_tp r;
     false_positives := r_fp r;
     false_negatives := r_fn r;
     precision := round3 (r_precision r);
     recall := round3 (r_recall r);
     f1_score := round3 (r_f1Score r) |}.

Definition summaryTags (manualLabels predictedLabels : list BoundingBox)
    : object TagMetrics :=
  fold_left
    (λ summary t, obj_set t (store (computeTag manualLabels predictedLabels t)) summary)
    tags [].

(** [tagMetrics.reduce((sum, metrics) => sum + metrics.field, 0)] *)
Definition reduce_sum (field : TagMetrics → Z) (tagMetrics : list TagMetrics) : Z :=
  fold_left (λ sum metrics, sum + field metrics) tagMetrics 0.

Definition overallOf (manualLabels predictedLabels : list BoundingBox)
    (summary : object TagMetrics) : tag_result :=
  let totalGT := Z.of_nat (length manualLabels) in
  let totalPred := Z.of_nat (length predictedLabels) in
  let tagMetrics := obj_values summary in
  let totalTP := reduce_sum true_positives tagMetrics in
  let totalFP := reduce_sum false_positives tagMetrics in
  let totalFN := reduce_sum false_negatives tagMetrics in
  let overallPrecision := precision_of totalTP totalFP in
  let overallRecall := recall_of totalTP totalFN in
  {| r_gt_count := totalGT;
     r_pred_count := totalPred;
     r_tp := totalTP;
     r_fp := totalFP;
     r_fn := totalFN;
     r_precision := overallPrecision;
     r_recall := overallRecall;
     r_f1Score := f1_of overallPrecision overallRecall |}.

(** [None] is the early return after [toast.error]: nothing is downloaded. *)
Definition generateEvaluation (manualLabels predictedLabels : list BoundingBox)
    (imageName : string) : option evaluation :=
  if (length manualLabels =? 0)%nat || (length predictedLabels =? 0)%nat then None
  else
    let summary := summaryTags manualLabels predictedLabels in
    let overall := overallOf manualLabels predictedLabels summary in
    Some {| image_filename := imageName;
            iou_threshold := iouThreshold;
            summary := obj_set "overall" (store overall) summary;
            details := [] |}.

End Component.

(** ** The specification in binary64 *)

Module Spec.

Import Js.

(** A label: its category and its box (section 3). *)
Record label : Type := Label { category : string; box_of : box }.

(** Section 4.1: the intersection rectangle, its area clamped at zero, the
    union area, and their quotient or 0 when the union area is 0. *)
Definition area (a : box) : float := ((x2 a - x1 a) * (y2 a - y1 a))%float.

Definition intersection (a b : box) : float :=
  let ix1 := Math_max (x1 a) (x1 b) in
  let iy1 := Math_max (y1 a) (y1 b) in
  let ix2 := Math_min (x2 a) (x2 b) in
  let iy2 := Math_min (y2 a) (y2 b) in
  (Math_max 0 (ix2 - ix1) * Math_max 0 (iy2 - iy1))%float.

Definition iou (a b : box) : float :=
  let union := (area a + area b - intersection a b)%float in
  if (union =? 0)%float then 0%float else (intersection a b / union)%float.

(** Section 4.2, step 2.  The best IoU so far: that of the best candidate, 0
    while there is none. *)
Definition best_so_far (best : option (nat * float)) : float :=
  match best with
  | Some (_, b) => b
  | None => 0%float
  end.

(** The best candidate for [g] among [remaining], as its position in
    [remaining] (counted from [k]) and its IoU: the best so far is replaced
    only by a strictly greater IoU, so the earliest of equal candidates is
    kept. *)
Fixpoint best_candidate (g : box) (remaining : list box) (k : nat)
    (best : option (nat * float)) : option (nat * float) :=
  match remaining with
  | [] => best
  | p :: rest =>
      best_candidate g rest (S k)
        (if (best_so_far best <? iou g p)%float then Some (k, iou g p) else best)
  end.

(** Step 3.  The number of true positives of the greedy assignment: the
    ground-truth boxes are taken in list order; each takes its best candidate
    out of the predicted boxes that are left when the best IoU is at least
    one half, and stays unmatched otherwise. *)
Fixpoint greedy (gts remaining : list box) : Z :=
  match gts with
  | [] => 0
  | g :: gts' =>
      match best_candidate g remaining 0 None with
      | Some (k, b) =>
          if (0.5 <=? b)%float
          then 1 + greedy gts' (delete k remaining)
          else greedy gts' remaining
      | None => greedy gts' remaining
      end
  end.

(** Step 1: the boxes of category [t] of a label set, in order. *)
Definition boxes_of (t : string) (ls : list label) : list box :=
  box_of <$> filter (λ l, category l = t) ls.

Definition true_positives_of (t : string) (gt pred : list label) : Z :=
  greedy (boxes_of t gt) (boxes_of t pred).

(** Section 4.3: the three rates. *)
Definition precision_of (tp fp : Z) : float :=
  if 0 <? tp + fp then (of_Z tp / of_Z (tp + fp))%float else 0%float.

Definition recall_of (tp fn : Z) : float :=
  if 0 <? tp + fn then (of_Z tp / of_Z (tp + fn))%float else 0%float.

Definition f1_of (p r : float) : float :=
  if (0 <? p + r)%float then (2 * (p * r) / (p + r))%float else 0%float.

(** The entry of five counters: its rates are derived from the counters. *)
Definition entry (tp fp fn gt pred : Z) : TagMetrics :=
  {| true_positives := tp;
     false_positives := fp;
     false_negatives := fn;
     ground_truth_count := gt;
     predicted_count := pred;
     precision := precision_of tp fp;
     recall := recall_of tp fn;
     f1_score := f1_of (precision_of tp fp) (recall_of tp fn) |}.

(** The sum of one counter of category [t] over the match outcomes of the
    processed images. *)
Definition total (field : TagMetrics → Z) (t : string) (outcomes : list (object TagMetrics))
    : Z :=
  foldr (λ outcome sum, from_option field 0 (obj_get t outcome) + sum) 0 outcomes.

(** The same summed across the categories. *)
Definition grand_total (field : TagMetrics → Z) (outcomes : list (object TagMetrics)) : Z :=
  foldr (λ t sum, total field t outcomes + sum) 0 UI_TAGS.

(** The aggregate report: an entry for each category, then [Overall]. *)
Definition aggregate (outcomes : list (object TagMetrics)) : object TagMetrics :=
  ((λ t, (t, entry (total true_positives t outcomes) (total false_positives t outcomes)
                   (total false_negatives t outcomes) (total ground_truth_count t outcomes)
                   (total predicted_count t outcomes))) <$> UI_TAGS)
  ++ [("Overall"%string,
       entry (grand_total true_positives outcomes) (grand_total false_positives outcomes)
         (grand_total false_negatives outcomes) (grand_total ground_truth_count outcomes)
         (grand_total predicted_count outcomes))].

End Spec.

(** ** Notions used in the statements *)

(** The sum of one counter over the entries of the four categories. *)
Definition category_total (field : TagMetrics → Z) (report : object TagMetrics) : Z :=
  foldr (λ t acc, from_option field 0 (obj_get t report) + acc) 0 UI_TAGS.

(** A label of one of the four categories. *)
Definition recognized (l : Evaluate.label) : Prop := Evaluate.tag l ∈ UI_TAGS.

(** The pair of documents of a file of the ground-truth folder, when the
    file has the extension [.json] and both its documents are read and
    parsed. *)
Definition loaded (h : Evaluate.Host) (gtFolder predFolder file : string)
    : option (Evaluate.document * Evaluate.document) :=
  if decide (Evaluate.path_extname h file = ".json"%string) then
    match Evaluate.fs_readFile h (Evaluate.path_join h gtFolder file),
          Evaluate.fs_readFile h (Evaluate.path_join h predFolder file) with
    | Evaluate.Ok gtContent, Evaluate.Ok predContent =>
        match Evaluate.JSON_parse h gtContent, Evaluate.JSON_parse h predContent with
        | Evaluate.Ok gtData, Evaluate.Ok predData => Some (gtData, predData)
        | _, _ => None
        end
    | _, _ => None
    end
  else None.

Definition evaluate_pair (pair : Evaluate.document * Evaluate.document) : object TagMetrics :=
  Evaluate.evaluateSingleFile pair.1 pair.2.

(** The report part of the console: the no-data line when no pair loaded, the
    table of the aggregate over the loaded pairs otherwise. *)
Definition report_of (h : Evaluate.Host)
    (pairs : list (Evaluate.document * Evaluate.document)) : list Evaluate.console_call :=
  match pairs with
  | [] => [Evaluate.console_log "No matching file pairs found to evaluate."]
  | _ => Evaluate.printReport h (Evaluate.aggregateResults (evaluate_pair <$> pairs))
  end.

(** A warning or an error, as opposed to a line of standard output. *)
Definition is_complaint (c : Evaluate.console_call) : Prop :=
  match c with
  | Evaluate.console_log _ => False
  | _ => True
  end.

(** ** Notions used in the statements on binary64 *)

(** The JSON value [v] holds the label [l]: an object whose [tag] is the
    category and whose [bbox] is an array that starts with the four numbers
    of the box. *)
Definition label_of (v : Js.json) (l : Spec.label) : Prop :=
  ∃ members rest,
    v = Js.JObject members ∧
    obj_get "tag" members = Some (Js.JString (Spec.category l)) ∧
    obj_get "bbox" members =
      Some (Js.JArray
              (Js.JNumber (Js.x1 (Spec.box_of l)) :: Js.JNumber (Js.y1 (Spec.box_of l))
               :: Js.JNumber (Js.x2 (Spec.box_of l)) :: Js.JNumber (Js.y2 (Spec.box_of l))
               :: rest)).

(** The JSON value [v] holds the label set [ls]: an object whose [labels] is
    the array of these labels, in order. *)
Definition document_of (v : Js.json) (ls : list Spec.label) : Prop :=
  ∃ members items,
    v = Js.JObject members ∧
    obj_get "labels" members = Some (Js.JArray items) ∧
    Forall2 label_of items ls.

(** An entry whose three rates are those of section 4.3 for its own
    counters. *)
Definition carries_rates (m : Js.TagMetrics) : Prop :=
  let p := Spec.precision_of (Js.true_positives m) (Js.false_positives m) in
  let r := Spec.recall_of (Js.true_positives m) (Js.false_negatives m) in
  Js.precision m = p ∧ Js.recall m = r ∧ Js.f1_score m = Spec.f1_of p r.

(** A rate rounded to three decimals: the nearest whole number of
    thousandths, divided by 1000. *)
Definition thousandths (x : float) : float := (Js.Math_round (x * 1000) / 1000)%float.

(** An entry of the export: precision and recall are taken to be 0 without a
    true positive, the product of F1 is taken from the left, and each rate is
    stored rounded to three decimals. *)
Definition carries_stored_rates (m : Js.TagMetrics) : Prop :=
  let tp := Js.true_positives m in
  let p := if 0 <? tp then (Js.of_Z tp / Js.of_Z (tp + Js.false_positives m))%float
           else 0%float in
  let r := if 0 <? tp then (Js.of_Z tp / Js.of_Z (tp + Js.false_negatives m))%float
           else 0%float in
  let f := if (0 <? p + r)%float then (2 * p * r / (p + r))%float else 0%float in
  Js.precision m = thousandths p ∧ Js.recall m = thousandths r ∧
  Js.f1_score m = thousandths f.

(** The metrics of a file of the ground-truth folder: those of its two
    documents, when the file has the extension [.json], both documents are
    read and parsed, and their evaluation returns. *)
Definition evaluated (h : Js.Host) (gtFolder predFolder file : string)
    : option (object Js.TagMetrics) :=
  if decide (Js.path_extname h file = ".json"%string) then
    match Js.fs_readFile h (Js.path_join h gtFolder file),
          Js.fs_readFile h (Js.path_join h predFolder file) with
    | Evaluate.Ok gtContent, Evaluate.Ok predContent =>
        match Js.JSON_parse h gtContent, Js.JSON_parse h predContent with
        | inl gtData, inl predData =>
            match Script.evaluateSingleFile h gtData predData with
            | Js.Return fileMetrics => Some fileMetrics
            | Js.ThrowTypeError _ => None
            end
        | _, _ => None
        end
    | _, _ => None
    end
  else None.

(** A row of the table: the nine cells of an entry, padded and joined. *)
Definition table_row (h : Js.Host) (name : string) (m : Js.TagMetrics) : string :=
  let count (n : Z) (width : nat) := Evaluate.padEnd (Js.String_of h n) width in
  let percent (x : float) := Evaluate.padStart (Js.toFixed h (x * 100)%float 2) 6 in
  Evaluate.padEnd name 9 +:+ " | " +:+
  count (Js.ground_truth_count m) 8%nat +:+ " | " +:+
  count (Js.predicted_count m) 10%nat +:+ " | " +:+
  count (Js.true_positives m) 5%nat +:+ " | " +:+
  count (Js.false_positives m) 5%nat +:+ " | " +:+
  count (Js.false_negatives m) 5%nat +:+ " | " +:+
  percent (Js.precision m) +:+ " | " +:+
  percent (Js.recall m) +:+ " | " +:+
  percent (Js.f1_score m).

(** The tabular report: the title, the threshold, the column heads, a row
    for each entry of the report, and a closing rule, each a line of
    standard output. *)
Definition table (h : Js.Host) (report : object Js.TagMetrics) : list Evaluate.console_call :=
  Evaluate.console_log <$>
    ([ Evaluate.nl +:+ "--- LLM Tagging Performance Evaluation ---";
       "IoU Threshold: 0.5" +:+ Evaluate.nl;
       "Tag       | GT Count | Pred Count | TP   | FP   | FN   | Precision | Recall | F1-Score";
       "----------|----------|------------|------|------|------|-----------|--------|---------" ]
     ++ ((λ e, table_row h e.1 e.2) <$> report)
     ++ [ "------------------------------------------------------------------------------------" ]).

(** ** Notions used in the proofs *)

(** The larger and the smaller of two rationals, as [Math_max] and
    [Math_min] choose them. *)
Definition qmax (a b : Q) : Q := match (a ?= b)%Q with Lt => b | _ => a end.

Definition qmin (a b : Q) : Q := match (a ?= b)%Q with Gt => b | _ => a end.

(** The predicted boxes whose index, counted from [i], is not in [matched],
    each with its index: the candidates that the scan of a ground-truth box
    looks at. *)
Fixpoint unmatched (matched : gset Z) (i : Z) (predBoxes : list Evaluate.label)
    : list (Z * Evaluate.label) :=
  match predBoxes with
  | [] => []
  | p :: l =>
      if decide (i ∈ matched) then unmatched matched (i + 1) l
      else (i, p) :: unmatched matched (i + 1) l
  end.

(** The callback of the scan, run on a candidate and its index. *)
Definition pick (gtBox : Evaluate.label) (best : number * Z) (c : Z * Evaluate.label)
    : number * Z :=
  let iou := Evaluate.calculateIoU (Evaluate.bbox gtBox) (Evaluate.bbox c.2) in
  if js_gt iou best.1 then (iou, c.1) else best.

Definition candidate_boxes (U : list (Z * Evaluate.label)) : list box :=
  (λ c, Evaluate.bbox c.2) <$> U.

(** The callback of the loop over [allMetrics] in [aggregateResults]. *)
Definition tally (t : string) (tagStats : Evaluate.TagStats) (fileMetrics : object TagMetrics)
    : Evaluate.TagStats :=
  match obj_get t fileMetrics with
  | Some m => Evaluate.add_stats tagStats m
  | None => tagStats
  end.

(** What the loop of [main] prints for one file. *)
Definition complaint (h : Evaluate.Host) (gtFolder predFolder file : string)
    : list Evaluate.console_call :=
  if decide (Evaluate.path_extname h file = ".json"%string) then
    match Evaluate.load_pair h gtFolder predFolder file with
    | Evaluate.Ok _ => []
    | Evaluate.Throw err => [Evaluate.on_error file err]
    end
  else [].

(** The same notions on binary64. *)

(** The elements of [l] whose index, counted from [i], is not in [matched],
    each with its index. *)
Fixpoint candidates {A : Type} (matched : gset Z) (i : Z) (l : list A) : list (Z * A) :=
  match l with
  | [] => []
  | p :: l' =>
      if decide (i ∈ matched) then candidates matched (i + 1) l'
      else (i, p) :: candidates matched (i + 1) l'
  end.

(** The callback of the scan, run on a candidate box and its index. *)
Definition choose (g : Js.box) (best : float * Z) (c : Z * Js.box) : float * Z :=
  if (best.1 <? Spec.iou g c.2)%float then (Spec.iou g c.2, c.1) else best.

(** How the state of the script's scan, which starts at [(0, -1)], and the
    best candidate of the specification correspond over the candidate list
    [full]. *)
Definition scan_agrees (full : list (Z * Js.box)) (st : float * Z)
    (r : option (nat * float)) : Prop :=
  match r with
  | None => st = (0%float, -1)
  | Some (k, b) => st.1 = b ∧ ∃ p, full !! k = Some (st.2, p)
  end.

(** What the loop of [main] prints for one file. *)
Definition grumble (h : Js.Host) (gtFolder predFolder file : string)
    : list Evaluate.console_call :=
  if decide (Js.path_extname h file = ".json"%string) then
    match Script.load_pair h gtFolder predFolder file with
    | Evaluate.Ok _ => []
    | Evaluate.Throw err => [Evaluate.on_error file err]
    end
  else [].

(** ** Sample label sets *)

Module Samples.

Definition drawn (i t : string) (a b c d : Q) : DataExport.BoundingBox :=
  {| DataExport.id := i; DataExport.tag := t; DataExport.bbox := qbox a b c d;
     DataExport.type := DataExport.manual |}.

Definition guessed (i t : string) (a b c d : Q) : DataExport.BoundingBox :=
  {| DataExport.id := i; DataExport.tag := t; DataExport.bbox := qbox a b c d;
     DataExport.type := DataExport.predicted |}.

Definition doc (ls : list DataExport.BoundingBox) : Evaluate.document :=
  Evaluate.Document "sample.png" (DataExport.export_labels ls).

(** Two buttons drawn by hand and two predicted ones: the first drawn box
    overlaps both predictions, the second only the second prediction. *)
Definition crossed_manual : list DataExport.BoundingBox :=
  [drawn "manual-1" "Button" 0 0 100 20; drawn "manual-2" "Button" 0 0 60 20].

Definition crossed_predicted : list DataExport.BoundingBox :=
  [guessed "predicted-1-0" "Button" 40 0 100 20; guessed "predicted-1-1" "Button" 0 0 90 20].

(** One button matched exactly, and two predictions far away. *)
Definition thirds_manual : list DataExport.BoundingBox :=
  [drawn "manual-1" "Button" 0 0 100 100].

Definition thirds_predicted : list DataExport.BoundingBox :=
  [guessed "predicted-1-0" "Button" 0 0 100 100;
   guessed "predicted-1-1" "Button" 200 200 300 300;
   guessed "predicted-1-2" "Button" 400 400 500 500].

(** A prediction whose tag is none of the four categories. *)
Definition stray_manual : list DataExport.BoundingBox :=
  [drawn "manual-1" "Button" 0 0 100 100].

Definition stray_predicted : list DataExport.BoundingBox :=
  [guessed "predicted-1-0" "Button" 0 0 100 100;
   guessed "predicted-1-1" "Checkbox" 200 200 300 300].

(** A predicted box whose corners are swapped along x, and a drawn box of the
    same size. *)
Definition swapped_box : box := qbox 20 0 0 20.

Definition square_box : box := qbox 0 0 20 20.

End Samples.

(** A small host: a ground-truth folder with one pair that loads, one file
    without counterpart, one document that does not parse and one file that
    is no [.json] file; a folder whose only file has no counterpart; no
    other folder. *)
Definition sample_ENOENT : Evaluate.Error :=
  {| Evaluate.code := Some "ENOENT"%string;
     Evaluate.message := "ENOENT: no such file or directory" |}.

Definition sample_SyntaxError : Evaluate.Error :=
  {| Evaluate.code := None; Evaluate.message := "Unexpected end of JSON input" |}.

Definition sample_host : Evaluate.Host :=
  {| Evaluate.path_extname := λ file,
       if decide (file ∈ ["a.json"; "b.json"; "c.json"]%string) then ".json"%string
       else ""%string;
     Evaluate.path_join := λ folder file, folder +:+ "/" +:+ file;
     Evaluate.fs_readdir := λ folder,
       if decide (folder = "gt"%string)
       then Evaluate.Ok ["a.json"; "b.json"; "c.json"; "notes.txt"]%string
       else if decide (folder = "lonely"%string) then Evaluate.Ok ["b.json"%string]
       else Evaluate.Throw sample_ENOENT;
     Evaluate.fs_readFile := λ file,
       if decide (file ∈ ["gt/a.json"; "gt/b.json"; "lonely/b.json"]%string)
       then Evaluate.Ok "manual"%string
       else if decide (file = "pred/a.json"%string) then Evaluate.Ok "predicted"%string
       else if decide (file ∈ ["gt/c.json"; "pred/c.json"]%string) then Evaluate.Ok "{"%string
       else Evaluate.Throw sample_ENOENT;
     Evaluate.JSON_parse := λ content,
       if decide (content = "manual"%string)
       then Evaluate.Ok (Samples.doc Samples.crossed_manual)
       else if decide (content = "predicted"%string)
       then Evaluate.Ok (Samples.doc Samples.crossed_predicted)
       else Evaluate.Throw sample_SyntaxError;
     Evaluate.String_of := λ _, "0"%string;
     Evaluate.toFixed := λ _ _, "0.00"%string |}.

Definition sample_argv : list string := ["node"; "evaluate.mjs"; "gt"; "pred"]%string.

(** ** Sample documents *)

Module Samples64.

Definition label_json (t : string) (a b c d : float) : Js.json :=
  Js.JObject [("tag"%string, Js.JString t);
              ("bbox"%string, Js.JArray [Js.JNumber a; Js.JNumber b; Js.JNumber c; Js.JNumber d])].

Definition document (ls : list Js.json) : Js.json :=
  Js.JObject [("image_filename"%string, Js.JString "sample.png"); ("labels"%string, Js.JArray ls)].

Definition label (t : string) (a b c d : float) : Spec.label :=
  Spec.Label t (Js.Box a b c d).

(** Two buttons drawn by hand and two predicted ones: the first drawn box
    overlaps both predictions, the second only the second prediction; an
    input whose prediction misses the threshold by one rounding (the IoU is
    0.49999999999999994); and a radio whose first candidate has an IoU of
    [NaN] and whose second is the same box. *)
Definition mixed_manual : list Spec.label :=
  [label "Button" 0 0 100 20; label "Button" 0 0 60 20; label "Input" 10 10 30.5 27.2;
   label "Radio" 0 0 10 10].

Definition mixed_predicted : list Spec.label :=
  [label "Button" 40 0 100 20; label "Button" 0 0 90 20; label "Input" 10 10 51 27.2;
   label "Radio" (-1e308) 0 1e308 0; label "Radio" 0 0 10 10].

Definition mixed_manual_json : Js.json :=
  document [label_json "Button" 0 0 100 20; label_json "Button" 0 0 60 20;
            label_json "Input" 10 10 30.5 27.2; label_json "Radio" 0 0 10 10].

Definition mixed_predicted_json : Js.json :=
  document [label_json "Button" 40 0 100 20; label_json "Button" 0 0 90 20;
            label_json "Input" 10 10 51 27.2;
            label_json "Radio" (-1e308) 0 1e308 0; label_json "Radio" 0 0 10 10].

(** A button without [bbox], a document without predictions, and one
    predicted button. *)
Definition boxless_json : Js.json :=
  document [Js.JObject [("tag"%string, Js.JString "Button")]].

Definition empty_json : Js.json := document [].

Definition button_json : Js.json := document [label_json "Button" 0 0 100 20].

Definition drawn (i t : string) (a b c d : float) : Component.BoundingBox :=
  {| Component.id := i; Component.tag := t; Component.bbox := Js.Box a b c d;
     Component.type := DataExport.manual |}.

Definition guessed (i t : string) (a b c d : float) : Component.BoundingBox :=
  {| Component.id := i; Component.tag := t; Component.bbox := Js.Box a b c d;
     Component.type := DataExport.predicted |}.

(** One button matched exactly, and two predictions far away. *)
Definition thirds_manual : list Component.BoundingBox :=
  [drawn "manual-1" "Button" 0 0 100 100].

Definition thirds_predicted : list Component.BoundingBox :=
  [guessed "predicted-1-0" "Button" 0 0 100 100;
   guessed "predicted-1-1" "Button" 200 200 300 300;
   guessed "predicted-1-2" "Button" 400 400 500 500].

(** Three buttons predicted exactly, sixteen drawn buttons and ten predicted
    ones that overlap nothing: 3 true positives, 10 false positives and 16
    false negatives. *)
Definition sparse_manual : list Component.BoundingBox :=
  [drawn "manual-1" "Button" 0 0 50 50; drawn "manual-2" "Button" 100 0 150 50;
   drawn "manual-3" "Button" 200 0 250 50]
  ++ replicate 16 (drawn "manual-4" "Button" 0 1000 10 1010).

Definition sparse_predicted : list Component.BoundingBox :=
  [guessed "predicted-1-0" "Button" 0 0 50 50; guessed "predicted-1-1" "Button" 100 0 150 50;
   guessed "predicted-1-2" "Button" 200 0 250 50]
  ++ replicate 10 (guessed "predicted-1-3" "Button" 0 2000 10 2010).

(** The digits of [n] with a point before the last [digits] of them. *)
Definition decimal (n : Z) (digits : nat) : string :=
  let s := pretty n in
  let s := String.concat "" (replicate (S digits - String.length s) "0"%string) +:+ s in
  let whole := (String.length s - digits)%nat in
  if decide (digits = 0)%nat then s
  else String.substring 0 whole s +:+ "." +:+ String.substring whole digits s.

(** [x.toFixed(digits)] for a number below [10^21]: the nearest multiple of
    [10^-digits], a half going away from zero. *)
Definition to_fixed (x : float) (digits : nat) : string :=
  match Prim2SF x with
  | S754_finite s m e =>
      let scaled := Z.pos m * 10 ^ Z.of_nat digits in
      let n := if 0 <=? e then scaled * 2 ^ e
               else (2 * scaled + 2 ^ (- e)) / (2 * 2 ^ (- e)) in
      (if s then "-" else "")%string +:+ decimal n digits
  | S754_zero _ => decimal 0 digits
  | S754_infinity s => if s then "-Infinity"%string else "Infinity"%string
  | S754_nan => "NaN"%string
  end.

Definition ENOENT : Evaluate.Error :=
  {| Evaluate.code := Some "ENOENT"%string;
     Evaluate.message := "ENOENT: no such file or directory" |}.

(** A ground-truth folder with a pair that is evaluated ([a.json]), a file
    without counterpart ([b.json]), a document that does not parse
    ([c.json]), a button without [bbox] against a predicted button
    ([d.json]) and against no prediction ([e.json]), and a file that is no
    [.json] file; a folder whose only file has no counterpart; no other
    folder.  No sample document holds a string or an object where a number
    is read, so the conversions of strings and objects are never consulted;
    [toFixed] and [String] print in decimal. *)
Definition host : Js.Host :=
  {| Js.TypeError_message := λ f,
       match f with
       | Js.read_of_undefined k => "Cannot read properties of undefined (reading '" +:+ k +:+ "')"
       | Js.read_of_null k => "Cannot read properties of null (reading '" +:+ k +:+ "')"
       | Js.not_a_function c => c +:+ " is not a function"
       | Js.not_a_primitive => "Cannot convert object to primitive value"
       end%string;
     Js.String_at := λ s i,
       match String.get i s with Some c => Some (String c EmptyString) | None => None end;
     Js.StringToNumber := λ _, nan;
     Js.ObjectToNumber := λ _, Some nan;
     Js.JSON_parse := λ content,
       if decide (content = "manual"%string) then inl mixed_manual_json
       else if decide (content = "predicted"%string) then inl mixed_predicted_json
       else if decide (content = "boxless"%string) then inl boxless_json
       else if decide (content = "button"%string) then inl button_json
       else if decide (content = "empty"%string) then inl empty_json
       else inr "Unexpected end of JSON input"%string;
     Js.path_extname := λ file,
       if decide (file ∈ ["a.json"; "b.json"; "c.json"; "d.json"; "e.json"]%string)
       then ".json"%string else ""%string;
     Js.path_join := λ folder file, (folder +:+ "/" +:+ file)%string;
     Js.fs_readdir := λ folder,
       if decide (folder = "gt"%string)
       then Evaluate.Ok ["a.json"; "b.json"; "c.json"; "d.json"; "e.json"; "notes.txt"]%string
       else if decide (folder = "lonely"%string) then Evaluate.Ok ["b.json"%string]
       else Evaluate.Throw ENOENT;
     Js.fs_readFile := λ file,
       if decide (file ∈ ["gt/a.json"; "gt/b.json"; "lonely/b.json"]%string)
       then Evaluate.Ok "manual"%string
       else if decide (file = "pred/a.json"%string) then Evaluate.Ok "predicted"%string
       else if decide (file ∈ ["gt/c.json"; "pred/c.json"]%string) then Evaluate.Ok "{"%string
       else if decide (file ∈ ["gt/d.json"; "gt/e.json"]%string) then Evaluate.Ok "boxless"%string
       else if decide (file = "pred/d.json"%string) then Evaluate.Ok "button"%string
       else if decide (file = "pred/e.json"%string) then Evaluate.Ok "empty"%string
       else Evaluate.Throw ENOENT;
     Js.String_of := pretty;
     Js.toFixed := to_fixed |}.

Definition argv : list string := ["node"; "evaluate.mjs"; "gt"; "pred"]%string.

End Samples64.

(** ** Notions of the further properties *)

(** The width (or height) of the intersection of two intervals, clamped at
    zero. *)
Definition overlap (lo hi lo' hi' : Q) : Q := qmax 0 (qmin hi hi' + - qmax lo lo')%Q.

(** An entry without true positive: its counters against the two sizes, and
    three rates equal to zero. *)
Definition nothing_matched (m : TagMetrics) : Prop :=
  true_positives m = 0 ∧
  false_positives m = predicted_count m ∧
  false_negatives m = ground_truth_count m ∧
  num_eq (precision m) (Num 0) ∧ num_eq (recall m) (Num 0) ∧ num_eq (f1_score m) (Num 0).

(** Two buttons drawn under one id, and a prediction on each of them. *)
Definition twins_manual : list DataExport.BoundingBox :=
  [Samples.drawn "manual-1" "Button" 0 0 100 100;
   Samples.drawn "manual-1" "Button" 200 200 300 300].

Definition twins_predicted : list DataExport.BoundingBox :=
  [Samples.guessed "predicted-1-0" "Button" 0 0 100 100;
   Samples.guessed "predicted-1-1" "Button" 200 200 300 300].

(** The labels whose tag is none of the four tags of the export. *)
Definition stray_labels (ls : list DataExport.BoundingBox) : list DataExport.BoundingBox :=
  filter (λ l, DataExport.tag l ∉ DataExport.tags) ls.

(** The five counters of [m] are the sums of those of [m1] and [m2]. *)
Definition counts_add (m m1 m2 : TagMetrics) : Prop :=
  true_positives m = true_positives m1 + true_positives m2 ∧
  false_positives m = false_positives m1 + false_positives m2 ∧
  false_negatives m = false_negatives m1 + false_negatives m2 ∧
  ground_truth_count m = ground_truth_count m1 + ground_truth_count m2 ∧
  predicted_count m = predicted_count m1 + predicted_count m2.

(** The same on the accumulators of [aggregateResults]. *)
Definition stats_add (s s1 s2 : Evaluate.TagStats) : Prop :=
  Evaluate.s_true_positives s = Evaluate.s_true_positives s1 + Evaluate.s_true_positives s2 ∧
  Evaluate.s_false_positives s = Evaluate.s_false_positives s1 + Evaluate.s_false_positives s2 ∧
  Evaluate.s_false_negatives s = Evaluate.s_false_negatives s1 + Evaluate.s_false_negatives s2 ∧
  Evaluate.s_ground_truth_count s =
    Evaluate.s_ground_truth_count s1 + Evaluate.s_ground_truth_count s2 ∧
  Evaluate.s_predicted_count s = Evaluate.s_predicted_count s1 + Evaluate.s_predicted_count s2.

(** A rate between 0 and 1. *)
Definition unit_rate (n : number) : Prop :=
  ∃ q, num_eq n (Num q) ∧ (0 <= q <= 1)%Q.

Definition unit_rates (m : TagMetrics) : Prop :=
  unit_rate (precision m) ∧ unit_rate (recall m) ∧ unit_rate (f1_score m).

(** Counters that no subtraction has made negative. *)
Definition stats_sound (s : Evaluate.TagStats) : Prop :=
  Evaluate.s_ground_truth_count s = Evaluate.s_true_positives s + Evaluate.s_false_negatives s ∧
  Evaluate.s_predicted_count s = Evaluate.s_true_positives s + Evaluate.s_false_positives s ∧
  0 ≤ Evaluate.s_true_positives s ∧
  0 ≤ Evaluate.s_false_positives s ∧ 0 ≤ Evaluate.s_false_negatives s.

Definition counts_sound (m : TagMetrics) : Prop :=
  Reference.consistent_counts m ∧ 0 ≤ true_positives m.

(** The lines written to standard output: the arguments of the
    [console.log] calls, in order. *)
Definition stdout (out : list Evaluate.console_call) : list string :=
  omap (λ c, match c with Evaluate.console_log s => Some s | _ => None end) out.

(** The host [h] with another listing of the ground-truth folder. *)
Definition with_listing (h : Evaluate.Host) (gtFiles : list string) : Evaluate.Host :=
  {| Evaluate.path_extname := Evaluate.path_extname h;
     Evaluate.path_join := Evaluate.path_join h;
     Evaluate.fs_readdir := λ _, Evaluate.Ok gtFiles;
     Evaluate.fs_readFile := Evaluate.fs_readFile h;
     Evaluate.JSON_parse := Evaluate.JSON_parse h;
     Evaluate.String_of := Evaluate.String_of h;
     Evaluate.toFixed := Evaluate.toFixed h |}.

(** The line printed when no pair was evaluated. *)
Definition no_data : string := "No matching file pairs found to evaluate.".

(** A manual label as the canvas makes them: one of the four tags and a box
    of finite corners that is more than 10 wide and more than 10 high. *)
Definition well_drawn (l : DataExport.BoundingBox) : Prop :=
  DataExport.type l = DataExport.manual ∧
  DataExport.tag l ∈ UI_TAGS ∧
  ∃ a1 a2 a3 a4, DataExport.bbox l = qbox a1 a2 a3 a4 ∧ (a1 + 10 < a3)%Q ∧ (a2 + 10 < a4)%Q.

(** The rectangle being drawn has finite sides and a finite start point. *)
Definition drawing_finite (st : LabelingCanvas.state) : Prop :=
  ∀ d r, LabelingCanvas.session st = Some d → LabelingCanvas.rect d = Some r →
    ∃ l t w h dt sx sy,
      LabelingCanvas.heap st !! r =
        Some (LabelingCanvas.Build_Rect (Num l) (Num t) (Num w) (Num h) dt) ∧
      LabelingCanvas.startX d = Num sx ∧ LabelingCanvas.startY d = Num sy.

(** How often [Draw Box] was pressed. *)
Fixpoint count_start (actions : list LabelingCanvas.action) : nat :=
  match actions with
  | [] => 0
  | LabelingCanvas.StartDrawing :: rest => S (count_start rest)
  | _ :: rest => count_start rest
  end.

(** 1 while a drawing is under way ([isDrawing]), 0 otherwise. *)
Definition busy (st : LabelingCanvas.state) : nat :=
  match LabelingCanvas.session st with Some _ => 1 | None => 0 end.

(** The times of the presses: the [Date.now()] of each [mouse:down]. *)
Definition timestamps (actions : list LabelingCanvas.action) : list Z :=
  omap (λ a, match a with LabelingCanvas.MouseDown _ _ now => Some now | _ => None end)
    actions.

(** A drag: a press at [(px, py)], moves through [moves] and then to
    [(qx, qy)], and the release. *)
Definition drag (px py : Q) (now : Z) (moves : list (Q * Q)) (qx qy : Q)
    : list LabelingCanvas.action :=
  LabelingCanvas.MouseDown px py now
  :: ((λ p, LabelingCanvas.MouseMove p.1 p.2) <$> moves)
  ++ [LabelingCanvas.MouseMove qx qy; LabelingCanvas.MouseUp].

(** [`manual-${Date.now()}`] *)
Definition manual_id (now : Z) : string := "manual-" +:+ pretty now.

(** The ids in use are those of presses seen so far, no two labels share
    one, and the rectangle being drawn carries an id of its own. *)
Definition ids_fresh (seen : list Z) (st : LabelingCanvas.state) : Prop :=
  (∀ l, l ∈ LabelingCanvas.labels st → ∃ n, n ∈ seen ∧ DataExport.id l = manual_id n) ∧
  NoDup (DataExport.id <$> LabelingCanvas.labels st) ∧
  (∀ d r, LabelingCanvas.session st = Some d → LabelingCanvas.rect d = Some r →
     ∃ drawn n, LabelingCanvas.heap st !! r = Some drawn ∧
       LabelingCanvas.data_id (LabelingCanvas.data drawn) = manual_id n ∧
       n ∈ seen ∧ manual_id n ∉ DataExport.id <$> LabelingCanvas.labels st).

(** A mock prediction as the demo promises them: one of the four tags, a
    corner in the 600 by 400 area, a width from 50 up to 200 and a height from
    30 up to 80. *)
Definition mock_shaped (p : LLMPredictor.prediction) : Prop :=
  LLMPredictor.type p = DataExport.predicted ∧
  ∃ t a1 a2 a3 a4,
    LLMPredictor.tag p = Some t ∧ t ∈ UI_TAGS ∧
    LLMPredictor.bbox p = qbox a1 a2 a3 a4 ∧
    (0 <= a1 < 600 ∧ 0 <= a2 < 400 ∧ 50 <= a3 - a1 < 200 ∧ 30 <= a4 - a2 < 80)%Q.

(** A mock prediction: one of the four tags, a first corner within the 600
    by 400 area, and a second corner beyond it within 800 by 480. *)
Definition mock_bounded (p : LLMPredictor.prediction) : Prop :=
  LLMPredictor.type p = DataExport.predicted ∧
  ∃ t a1 a2 a3 a4,
    LLMPredictor.tag p = Some t ∧ t ∈ UI_TAGS ∧
    LLMPredictor.bbox p = qbox a1 a2 a3 a4 ∧
    (0 <= a1 <= 600 ∧ 0 <= a2 <= 400 ∧ a1 < a3 <= 800 ∧ a2 < a4 <= 480)%Q.

(** The invariant of a match outcome, on an entry in binary64. *)
Definition consistent_entry (m : Js.TagMetrics) : Prop :=
  Js.ground_truth_count m = Js.true_positives m + Js.false_negatives m ∧
  Js.predicted_count m = Js.true_positives m + Js.false_positives m ∧
  0 ≤ Js.true_positives m ∧
  Js.true_positives m ≤ Z.min (Js.ground_truth_count m) (Js.predicted_count m).

(** The [labels] of a document is an array. *)
Definition labels_array (v : Js.json) : Prop :=
  ∃ members items, v = Js.JObject members ∧ obj_get "labels" members = Some (Js.JArray items).

(** * Proofs *)

(** ** Numbers *)

Lemma Math_max_Num a b : Math_max (Num a) (Num b) = Num (qmax a b).
Proof. unfold Math_max, qmax; simpl. by destruct (a ?= b)%Q. Qed.

Lemma Math_min_Num a b : Math_min (Num a) (Num b) = Num (qmin a b).
Proof. unfold Math_min, qmin; simpl. by destruct (a ?= b)%Q. Qed.

Lemma qmax_spec a b : (a <= qmax a b ∧ b <= qmax a b ∧ (qmax a b == a ∨ qmax a b == b))%Q.
Proof.
  unfold qmax. destruct (a ?= b)%Q eqn:E.
  - apply Qeq_alt in E. repeat split; [lra | lra | left; reflexivity].
  - apply Qlt_alt in E. repeat split; [lra | lra | right; reflexivity].
  - apply Qgt_alt in E. repeat split; [lra | lra | left; reflexivity].
Qed.

Lemma qmin_spec a b : (qmin a b <= a ∧ qmin a b <= b ∧ (qmin a b == a ∨ qmin a b == b))%Q.
Proof.
  unfold qmin. destruct (a ?= b)%Q eqn:E.
  - apply Qeq_alt in E. repeat split; [lra | lra | left; reflexivity].
  - apply Qlt_alt in E. repeat split; [lra | lra | left; reflexivity].
  - apply Qgt_alt in E. repeat split; [lra | lra | right; reflexivity].
Qed.

Lemma js_gt_Num a b : js_gt (Num a) (Num b) = true ↔ (b < a)%Q.
Proof.
  unfold js_gt; simpl. rewrite Qgt_alt. by destruct (a ?= b)%Q.
Qed.

Lemma js_ge_Num a b : js_ge (Num a) (Num b) = true ↔ (b <= a)%Q.
Proof.
  unfold js_ge; simpl. rewrite (Qle_alt b a).
  rewrite <- (Qcompare_antisym a b). destruct (a ?= b)%Q; simpl; split; congruence.
Qed.

Lemma js_gt_Num_false a b : js_gt (Num a) (Num b) = false ↔ (a <= b)%Q.
Proof.
  rewrite <- not_true_iff_false, js_gt_Num. split; [apply Qnot_lt_le | apply Qle_not_lt].
Qed.

Lemma js_ge_Num_false a b : js_ge (Num a) (Num b) = false ↔ (a < b)%Q.
Proof.
  rewrite <- not_true_iff_false, js_ge_Num. split; [apply Qnot_le_lt | apply Qlt_not_le].
Qed.

Lemma num_eq_refl a : num_eq a a.
Proof. destruct a; simpl; [reflexivity | done..]. Qed.

Lemma Qsign_inject_Z_pos d : 0 < d → Qsign (inject_Z d) = Gt.
Proof.
  intros Hd. unfold Qsign. apply Qgt_alt. change 0%Q with (inject_Z 0).
  rewrite <- Zlt_Qlt. lia.
Qed.

Lemma js_div_of_Z n d : 0 < d → js_div (of_Z n) (of_Z d) = Num (inject_Z n / inject_Z d).
Proof. intros Hd. unfold js_div, of_Z. by rewrite Qsign_inject_Z_pos. Qed.

(** ** Objects *)

Lemma obj_get_fmap {V} (f : string → V) (ts : list string) (t : string) :
  obj_get t ((λ t, (t, f t)) <$> ts) = if decide (t ∈ ts) then Some (f t) else None.
Proof.
  induction ts as [|t0 ts IH]; csimpl; [done|].
  destruct (decide (t0 = t)) as [-> | Hne].
  - by rewrite decide_True by apply list_elem_of_here.
  - rewrite IH. destruct (decide (t ∈ ts)) as [Hin | Hout].
    + by rewrite decide_True by apply list_elem_of_further, Hin.
    + rewrite decide_False; [done|]. by intros [-> | ?]%elem_of_cons.
Qed.

Lemma obj_get_set_eq {V} (k : string) (v : V) (o : object V) :
  obj_get k (obj_set k v o) = Some v.
Proof.
  induction o as [|[k' v'] o IH]; simpl.
  - by rewrite decide_True.
  - destruct (decide (k' = k)) as [-> | Hne]; simpl.
    + by rewrite decide_True.
    + by rewrite decide_False.
Qed.

Lemma obj_get_set_ne {V} (k k' : string) (v : V) (o : object V) :
  k ≠ k' → obj_get k' (obj_set k v o) = obj_get k' o.
Proof.
  intros Hne. induction o as [|[k0 v0] o IH]; simpl.
  - by rewrite decide_False.
  - destruct (decide (k0 = k)) as [-> | Hne0]; simpl.
    + by rewrite !decide_False.
    + by rewrite IH.
Qed.

(** ** The geometry primitive *)

Lemma inter_le (w h wa ha : Q) : (0 <= w -> 0 <= h -> w <= wa -> h <= ha -> w * h <= wa * ha)%Q.
Proof. intros. nra. Qed.

Lemma areas_finite (a1 a2 a3 a4 b1 b2 b3 b4 : Q) :
  let w := qmax 0 (qmin a3 b3 + - qmax a1 b1)%Q in
  let h := qmax 0 (qmin a4 b4 + - qmax a2 b2)%Q in
  interArea (qbox a1 a2 a3 a4) (qbox b1 b2 b3 b4) = Num (w * h)%Q ∧
  unionArea (qbox a1 a2 a3 a4) (qbox b1 b2 b3 b4) =
    Num ((a3 + - a1) * (a4 + - a2) + (b3 + - b1) * (b4 + - b2) + - (w * h))%Q.
Proof.
  intros w h. unfold unionArea, boxArea, interArea, qbox; simpl.
  rewrite !Math_max_Num, !Math_min_Num; simpl.
  rewrite !Math_max_Num. simpl. done.
Qed.

Lemma inter_union_bounds (a1 a2 a3 a4 b1 b2 b3 b4 : Q) :
  let w := qmax 0 (qmin a3 b3 + - qmax a1 b1)%Q in
  let h := qmax 0 (qmin a4 b4 + - qmax a2 b2)%Q in
  let i := (w * h)%Q in
  let u := ((a3 + - a1) * (a4 + - a2) + (b3 + - b1) * (b4 + - b2) + - i)%Q in
  (0 <= i)%Q ∧ (i == 0 ∨ (0 < i ∧ i <= u))%Q.
Proof.
  intros w h i u.
  destruct (qmax_spec 0 (qmin a3 b3 + - qmax a1 b1)) as (Hw0 & Hw1 & Hw).
  destruct (qmax_spec 0 (qmin a4 b4 + - qmax a2 b2)) as (Hh0 & Hh1 & Hh).
  destruct (qmin_spec a3 b3) as (Hx3a & Hx3b & _).
  destruct (qmin_spec a4 b4) as (Hy4a & Hy4b & _).
  destruct (qmax_spec a1 b1) as (Hx1a & Hx1b & _).
  destruct (qmax_spec a2 b2) as (Hy2a & Hy2b & _).
  fold w in Hw0, Hw1, Hw. fold h in Hh0, Hh1, Hh.
  split; [subst i; nra|].
  destruct Hw as [Hw | Hw]; [left; subst i; rewrite Hw; ring|].
  destruct Hh as [Hh | Hh]; [left; subst i; rewrite Hh; ring|].
  destruct (Qlt_le_dec 0 w) as [Hwp | Hwn]; [|left; subst i; assert (Hz : (w == 0)%Q) by lra; rewrite Hz; ring].
  destruct (Qlt_le_dec 0 h) as [Hhp | Hhn]; [|left; subst i; assert (Hz : (h == 0)%Q) by lra; rewrite Hz; ring].
  right. split; [subst i; nra|].
  assert (i <= (a3 + - a1) * (a4 + - a2))%Q.
  { subst i. apply inter_le; lra. }
  assert (i <= (b3 + - b1) * (b4 + - b2))%Q.
  { subst i. apply inter_le; lra. }
  subst u. lra.
Qed.

Lemma calculateIoU_qbox (a1 a2 a3 a4 b1 b2 b3 b4 : Q) :
  ∃ q, Evaluate.calculateIoU (qbox a1 a2 a3 a4) (qbox b1 b2 b3 b4) = Num q ∧ (0 <= q <= 1)%Q.
Proof.
  unfold Evaluate.calculateIoU.
  destruct (areas_finite a1 a2 a3 a4 b1 b2 b3 b4) as [-> ->].
  destruct (inter_union_bounds a1 a2 a3 a4 b1 b2 b3 b4) as [Hi Hiu].
  cbv zeta in *.
  set (i := (qmax 0 _ * qmax 0 _)%Q) in *.
  set (u := (_ + - i)%Q) in *.
  unfold js_eq, js_div, js_compare, Qsign.
  destruct (u ?= 0)%Q eqn:E.
  - exists 0%Q. split; [done | lra].
  - apply Qlt_alt in E. exists (i / u)%Q. split; [done|].
    destruct Hiu as [Hz | [Hp Hle]]; [|lra].
    rewrite Hz. unfold Qdiv. split; [ring_simplify; lra | ring_simplify; lra].
  - apply Qgt_alt in E. exists (i / u)%Q. split; [done|].
    destruct Hiu as [Hz | [Hp Hle]].
    + rewrite Hz. unfold Qdiv. split; [ring_simplify; lra | ring_simplify; lra].
    + split.
      * apply Qle_shift_div_l; lra.
      * apply Qle_shift_div_r; lra.
Qed.

Lemma finite_box_qbox (b : box) :
  finite_box b → ∃ a1 a2 a3 a4, b = qbox a1 a2 a3 a4.
Proof.
  destruct b as [[] [] [] []]; intros (H1 & H2 & H3 & H4); try done.
  by eexists _, _, _, _.
Qed.

(** On finite boxes the batch evaluator's IoU is a rational between 0 and 1,
    whatever the order of the coordinates. *)
Lemma calculateIoU_finite (a b : box) :
  finite_box a → finite_box b →
  ∃ q, Evaluate.calculateIoU a b = Num q ∧ (0 <= q <= 1)%Q.
Proof.
  intros (a1 & a2 & a3 & a4 & ->)%finite_box_qbox (b1 & b2 & b3 & b4 & ->)%finite_box_qbox.
  apply calculateIoU_qbox.
Qed.

Lemma export_calculateIoU_unfold a b :
  DataExport.calculateIoU a b = js_div (interArea a b) (unionArea a b).
Proof. reflexivity. Qed.



(** ** The matcher of the batch evaluator *)

Lemma forEach_unmatched m g preds : ∀ i st,
  forEach (Evaluate.scan_pred m g) i preds st = fold_left (pick g) (unmatched m i preds) st.
Proof.
  induction preds as [|p l IH]; intros i st; simpl; [done|].
  unfold Evaluate.scan_pred at 2. destruct (decide (i ∈ m)); simpl; by rewrite IH.
Qed.

Lemma unmatched_bounds m l : ∀ i j p, (j, p) ∈ unmatched m i l → i ≤ j ∧ j ∉ m.
Proof.
  induction l as [|p0 l IH]; intros i j p; simpl; [by intros ?%elem_of_nil|].
  destruct (decide (i ∈ m)).
  - intros [??]%IH. split; [lia | done].
  - intros [[= -> ->] | [??]%IH]%elem_of_cons; (split; [lia | done]).
Qed.

Lemma unmatched_elem m l : ∀ i j p, (j, p) ∈ unmatched m i l → p ∈ l.
Proof.
  induction l as [|p0 l IH]; intros i j p; simpl; [by intros ?%elem_of_nil|].
  destruct (decide (i ∈ m)).
  - intros H%IH. set_solver.
  - intros [[= -> ->] | H%IH]%elem_of_cons; set_solver.
Qed.

Lemma unmatched_below m l : ∀ i j, j < i → unmatched ({[j]} ∪ m) i l = unmatched m i l.
Proof.
  induction l as [|p0 l IH]; intros i j Hj; simpl; [done|].
  rewrite IH by lia.
  destruct (decide (i ∈ m)) as [Hi | Hi].
  - by rewrite decide_True by apply elem_of_union_r, Hi.
  - rewrite decide_False; [done|].
    intros [->%elem_of_singleton | ?]%elem_of_union; [lia | done].
Qed.

Lemma unmatched_insert m l : ∀ i k j p,
  unmatched m i l !! k = Some (j, p) →
  unmatched ({[j]} ∪ m) i l = delete k (unmatched m i l).
Proof.
  induction l as [|p0 l IH]; intros i k j p; simpl; [done|].
  destruct (decide (i ∈ m)) as [Hi | Hi].
  - intros H. rewrite decide_True by apply elem_of_union_r, Hi. by eapply IH.
  - destruct k as [|k]; simpl.
    + intros [= -> ->]. rewrite decide_True by apply elem_of_union_l, elem_of_singleton_2, eq_refl.
      apply unmatched_below. lia.
    + intros H.
      assert (i + 1 ≤ j) by (eapply unmatched_bounds, list_elem_of_lookup_2, H).
      rewrite decide_False.
      * f_equal. by eapply IH.
      * intros [->%elem_of_singleton | ?]%elem_of_union; [lia | done].
Qed.

Lemma unmatched_length_le m l : ∀ i, (length (unmatched m i l) ≤ length l)%nat.
Proof.
  induction l as [|p0 l IH]; intros i; simpl; [done|].
  destruct (decide (i ∈ m)); simpl; specialize (IH (i + 1)); lia.
Qed.

Lemma unmatched_empty l : ∀ i, candidate_boxes (unmatched ∅ i l) = Evaluate.bbox <$> l.
Proof.
  induction l as [|p0 l IH]; intros i; simpl; [done|].
  rewrite decide_False by set_solver. unfold candidate_boxes in *. simpl. by rewrite IH.
Qed.

(** The scan either keeps its initial state or stops on an unmatched index. *)
Lemma pick_result g U : ∀ st,
  fold_left (pick g) U st = st ∨
  ∃ k p, U !! k = Some ((fold_left (pick g) U st).2, p).
Proof.
  induction U as [|c U IH] using rev_ind; intros st; [by left|].
  rewrite fold_left_app; simpl. unfold pick at 1 3.
  destruct (js_gt _ _).
  - right. exists (length U), c.2. simpl.
    rewrite lookup_app_r by lia. rewrite Nat.sub_diag. by destruct c.
  - destruct (IH st) as [-> | (k & p & Hk)]; [by left|].
    right. exists k, p. by apply lookup_app_l_Some.
Qed.

Lemma match_gtBox_step preds st g :
  let st' := Evaluate.match_gtBox preds st g in
  (st' = st) ∨
  (st'.1 = st.1 + 1 ∧
   S (length (unmatched st'.2 0 preds)) = length (unmatched st.2 0 preds)).
Proof.
  destruct st as [tp m]. unfold Evaluate.match_gtBox, IOU_THRESHOLD; simpl.
  rewrite forEach_unmatched.
  destruct (pick_result g (unmatched m 0 preds) (Num 0, -1)) as [-> | (k & p & Hk)].
  - left. by rewrite (proj2 (js_ge_Num_false 0 (1 # 2))) by lra.
  - destruct (fold_left (pick g) (unmatched m 0 preds) (Num 0, -1)) as [b j].
    simpl in Hk. destruct (js_ge b (Num (1 # 2))); [right | by left]. simpl.
    split; [done|].
    rewrite (unmatched_insert _ _ _ _ _ _ Hk), length_delete by eauto.
    apply lookup_lt_Some in Hk. lia.
Qed.

Lemma match_boxes_bounds preds gts : ∀ st,
  let st' := fold_left (Evaluate.match_gtBox preds) gts st in
  st.1 ≤ st'.1 ≤ st.1 + Z.of_nat (length gts) ∧
  st'.1 + Z.of_nat (length (unmatched st'.2 0 preds)) =
    st.1 + Z.of_nat (length (unmatched st.2 0 preds)).
Proof.
  induction gts as [|g gts IH]; intros st; cbv zeta; simpl; [lia|].
  specialize (IH (Evaluate.match_gtBox preds st g)). cbv zeta in IH.
  pose proof (match_gtBox_step preds st g) as Hstep. cbv zeta in Hstep.
  destruct Hstep as [Hsame | [H1 H2]]; [rewrite !Hsame in IH |- *|]; lia.
Qed.

Lemma match_boxes_count gts preds :
  let tp := (Evaluate.match_boxes gts preds).1 in
  0 ≤ tp ∧ tp ≤ Z.of_nat (length gts) ∧ tp ≤ Z.of_nat (length preds).
Proof.
  pose proof (match_boxes_bounds preds gts (0, ∅)) as [H1 H2]. cbv zeta. simpl in *.
  fold (Evaluate.match_boxes gts preds) in *.
  assert (length (unmatched ∅ 0 preds) = length preds) as Hlen.
  { rewrite <- (length_fmap (λ c, Evaluate.bbox c.2)).
    fold (candidate_boxes (unmatched ∅ 0 preds)).
    by rewrite unmatched_empty, length_fmap. }
  rewrite Hlen in H2. lia.
Qed.

Lemma evaluateSingleFile_entries gtData predData :
  Evaluate.evaluateSingleFile gtData predData =
  (λ t, (t, Evaluate.evaluateTag gtData predData t)) <$> UI_TAGS.
Proof. reflexivity. Qed.

Lemma evaluateSingleFile_get gtData predData t :
  obj_get t (Evaluate.evaluateSingleFile gtData predData) =
  if decide (t ∈ UI_TAGS) then Some (Evaluate.evaluateTag gtData predData t) else None.
Proof. rewrite evaluateSingleFile_entries. apply obj_get_fmap. Qed.

(** ** The matcher of the interactive export *)

Lemma size_list_to_set_le (l : list string) :
  (size (list_to_set l : gset string) ≤ length l)%nat.
Proof.
  induction l as [|x l IH].
  - rewrite list_to_set_nil, size_empty. done.
  - rewrite list_to_set_cons, size_union_alt, size_singleton. simpl.
    assert (size (list_to_set l ∖ {[x]} : gset string) ≤ size (list_to_set l : gset string))%nat.
    { apply subseteq_size. intros y [Hy _]%elem_of_difference. exact Hy. }
    lia.
Qed.

(** The scan of the export either keeps its initial best match or stops on a
    ground-truth box whose id is not matched yet. *)
Lemma scan_gt_result m predBox gts : ∀ st,
  (fold_left (DataExport.scan_gt m predBox) gts st).2 = st.2 ∨
  ∃ bm, (fold_left (DataExport.scan_gt m predBox) gts st).2 = Some bm ∧
        bm ∈ gts ∧ DataExport.id bm ∉ m.
Proof.
  induction gts as [|g gts IH] using rev_ind; intros st; [by left|].
  rewrite fold_left_app; simpl. unfold DataExport.scan_gt at 1 3.
  destruct (decide (DataExport.id g ∈ m)) as [Hin | Hout].
  - destruct (IH st) as [? | (bm & ? & ? & ?)]; [by left|].
    right. exists bm. set_solver.
  - destruct (_ && _).
    + right. exists g. set_solver.
    + destruct (IH st) as [? | (bm & ? & ? & ?)]; [by left|].
      right. exists bm. set_solver.
Qed.

Lemma match_predBox_step gts st predBox :
  DataExport.truePositives st = Z.of_nat (size (DataExport.matchedGT st)) →
  DataExport.matchedGT st ⊆ list_to_set (DataExport.id <$> gts) →
  let st' := DataExport.match_predBox gts st predBox in
  DataExport.truePositives st' = Z.of_nat (size (DataExport.matchedGT st')) ∧
  DataExport.matchedGT st' ⊆ list_to_set (DataExport.id <$> gts) ∧
  DataExport.truePositives st ≤ DataExport.truePositives st' ≤ DataExport.truePositives st + 1.
Proof.
  intros Htp Hsub. cbv zeta. unfold DataExport.match_predBox.
  destruct (scan_gt_result (DataExport.matchedGT st) predBox gts (Num 0, None))
    as [-> | (bm & -> & Hbm & Hid)]; simpl.
  - split; [done|]. split; [done | lia].
  - split; [|split; [|lia]].
    + rewrite size_union, size_singleton by set_solver. lia.
    + apply union_subseteq. split; [|done].
      apply singleton_subseteq_l, elem_of_list_to_set, list_elem_of_fmap. eauto.
Qed.

Lemma export_match_boxes_bounds gts preds : ∀ st,
  DataExport.truePositives st = Z.of_nat (size (DataExport.matchedGT st)) →
  DataExport.matchedGT st ⊆ list_to_set (DataExport.id <$> gts) →
  let st' := fold_left (DataExport.match_predBox gts) preds st in
  DataExport.truePositives st' = Z.of_nat (size (DataExport.matchedGT st')) ∧
  DataExport.matchedGT st' ⊆ list_to_set (DataExport.id <$> gts) ∧
  DataExport.truePositives st ≤ DataExport.truePositives st'
    ≤ DataExport.truePositives st + Z.of_nat (length preds).
Proof.
  induction preds as [|p preds IH]; intros st Htp Hsub; cbv zeta; simpl.
  - split; [done|]. split; [done | lia].
  - pose proof (match_predBox_step gts st p Htp Hsub) as Hstep. cbv zeta in Hstep.
    destruct Hstep as (H1 & H2 & H3).
    specialize (IH _ H1 H2). cbv zeta in IH. destruct IH as (H4 & H5 & H6).
    split; [done|]. split; [done | lia].
Qed.

Lemma export_match_boxes_count gts preds :
  0 ≤ DataExport.truePositives (DataExport.match_boxes gts preds) ∧
  DataExport.truePositives (DataExport.match_boxes gts preds) ≤ Z.of_nat (length gts) ∧
  DataExport.truePositives (DataExport.match_boxes gts preds) ≤ Z.of_nat (length preds).
Proof.
  pose proof (export_match_boxes_bounds gts preds
    {| DataExport.truePositives := 0; DataExport.matchedGT := ∅; DataExport.matchedPred := ∅ |})
    as H.
  cbv zeta in H. fold (DataExport.match_boxes gts preds) in H.
  destruct H as (H1 & H2 & H3); [done | set_solver |]. simpl in H3.
  apply subseteq_size in H2.
  pose proof (size_list_to_set_le (DataExport.id <$> gts)) as H4.
  rewrite length_fmap in H4. lia.
Qed.

(** The entry of a category in the document written by the export. *)
Lemma generateEvaluation_get manualLabels predictedLabels imageName ev t :
  DataExport.generateEvaluation manualLabels predictedLabels imageName = Some ev →
  t ∈ DataExport.tags →
  obj_get t (DataExport.summary ev) =
    Some (DataExport.store (DataExport.computeTag manualLabels predictedLabels t)).
Proof.
  unfold DataExport.generateEvaluation. destruct (_ || _); [done|].
  intros [= <-] Ht.
  unfold DataExport.tags in Ht. set_unfold in Ht.
  destruct Ht as [-> | [-> | [-> | [-> | []]]]]; reflexivity.
Qed.

(** ** The invariant of a match outcome *)

Lemma evaluateTag_consistent gtData predData t :
  Reference.consistent_counts (Evaluate.evaluateTag gtData predData t).
Proof.
  unfold Reference.consistent_counts; simpl.
  pose proof (match_boxes_count
    (filter (λ l, Evaluate.tag l = t) (Evaluate.labels gtData))
    (filter (λ l, Evaluate.tag l = t) (Evaluate.labels predData))).
  cbv zeta in *. lia.
Qed.

Lemma computeTag_consistent manualLabels predictedLabels t :
  Reference.consistent_counts
    (DataExport.store (DataExport.computeTag manualLabels predictedLabels t)).
Proof.
  unfold Reference.consistent_counts; simpl.
  pose proof (export_match_boxes_count
    (filter (λ l, DataExport.tag l = t) manualLabels)
    (filter (λ l, DataExport.tag l = t) predictedLabels)).
  lia.
Qed.

(** C3: in the batch evaluator and in the interactive export alike, the
    entry of every category satisfies
    [ground_truth_count = true_positives + false_negatives],
    [predicted_count = true_positives + false_positives] and
    [true_positives <= min(ground_truth_count, predicted_count)], so that
    neither the false positives nor the false negatives are negative. *)
Theorem match_outcome_counts_consistent :
  (∀ gtData predData t m,
     obj_get t (Evaluate.evaluateSingleFile gtData predData) = Some m →
     Reference.consistent_counts m) ∧
  (∀ manualLabels predictedLabels imageName ev t m,
     DataExport.generateEvaluation manualLabels predictedLabels imageName = Some ev →
     t ∈ DataExport.tags →
     obj_get t (DataExport.summary ev) = Some m →
     Reference.consistent_counts m).
Proof.
  split.
  - intros gtData predData t m. rewrite evaluateSingleFile_get.
    destruct (decide (t ∈ UI_TAGS)); [|done].
    intros [= <-]. apply evaluateTag_consistent.
  - intros manualLabels predictedLabels imageName ev t m Hev Ht.
    rewrite (generateEvaluation_get _ _ _ _ _ Hev Ht).
    intros [= <-]. apply computeTag_consistent.
Qed.

Lemma match_outcome_counts_consistent_witness :
  Reference.consistent_counts
    (Evaluate.evaluateTag (Samples.doc Samples.crossed_manual)
       (Samples.doc Samples.crossed_predicted) "Button") ∧
  Reference.consistent_counts
    (DataExport.store
       (DataExport.computeTag Samples.crossed_manual Samples.crossed_predicted "Button")).
Proof.
  split.
  - apply (proj1 match_outcome_counts_consistent (Samples.doc Samples.crossed_manual)
             (Samples.doc Samples.crossed_predicted) "Button"). reflexivity.
  - eapply (proj2 match_outcome_counts_consistent Samples.crossed_manual
              Samples.crossed_predicted "sample.png" _ "Button").
    + reflexivity.
    + by apply (bool_decide_unpack _).
    + reflexivity.
Defined.

(** ** The rates *)

Lemma precision_of_spec tp fp :
  Evaluate.precision_of tp fp = Num (Reference.precision_spec tp fp).
Proof.
  unfold Evaluate.precision_of, Reference.precision_spec.
  destruct (0 <? tp + fp) eqn:E; [|done].
  apply js_div_of_Z. lia.
Qed.

Lemma recall_of_spec tp fn :
  Evaluate.recall_of tp fn = Num (Reference.recall_spec tp fn).
Proof.
  unfold Evaluate.recall_of, Reference.recall_spec.
  destruct (0 <? tp + fn) eqn:E; [|done].
  apply js_div_of_Z. lia.
Qed.

Lemma f1_of_spec p r :
  num_eq (Evaluate.f1_of (Num p) (Num r)) (Num (Reference.f1_spec p r)).
Proof.
  unfold Evaluate.f1_of, Reference.f1_spec; simpl.
  unfold js_gt; simpl. rewrite <- (Qcompare_antisym 0 (p + r)).
  destruct (0 ?= p + r)%Q eqn:E; simpl; try reflexivity.
  unfold Qsign. rewrite <- (Qcompare_antisym 0 (p + r)), E. simpl.
  unfold Qdiv. ring.
Qed.

Lemma evaluateTag_rates gtData predData t :
  Reference.rates_of_counts (Evaluate.evaluateTag gtData predData t).
Proof.
  unfold Reference.rates_of_counts; simpl.
  rewrite ?precision_of_spec, ?recall_of_spec.
  split; [apply num_eq_refl|]. split; [apply num_eq_refl|]. apply f1_of_spec.
Qed.

Lemma with_rates_rates stats : Reference.rates_of_counts (Evaluate.with_rates stats).
Proof.
  unfold Reference.rates_of_counts; simpl.
  rewrite ?precision_of_spec, ?recall_of_spec.
  split; [apply num_eq_refl|]. split; [apply num_eq_refl|]. apply f1_of_spec.
Qed.

Lemma aggregateTags_entries allMetrics :
  Evaluate.aggregateTags allMetrics =
  (λ t, (t, Evaluate.with_rates (Evaluate.sum_tag t allMetrics))) <$> UI_TAGS.
Proof. reflexivity. Qed.

(** Every entry of the aggregate report is a record of summed counters with
    the rates computed from them. *)
Lemma aggregateResults_get allMetrics t m :
  obj_get t (Evaluate.aggregateResults allMetrics) = Some m →
  ∃ stats, m = Evaluate.with_rates stats.
Proof.
  unfold Evaluate.aggregateResults.
  destruct (decide ("Overall"%string = t)) as [<- | Hne].
  - rewrite obj_get_set_eq. intros [= <-]. eauto.
  - rewrite obj_get_set_ne, aggregateTags_entries, obj_get_fmap by done.
    destruct (decide (t ∈ UI_TAGS)); [|done]. intros [= <-]. eauto.
Qed.

(** ** The aggregate report *)

Lemma aggregateResults_get_tag allMetrics t :
  t ∈ UI_TAGS →
  obj_get t (Evaluate.aggregateResults allMetrics) =
    Some (Evaluate.with_rates (Evaluate.sum_tag t allMetrics)).
Proof.
  intros Ht. unfold Evaluate.aggregateResults.
  rewrite obj_get_set_ne, aggregateTags_entries, obj_get_fmap, decide_True; [done..|].
  intros <-. revert Ht. by apply (bool_decide_unpack (¬ _)).
Qed.

(** In the batch report the counters of [Overall] are the sums of the
    counters of the four categories, and its rates are computed from these
    sums. *)
Lemma aggregateResults_overall allMetrics :
  ∃ o, obj_get "Overall" (Evaluate.aggregateResults allMetrics) = Some o ∧
    true_positives o = category_total true_positives (Evaluate.aggregateResults allMetrics) ∧
    false_positives o = category_total false_positives (Evaluate.aggregateResults allMetrics) ∧
    false_negatives o = category_total false_negatives (Evaluate.aggregateResults allMetrics) ∧
    ground_truth_count o =
      category_total ground_truth_count (Evaluate.aggregateResults allMetrics) ∧
    predicted_count o = category_total predicted_count (Evaluate.aggregateResults allMetrics) ∧
    Reference.rates_of_counts o.
Proof.
  eexists. split; [apply obj_get_set_eq|].
  unfold category_total, UI_TAGS. cbn [foldr].
  rewrite !aggregateResults_get_tag by (by apply (bool_decide_unpack _)).
  repeat split; try apply with_rates_rates;
    rewrite aggregateTags_entries; simpl; lia.
Qed.

(** C5: in the report of the interactive export for one drawn button and two
    predictions, a button and a label tagged Checkbox, the entry [overall]
    has [predicted_count = 2] although the predicted counts of the four
    categories sum to 1 (and [true_positives + false_positives = 1]). *)
Theorem export_overall_counts_stray_tag :
  ∃ ev o,
    DataExport.generateEvaluation Samples.stray_manual Samples.stray_predicted
      "sample.png" = Some ev ∧
    obj_get "overall" (DataExport.summary ev) = Some o ∧
    predicted_count o = 2 ∧
    category_total predicted_count (DataExport.summary ev) = 1 ∧
    true_positives o + false_positives o = 1.
Proof. eexists _, _. repeat split; reflexivity. Qed.

Lemma add_stats_comm acc m m' :
  Evaluate.add_stats (Evaluate.add_stats acc m) m' =
  Evaluate.add_stats (Evaluate.add_stats acc m') m.
Proof. unfold Evaluate.add_stats; simpl. f_equal; lia. Qed.

Lemma tally_comm t acc x y : tally t (tally t acc x) y = tally t (tally t acc y) x.
Proof.
  unfold tally. destruct (obj_get t x), (obj_get t y); try done. apply add_stats_comm.
Qed.

Lemma fold_tally_perm t l l' :
  l ≡ₚ l' → ∀ acc, fold_left (tally t) l acc = fold_left (tally t) l' acc.
Proof.
  induction 1 as [|x l l' _ IH|x y l|l l' l'' _ IH1 _ IH2]; intros acc; simpl.
  - done.
  - apply IH.
  - by rewrite tally_comm.
  - by rewrite IH1.
Qed.

Lemma sum_tag_perm t l l' : l ≡ₚ l' → Evaluate.sum_tag t l = Evaluate.sum_tag t l'.
Proof. intros H. apply (fold_tally_perm t l l' H). Qed.

(** C6: aggregating any permutation of a list of per-image metrics gives the
    same report, counters and rates alike. *)
Theorem aggregateResults_permutation (allMetrics shuffled : list (object TagMetrics)) :
  allMetrics ≡ₚ shuffled →
  Evaluate.aggregateResults allMetrics = Evaluate.aggregateResults shuffled.
Proof.
  intros Hperm. unfold Evaluate.aggregateResults.
  assert (Evaluate.aggregateTags allMetrics = Evaluate.aggregateTags shuffled) as ->; [|done].
  rewrite !aggregateTags_entries. apply list_fmap_ext. intros _ t _.
  by rewrite (sum_tag_perm t _ _ Hperm).
Qed.

Lemma aggregateResults_permutation_witness :
  Evaluate.aggregateResults
    [Evaluate.evaluateSingleFile (Samples.doc Samples.crossed_manual)
       (Samples.doc Samples.crossed_predicted);
     Evaluate.evaluateSingleFile (Samples.doc Samples.thirds_manual)
       (Samples.doc Samples.thirds_predicted)] =
  Evaluate.aggregateResults
    [Evaluate.evaluateSingleFile (Samples.doc Samples.thirds_manual)
       (Samples.doc Samples.thirds_predicted);
     Evaluate.evaluateSingleFile (Samples.doc Samples.crossed_manual)
       (Samples.doc Samples.crossed_predicted)].
Proof. apply aggregateResults_permutation. apply perm_swap. Defined.

(** ** The two directions of matching *)

(** C7: for two drawn buttons and two predicted buttons the interactive
    export, which takes the predictions first, finds two true positives and
    the batch evaluator, which takes the ground truths first, finds one, on the
    very documents the export downloads. *)
Theorem matching_directions_differ :
  ∃ manualLabels predictedLabels gtData predData ev mExport mBatch,
    Forall (λ l, DataExport.tag l = "Button"%string) (manualLabels ++ predictedLabels) ∧
    DataExport.exportGroundTruth manualLabels "sample.png" = Some gtData ∧
    DataExport.exportPredictions predictedLabels "sample.png" = Some predData ∧
    DataExport.generateEvaluation manualLabels predictedLabels "sample.png" = Some ev ∧
    obj_get "Button" (DataExport.summary ev) = Some mExport ∧
    obj_get "Button" (Evaluate.evaluateSingleFile gtData predData) = Some mBatch ∧
    true_positives mExport = 2 ∧
    true_positives mBatch = 1.
Proof.
  exists Samples.crossed_manual, Samples.crossed_predicted.
  eexists _, _, _, _, _.
  split; [repeat constructor|].
  repeat split; reflexivity.
Qed.

(** ** Labels of other categories *)

Lemma filter_tag_recognized (t : string) (ls : list Evaluate.label) :
  t ∈ UI_TAGS →
  filter (λ l, Evaluate.tag l = t) (filter recognized ls) =
  filter (λ l, Evaluate.tag l = t) ls.
Proof.
  intros Ht. rewrite list_filter_filter. apply list_filter_iff.
  intros l. unfold recognized. split; [by intros [? _] | intros ->; done].
Qed.

Lemma evaluateTag_recognized gtData predData gtData' predData' t :
  t ∈ UI_TAGS →
  filter recognized (Evaluate.labels gtData) = filter recognized (Evaluate.labels gtData') →
  filter recognized (Evaluate.labels predData) = filter recognized (Evaluate.labels predData') →
  Evaluate.evaluateTag gtData predData t = Evaluate.evaluateTag gtData' predData' t.
Proof.
  intros Ht Hg Hp. unfold Evaluate.evaluateTag.
  rewrite <- (filter_tag_recognized t (Evaluate.labels gtData)) by done.
  rewrite <- (filter_tag_recognized t (Evaluate.labels predData)) by done.
  rewrite Hg, Hp, !filter_tag_recognized by done. done.
Qed.

(** Two pairs of documents that agree on their labels of the four categories
    get the same metrics. *)
Lemma evaluateSingleFile_recognized gtData predData gtData' predData' :
  filter recognized (Evaluate.labels gtData) = filter recognized (Evaluate.labels gtData') →
  filter recognized (Evaluate.labels predData) = filter recognized (Evaluate.labels predData') →
  Evaluate.evaluateSingleFile gtData predData = Evaluate.evaluateSingleFile gtData' predData'.
Proof.
  intros Hg Hp. rewrite !evaluateSingleFile_entries.
  apply list_fmap_ext. intros _ t Ht%list_elem_of_lookup_2.
  f_equal. by apply evaluateTag_recognized.
Qed.

Lemma filter_recognized_stray (l : Evaluate.label) (before after : list Evaluate.label) :
  ¬ recognized l →
  filter recognized (before ++ l :: after) = filter recognized (before ++ after).
Proof.
  intros Hl. rewrite !filter_app, filter_cons_False by done. done.
Qed.

(** C10: a label whose tag is none of Button, Input, Radio, Dropdown, put
    anywhere in the ground-truth list, in the prediction list or in both,
    changes nothing in the output of [evaluateSingleFile]: every counter and
    every rate of every category is the same with and without it. *)
Theorem unrecognized_tags_ignored (name name' : string)
    (gtBefore gtAfter predBefore predAfter : list Evaluate.label)
    (strayGt strayPred : Evaluate.label) :
  Evaluate.tag strayGt ∉ UI_TAGS →
  Evaluate.tag strayPred ∉ UI_TAGS →
  let plain :=
    Evaluate.evaluateSingleFile (Evaluate.Document name (gtBefore ++ gtAfter))
      (Evaluate.Document name' (predBefore ++ predAfter)) in
  Evaluate.evaluateSingleFile (Evaluate.Document name (gtBefore ++ strayGt :: gtAfter))
    (Evaluate.Document name' (predBefore ++ predAfter)) = plain ∧
  Evaluate.evaluateSingleFile (Evaluate.Document name (gtBefore ++ gtAfter))
    (Evaluate.Document name' (predBefore ++ strayPred :: predAfter)) = plain ∧
  Evaluate.evaluateSingleFile (Evaluate.Document name (gtBefore ++ strayGt :: gtAfter))
    (Evaluate.Document name' (predBefore ++ strayPred :: predAfter)) = plain.
Proof.
  intros Hg Hp plain. subst plain.
  repeat split; apply evaluateSingleFile_recognized; simpl;
    by rewrite ?filter_recognized_stray.
Qed.

Lemma unrecognized_tags_ignored_witness :
  let stray := Evaluate.Label "Checkbox" (qbox 0 0 100 100) in
  let gt := DataExport.export_labels Samples.thirds_manual in
  let pred := DataExport.export_labels Samples.thirds_predicted in
  let plain :=
    Evaluate.evaluateSingleFile (Evaluate.Document "a.png" (gt ++ []))
      (Evaluate.Document "a.png" ([] ++ pred)) in
  (Evaluate.tag stray ∉ UI_TAGS) ∧
  Evaluate.evaluateSingleFile (Evaluate.Document "a.png" (gt ++ stray :: []))
    (Evaluate.Document "a.png" ([] ++ pred)) = plain ∧
  Evaluate.evaluateSingleFile (Evaluate.Document "a.png" (gt ++ []))
    (Evaluate.Document "a.png" ([] ++ stray :: pred)) = plain ∧
  Evaluate.evaluateSingleFile (Evaluate.Document "a.png" (gt ++ stray :: []))
    (Evaluate.Document "a.png" ([] ++ stray :: pred)) = plain.
Proof.
  intros stray gt pred plain.
  assert (Hstray : Evaluate.tag stray ∉ UI_TAGS) by (by apply (bool_decide_unpack _)).
  split; [exact Hstray|].
  exact (unrecognized_tags_ignored "a.png" "a.png" gt [] [] pred stray stray Hstray Hstray).
Defined.

(** ** The batch driver *)

Section Driver.

Variable h : Evaluate.Host.
Variables gtFolder predFolder : string.

Lemma load_pair_loaded file :
  Evaluate.path_extname h file = ".json"%string →
  match Evaluate.load_pair h gtFolder predFolder file with
  | Evaluate.Ok fileMetrics =>
      ∃ pair, loaded h gtFolder predFolder file = Some pair ∧ fileMetrics = evaluate_pair pair
  | Evaluate.Throw _ => loaded h gtFolder predFolder file = None
  end.
Proof.
  intros Hext. unfold Evaluate.load_pair, loaded. rewrite decide_True by done.
  destruct (Evaluate.fs_readFile h (Evaluate.path_join h gtFolder file)) as [gtContent|]; [|done].
  destruct (Evaluate.fs_readFile h (Evaluate.path_join h predFolder file)) as [predContent|];
    [|done].
  simpl.
  destruct (Evaluate.JSON_parse h gtContent) as [gtData|]; [|done].
  destruct (Evaluate.JSON_parse h predContent) as [predData|]; [|done].
  simpl. eauto.
Qed.

Lemma process_files files : ∀ out allMetrics,
  fold_left (Evaluate.process_file h gtFolder predFolder) files (out, allMetrics) =
  (out ++ flat_map (complaint h gtFolder predFolder) files,
   allMetrics ++ (evaluate_pair <$> omap (loaded h gtFolder predFolder) files)).
Proof.
  induction files as [|file files IH]; intros out allMetrics; simpl.
  - by rewrite !app_nil_r.
  - unfold Evaluate.process_file at 2. unfold complaint at 1.
    destruct (decide (Evaluate.path_extname h file = ".json"%string)) as [Hext | Hext].
    + pose proof (load_pair_loaded file Hext) as Hl.
      destruct (Evaluate.load_pair h gtFolder predFolder file) as [fileMetrics | err].
      * destruct Hl as (pair & -> & ->). rewrite IH. simpl.
        by rewrite <- app_assoc.
      * rewrite Hl, IH. simpl. by rewrite <- app_assoc.
    + replace (loaded h gtFolder predFolder file) with
        (@None (Evaluate.document * Evaluate.document))
        by (unfold loaded; by rewrite decide_False).
      by rewrite IH.
Qed.

Lemma complaints_are_complaints files :
  Forall is_complaint (flat_map (complaint h gtFolder predFolder) files).
Proof.
  induction files as [|file files IH]; simpl; [constructor|].
  apply Forall_app. split; [|done].
  unfold complaint. destruct (decide _); [|constructor].
  destruct (Evaluate.load_pair _ _ _ _); [constructor|].
  repeat constructor. unfold Evaluate.on_error. by destruct (decide _).
Qed.

(** A run with two arguments and a readable ground-truth folder. *)
Lemma main_readable argv gtFiles :
  drop 2 argv = [gtFolder; predFolder] →
  Evaluate.fs_readdir h gtFolder = Evaluate.Ok gtFiles →
  Evaluate.main h argv =
  {| Evaluate.console :=
       flat_map (complaint h gtFolder predFolder) gtFiles
       ++ report_of h (omap (loaded h gtFolder predFolder) gtFiles);
     Evaluate.exit_code := 0 |}.
Proof.
  intros Hargs Hdir. unfold Evaluate.main. rewrite Hargs, Hdir, process_files. simpl.
  destruct (omap (loaded h gtFolder predFolder) gtFiles) as [|pair pairs]; simpl; done.
Qed.

Lemma complaint_in_console argv gtFiles file err :
  drop 2 argv = [gtFolder; predFolder] →
  Evaluate.fs_readdir h gtFolder = Evaluate.Ok gtFiles →
  file ∈ gtFiles →
  Evaluate.path_extname h file = ".json"%string →
  Evaluate.load_pair h gtFolder predFolder file = Evaluate.Throw err →
  Evaluate.on_error file err ∈ Evaluate.console (Evaluate.main h argv).
Proof.
  intros Hargs Hdir Hfile Hext Hload. rewrite (main_readable argv gtFiles Hargs Hdir). simpl.
  apply elem_of_app. left. apply list_elem_of_In, in_flat_map.
  exists file. split; [by apply list_elem_of_In|].
  unfold complaint. rewrite decide_True, Hload by done. by left.
Qed.

End Driver.

(** ** The scripts in binary64 *)

(** *** The matcher *)

Lemma candidates_bounds {A} (m : gset Z) (l : list A) : ∀ i j p,
  (j, p) ∈ candidates m i l → i ≤ j ∧ j ∉ m.
Proof.
  induction l as [|p0 l IH]; intros i j p; simpl; [by intros ?%elem_of_nil|].
  destruct (decide (i ∈ m)).
  - intros [??]%IH. split; [lia | done].
  - intros [[= -> ->] | [??]%IH]%elem_of_cons; (split; [lia | done]).
Qed.

Lemma candidates_below {A} (m : gset Z) (l : list A) : ∀ i j,
  j < i → candidates ({[j]} ∪ m) i l = candidates m i l.
Proof.
  induction l as [|p0 l IH]; intros i j Hj; simpl; [done|].
  rewrite IH by lia.
  destruct (decide (i ∈ m)) as [Hi | Hi].
  - by rewrite decide_True by apply elem_of_union_r, Hi.
  - rewrite decide_False; [done|].
    intros [->%elem_of_singleton | ?]%elem_of_union; [lia | done].
Qed.

Lemma candidates_insert {A} (m : gset Z) (l : list A) : ∀ i k j p,
  candidates m i l !! k = Some (j, p) →
  candidates ({[j]} ∪ m) i l = delete k (candidates m i l).
Proof.
  induction l as [|p0 l IH]; intros i k j p; simpl; [done|].
  destruct (decide (i ∈ m)) as [Hi | Hi].
  - intros H. rewrite decide_True by apply elem_of_union_r, Hi. by eapply IH.
  - destruct k as [|k]; simpl.
    + intros [= -> ->]. rewrite decide_True by apply elem_of_union_l, elem_of_singleton_2, eq_refl.
      apply candidates_below. lia.
    + intros H.
      assert (i + 1 ≤ j) by (eapply candidates_bounds, list_elem_of_lookup_2, H).
      rewrite decide_False.
      * f_equal. by eapply IH.
      * intros [->%elem_of_singleton | ?]%elem_of_union; [lia | done].
Qed.

Lemma candidates_empty {A} (l : list A) : ∀ i, (candidates ∅ i l).*2 = l.
Proof.
  induction l as [|p0 l IH]; intros i; simpl; [done|].
  rewrite decide_False by set_solver. simpl. by rewrite IH.
Qed.

(** *** The IoU of the script on two arrays of numbers *)

Lemma calculateIoU_boxes h (a b : Js.box) restA restB :
  Script.calculateIoU h
    (Some (Js.JArray (Js.JNumber (Js.x1 a) :: Js.JNumber (Js.y1 a) :: Js.JNumber (Js.x2 a)
                      :: Js.JNumber (Js.y2 a) :: restA)))
    (Some (Js.JArray (Js.JNumber (Js.x1 b) :: Js.JNumber (Js.y1 b) :: Js.JNumber (Js.x2 b)
                      :: Js.JNumber (Js.y2 b) :: restB)))
  = Js.Return (Spec.iou a b).
Proof.
  unfold Script.calculateIoU, Spec.iou, Spec.intersection, Spec.area. simpl.
  by destruct (_ =? _)%float.
Qed.

(** *** The scan of one ground-truth box *)

Lemma scan_pred_labels h m gj g pj p st i :
  label_of gj g →
  label_of pj p →
  Script.scan_pred h m gj st pj i =
  Js.Return (if decide (i ∈ m) then st else choose (Spec.box_of g) st (i, Spec.box_of p)).
Proof.
  intros (gm & grest & -> & _ & Hg) (pm & prest & -> & _ & Hp).
  unfold Script.scan_pred. destruct (decide (i ∈ m)); [done|].
  simpl. rewrite Hg, Hp. simpl. by rewrite calculateIoU_boxes.
Qed.

Lemma forEach_candidates h m gj g predsj preds :
  label_of gj g →
  Forall2 label_of predsj preds →
  ∀ i st,
    Js.forEach (Script.scan_pred h m gj) i predsj st =
    Js.Return (fold_left (choose (Spec.box_of g)) (candidates m i (Spec.box_of <$> preds)) st).
Proof.
  intros Hg. induction 1 as [|pj p predsj preds Hp _ IH]; intros i st; [done|].
  cbn [Js.forEach]. rewrite (scan_pred_labels h m gj g pj p st i Hg Hp).
  cbn [mbind Js.completion_bind]. rewrite IH. rewrite fmap_cons. cbn [candidates].
  by destruct (decide (i ∈ m)).
Qed.

Lemma choose_best g U : ∀ pre st r,
  scan_agrees (pre ++ U) st r →
  scan_agrees (pre ++ U) (fold_left (choose g) U st)
    (Spec.best_candidate g U.*2 (length pre) r).
Proof.
  induction U as [|c U IH]; intros pre st r Hagree; simpl; [done|].
  replace (pre ++ c :: U) with ((pre ++ [c]) ++ U) in * by by rewrite <- app_assoc.
  replace (S (length pre)) with (length (pre ++ [c])) by (rewrite length_app; simpl; lia).
  apply IH.
  assert (Hc : ((pre ++ [c]) ++ U) !! length pre = Some (c.1, c.2)).
  { rewrite <- app_assoc. rewrite lookup_app_r by lia.
    rewrite Nat.sub_diag. by destruct c. }
  assert (Hb : st.1 = Spec.best_so_far r).
  { destruct r as [[k b]|]; simpl in *; [by destruct Hagree | by subst st]. }
  unfold choose. rewrite Hb. destruct (_ <? _)%float; [|done].
  simpl. eauto.
Qed.

(** *** The loop over the ground-truth boxes *)

Lemma match_gtBox_labels h predsj preds gj g st :
  label_of gj g →
  Forall2 label_of predsj preds →
  Script.match_gtBox h predsj st gj =
  Js.Return
    (let best :=
       fold_left (choose (Spec.box_of g)) (candidates st.2 0 (Spec.box_of <$> preds))
         (0%float, -1) in
     if (Script.IOU_THRESHOLD <=? best.1)%float
     then (st.1 + 1, {[best.2]} ∪ st.2)
     else st).
Proof.
  intros Hg Hpreds. unfold Script.match_gtBox.
  by rewrite (forEach_candidates h st.2 gj g predsj preds Hg Hpreds).
Qed.

Lemma for_of_greedy h predsj preds :
  Forall2 label_of predsj preds →
  ∀ gtsj gts, Forall2 label_of gtsj gts →
  ∀ st, ∃ st',
    Js.for_of (Script.match_gtBox h predsj) gtsj st = Js.Return st' ∧
    st'.1 = st.1 +
      Spec.greedy (Spec.box_of <$> gts) (candidates st.2 0 (Spec.box_of <$> preds)).*2.
Proof.
  intros Hpreds. induction 1 as [|gj g gtsj gts Hg _ IH]; intros [tp m].
  - eexists. split; [done|]. simpl. lia.
  - cbn [Js.for_of]. rewrite (match_gtBox_labels h predsj preds gj g (tp, m) Hg Hpreds).
    cbn [mbind Js.completion_bind fst snd].
    rewrite fmap_cons. cbn [Spec.greedy].
    set (U := candidates m 0 (Spec.box_of <$> preds)).
    pose proof (choose_best (Spec.box_of g) U [] (0%float, -1) None eq_refl) as Hs.
    simpl in Hs.
    destruct (fold_left (choose (Spec.box_of g)) U (0%float, -1)) as [b j] eqn:Ef.
    destruct (Spec.best_candidate (Spec.box_of g) U.*2 0 None) as [[k x]|]; simpl in Hs.
    + destruct Hs as [-> [p Hk]]. simpl in Hk. unfold Script.IOU_THRESHOLD. cbn [fst snd].
      destruct (0.5 <=? x)%float.
      * destruct (IH (tp + 1, {[j]} ∪ m)) as (st' & Hst & Htp). cbn [fst snd] in Htp.
        exists st'. split; [done|].
        rewrite (candidates_insert _ _ _ _ _ _ Hk) in Htp.
        fold U in Htp. rewrite list_fmap_delete in Htp. lia.
      * destruct (IH (tp, m)) as (st' & Hst & Htp). by exists st'.
    + injection Hs as -> ->. cbn [fst snd].
      replace (Script.IOU_THRESHOLD <=? 0)%float with false by done.
      destruct (IH (tp, m)) as (st' & Hst & Htp). by exists st'.
Qed.

(** *** The filter *)

Lemma filter_tag_labels t items ls :
  Forall2 label_of items ls →
  ∃ kept,
    Script.filter_tag t items = Js.Return kept ∧
    Forall2 label_of kept (filter (λ l, Spec.category l = t) ls).
Proof.
  induction 1 as [|v l items ls Hl _ (kept & IH & Hkept)]; simpl.
  - eexists. split; [done | constructor].
  - pose proof Hl as (members & rest & -> & Htag & _). simpl. rewrite Htag, IH. simpl.
    rewrite filter_cons. destruct (decide (Spec.category l = t)) as [Heq | Hne].
    + rewrite bool_decide_eq_true_2 by done. eexists. split; [done|]. by constructor.
    + rewrite bool_decide_eq_false_2 by done. eexists. split; done.
Qed.

Lemma evaluateTag_labels h gtData predData gtLabels predLabels t :
  document_of gtData gtLabels →
  document_of predData predLabels →
  ∃ m, Script.evaluateTag h gtData predData t = Js.Return m ∧
       Js.true_positives m = Spec.true_positives_of t gtLabels predLabels.
Proof.
  intros (gm & gitems & -> & Hgl & Hg) (pm & pitems & -> & Hpl & Hp).
  destruct (filter_tag_labels t gitems gtLabels Hg) as (gtBoxes & Hgf & Hgk).
  destruct (filter_tag_labels t pitems predLabels Hp) as (predBoxes & Hpf & Hpk).
  destruct (for_of_greedy h predBoxes _ Hpk gtBoxes _ Hgk (0, ∅)) as (st' & Hloop & Htp).
  unfold Script.evaluateTag. simpl. rewrite Hgl, Hpl. simpl. rewrite Hgf, Hpf. simpl.
  rewrite Hloop. simpl. eexists. split; [done|]. simpl.
  rewrite Htp. simpl. by rewrite candidates_empty.
Qed.

Lemma evaluateSingleFile_Return h gtData predData metrics :
  Script.evaluateSingleFile h gtData predData = Js.Return metrics ↔
  ∃ m1 m2 m3 m4,
    Script.evaluateTag h gtData predData "Button" = Js.Return m1 ∧
    Script.evaluateTag h gtData predData "Input" = Js.Return m2 ∧
    Script.evaluateTag h gtData predData "Radio" = Js.Return m3 ∧
    Script.evaluateTag h gtData predData "Dropdown" = Js.Return m4 ∧
    metrics = [("Button"%string, m1); ("Input"%string, m2); ("Radio"%string, m3);
               ("Dropdown"%string, m4)].
Proof.
  unfold Script.evaluateSingleFile. simpl. split.
  - destruct (Script.evaluateTag h gtData predData "Button") as [m1|]; [|done]. simpl.
    destruct (Script.evaluateTag h gtData predData "Input") as [m2|]; [|done]. simpl.
    destruct (Script.evaluateTag h gtData predData "Radio") as [m3|]; [|done]. simpl.
    destruct (Script.evaluateTag h gtData predData "Dropdown") as [m4|]; [|done]. simpl.
    intros [= <-]. by eexists _, _, _, _.
  - intros (m1 & m2 & m3 & m4 & -> & -> & -> & -> & ->). done.
Qed.

Lemma evaluateSingleFile_Return_get h gtData predData metrics t :
  Script.evaluateSingleFile h gtData predData = Js.Return metrics →
  obj_get t metrics =
    if decide (t ∈ UI_TAGS)
    then match Script.evaluateTag h gtData predData t with
         | Js.Return m => Some m
         | Js.ThrowTypeError _ => None
         end
    else None.
Proof.
  intros (m1 & m2 & m3 & m4 & H1 & H2 & H3 & H4 & ->)%evaluateSingleFile_Return.
  unfold UI_TAGS. simpl.
  repeat (destruct (decide (_ = t)) as [<- | ?];
    [rewrite decide_True by (by apply (bool_decide_unpack _));
     by rewrite ?H1, ?H2, ?H3, ?H4|]).
  rewrite decide_False; [done|].
  intros Ht. repeat (apply elem_of_cons in Ht as [-> | Ht]; [done|]).
  by apply elem_of_nil in Ht.
Qed.

(** C1: for two documents that hold label sets, [evaluateSingleFile] returns,
    and the true positives it counts in every category of [UI_TAGS] are
    those of the greedy assignment of the specification, computed in binary64
    with the IoU of section 4.1: the ground-truth boxes of the category are
    taken in list order, each is compared with the predicted boxes of the
    category that are not matched yet, the best candidate changes only on a
    strictly greater IoU, and a match is recorded, using the predicted box
    up, exactly when the best IoU is at least 0.5. *)
Theorem matcher_true_positives_reference (h : Js.Host) (gtData predData : Js.json)
    (gtLabels predLabels : list Spec.label) :
  document_of gtData gtLabels →
  document_of predData predLabels →
  ∃ metrics,
    Script.evaluateSingleFile h gtData predData = Js.Return metrics ∧
    ∀ t, t ∈ UI_TAGS →
      ∃ m, obj_get t metrics = Some m ∧
           Js.true_positives m = Spec.true_positives_of t gtLabels predLabels.
Proof.
  intros Hgt Hpred.
  pose proof (λ t, evaluateTag_labels h gtData predData gtLabels predLabels t Hgt Hpred) as Ht.
  destruct (Ht "Button"%string) as (m1 & H1 & T1), (Ht "Input"%string) as (m2 & H2 & T2),
    (Ht "Radio"%string) as (m3 & H3 & T3), (Ht "Dropdown"%string) as (m4 & H4 & T4).
  eexists. split.
  - apply evaluateSingleFile_Return. by eexists _, _, _, _.
  - intros t Htag. unfold UI_TAGS in Htag. simpl.
    repeat (apply elem_of_cons in Htag as [-> | Htag]; [by eexists|]).
    by apply elem_of_nil in Htag.
Qed.

Lemma matcher_true_positives_reference_witness :
  document_of Samples64.mixed_manual_json Samples64.mixed_manual ∧
  document_of Samples64.mixed_predicted_json Samples64.mixed_predicted ∧
  ∃ metrics,
    Script.evaluateSingleFile Samples64.host Samples64.mixed_manual_json
      Samples64.mixed_predicted_json = Js.Return metrics ∧
    ∀ t, t ∈ UI_TAGS →
      ∃ m, obj_get t metrics = Some m ∧
           Js.true_positives m =
             Spec.true_positives_of t Samples64.mixed_manual Samples64.mixed_predicted.
Proof.
  assert (Hg : document_of Samples64.mixed_manual_json Samples64.mixed_manual).
  { eexists _, _. split; [reflexivity|]. split; [reflexivity|].
    repeat constructor; eexists _, _; repeat split. }
  assert (Hp : document_of Samples64.mixed_predicted_json Samples64.mixed_predicted).
  { eexists _, _. split; [reflexivity|]. split; [reflexivity|].
    repeat constructor; eexists _, _; repeat split. }
  split; [exact Hg|]. split; [exact Hp|].
  exact (matcher_true_positives_reference Samples64.host _ _ _ _ Hg Hp).
Defined.

(** *** The rates *)

Lemma evaluateTag_Return h gtData predData t m :
  Script.evaluateTag h gtData predData t = Js.Return m →
  ∃ tp gt pred,
    m = Spec.entry tp (pred - tp) (gt - tp) gt pred ∧ (gt = 0 → tp = 0).
Proof.
  unfold Script.evaluateTag.
  destruct (Js.get (Some gtData) "labels") as [gtLabels|]; cbn [mbind Js.completion_bind]; [|done].
  destruct (Script.labels_filter _ gtLabels t) as [gtBoxes|]; cbn [mbind Js.completion_bind]; [|done].
  destruct (Js.get (Some predData) "labels") as [predLabels|]; cbn [mbind Js.completion_bind]; [|done].
  destruct (Script.labels_filter _ predLabels t) as [predBoxes|]; cbn [mbind Js.completion_bind]; [|done].
  destruct (Js.for_of _ gtBoxes _) as [st|] eqn:Hloop; cbn [mbind Js.completion_bind]; [|done].
  intros [= <-]. eexists _, _, _. split; [reflexivity|].
  intros Hgt. destruct gtBoxes; [|done]. by injection Hloop as <-.
Qed.

Lemma entry_rates tp fp fn gt pred : carries_rates (Spec.entry tp fp fn gt pred).
Proof. done. Qed.

Lemma sum_tag_totals t allMetrics : ∀ acc,
  fold_left
    (λ tagStats fileMetrics,
       match obj_get t fileMetrics with
       | Some m => Script.add_stats tagStats m
       | None => tagStats
       end) allMetrics acc =
  {| Script.s_true_positives :=
       Script.s_true_positives acc + Spec.total Js.true_positives t allMetrics;
     Script.s_false_positives :=
       Script.s_false_positives acc + Spec.total Js.false_positives t allMetrics;
     Script.s_false_negatives :=
       Script.s_false_negatives acc + Spec.total Js.false_negatives t allMetrics;
     Script.s_ground_truth_count :=
       Script.s_ground_truth_count acc + Spec.total Js.ground_truth_count t allMetrics;
     Script.s_predicted_count :=
       Script.s_predicted_count acc + Spec.total Js.predicted_count t allMetrics |}.
Proof.
  induction allMetrics as [|fileMetrics allMetrics IH]; intros acc; simpl.
  - destruct acc; simpl. f_equal; lia.
  - rewrite IH. destruct (obj_get t fileMetrics) as [m|]; simpl; f_equal; lia.
Qed.

Lemma with_rates_entry stats :
  Script.with_rates stats =
  Spec.entry (Script.s_true_positives stats) (Script.s_false_positives stats)
    (Script.s_false_negatives stats) (Script.s_ground_truth_count stats)
    (Script.s_predicted_count stats).
Proof. done. Qed.

(** [aggregateResults] computes the aggregate of the specification. *)
Lemma aggregateResults_aggregate allMetrics :
  Script.aggregateResults allMetrics = Spec.aggregate allMetrics.
Proof.
  unfold Script.aggregateResults, Script.aggregateTags, Script.sum_tag, Spec.aggregate,
    Spec.grand_total.
  rewrite !with_rates_entry. simpl. rewrite !sum_tag_totals. simpl.
  repeat (f_equal; try lia).
Qed.

Lemma aggregate_get allMetrics t m :
  obj_get t (Spec.aggregate allMetrics) = Some m →
  ∃ tp fp fn gt pred, m = Spec.entry tp fp fn gt pred.
Proof.
  unfold Spec.aggregate. simpl.
  repeat (destruct (decide (_ = t)); [intros [= <-]; by eexists _, _, _, _, _|]).
  done.
Qed.

(** *** The rates of the export *)

Lemma export_match_none predBoxes : ∀ st,
  Component.truePositives (fold_left (Component.match_predBox []) predBoxes st) =
  Component.truePositives st.
Proof. induction predBoxes as [|p l IH]; intros st; simpl; [done | by rewrite IH]. Qed.

Lemma store_rates r fp fn :
  Component.r_fp r = fp → Component.r_fn r = fn →
  Component.r_precision r = Component.precision_of (Component.r_tp r) fp →
  Component.r_recall r = Component.recall_of (Component.r_tp r) fn →
  Component.r_f1Score r = Component.f1_of (Component.r_precision r) (Component.r_recall r) →
  carries_stored_rates (Component.store r).
Proof.
  intros <- <- Hp Hr Hf. unfold carries_stored_rates. simpl.
  rewrite Hf, Hp, Hr. done.
Qed.

Lemma computeTag_stored manualLabels predictedLabels t :
  carries_stored_rates (Component.store (Component.computeTag manualLabels predictedLabels t)).
Proof. by eapply store_rates. Qed.

Lemma overallOf_stored manualLabels predictedLabels summary :
  carries_stored_rates
    (Component.store (Component.overallOf manualLabels predictedLabels summary)).
Proof. by eapply store_rates. Qed.

Lemma component_entry manualLabels predictedLabels imageName ev t m :
  Component.generateEvaluation manualLabels predictedLabels imageName = Some ev →
  obj_get t (Component.summary ev) = Some m →
  (t ∈ Component.tags ∧
   m = Component.store (Component.computeTag manualLabels predictedLabels t)) ∨
  (t = "overall"%string ∧
   m = Component.store
         (Component.overallOf manualLabels predictedLabels
            (Component.summaryTags manualLabels predictedLabels))).
Proof.
  unfold Component.generateEvaluation. destruct (_ || _); [done|].
  intros [= <-]. simpl.
  repeat (destruct (decide (_ = t)) as [<- | ?];
    [intros [= <-]; first [left; split; [by apply (bool_decide_unpack _) | done]
                          | right; split; done]|]).
  done.
Qed.

(** C4, as amended: every entry of the batch evaluator, per image and
    aggregated (the categories and [Overall]), carries precision
    [TP / (TP + FP)] when [TP + FP > 0] and 0 otherwise, recall
    [TP / (TP + FN)] when [TP + FN > 0] and 0 otherwise, and F1
    [2 * (precision * recall) / (precision + recall)] when
    [precision + recall > 0] and 0 otherwise, each computed in binary64 from
    the counters of the entry; every entry written by the interactive export
    carries [Math.round(x * 1000) / 1000] of these rates, with precision and
    recall taken to be 0 when [TP] is 0 and the product of F1 taken as
    [2 * precision * recall].  A quotient is taken only under its guard, and
    the three rates of a category without a label on either side are 0. *)
Theorem rates_follow_counts :
  (∀ h gtData predData metrics t m,
     Script.evaluateSingleFile h gtData predData = Js.Return metrics →
     obj_get t metrics = Some m →
     carries_rates m) ∧
  (∀ allMetrics t m,
     obj_get t (Script.aggregateResults allMetrics) = Some m →
     carries_rates m) ∧
  (∀ manualLabels predictedLabels imageName ev t m,
     Component.generateEvaluation manualLabels predictedLabels imageName = Some ev →
     obj_get t (Component.summary ev) = Some m →
     carries_stored_rates m) ∧
  (∀ h gtData predData metrics t m,
     Script.evaluateSingleFile h gtData predData = Js.Return metrics →
     obj_get t metrics = Some m →
     Js.ground_truth_count m = 0 → Js.predicted_count m = 0 →
     Js.precision m = 0%float ∧ Js.recall m = 0%float ∧ Js.f1_score m = 0%float) ∧
  (∀ manualLabels predictedLabels imageName ev t m,
     Component.generateEvaluation manualLabels predictedLabels imageName = Some ev →
     obj_get t (Component.summary ev) = Some m →
     Js.ground_truth_count m = 0 → Js.predicted_count m = 0 →
     Js.precision m = 0%float ∧ Js.recall m = 0%float ∧ Js.f1_score m = 0%float).
Proof.
  assert (Hentry : ∀ h gtData predData metrics t m,
    Script.evaluateSingleFile h gtData predData = Js.Return metrics →
    obj_get t metrics = Some m →
    Script.evaluateTag h gtData predData t = Js.Return m).
  { intros h gtData predData metrics t m Hm. rewrite (evaluateSingleFile_Return_get _ _ _ _ _ Hm).
    destruct (decide _); [|done].
    destruct (Script.evaluateTag h gtData predData t); [|done]. by intros [= ->]. }
  split; [|split; [|split; [|split]]].
  - intros h gtData predData metrics t m Hm Ht.
    destruct (evaluateTag_Return _ _ _ _ _ (Hentry _ _ _ _ _ _ Hm Ht))
      as (tp & gt & pred & -> & _).
    apply entry_rates.
  - intros allMetrics t m. rewrite aggregateResults_aggregate.
    intros (tp & fp & fn & gt & pred & ->)%aggregate_get. apply entry_rates.
  - intros manualLabels predictedLabels imageName ev t m Hev Hm.
    destruct (component_entry _ _ _ _ _ _ Hev Hm) as [[_ ->] | [_ ->]].
    + apply computeTag_stored.
    + apply overallOf_stored.
  - intros h gtData predData metrics t m Hm Ht.
    destruct (evaluateTag_Return _ _ _ _ _ (Hentry _ _ _ _ _ _ Hm Ht))
      as (tp & gt & pred & -> & Htp).
    simpl. intros -> ->. rewrite Htp by done. done.
  - intros manualLabels predictedLabels imageName ev t m Hev Hm.
    destruct (component_entry _ _ _ _ _ _ Hev Hm) as [[_ ->] | [_ ->]].
    + simpl. intros Hgt _.
      destruct (filter (λ l, Component.tag l = t) manualLabels); [|done].
      unfold Component.match_boxes. rewrite export_match_none. done.
    + simpl. intros Hgt _. unfold Component.generateEvaluation in Hev.
      destruct manualLabels; [done | done].
Qed.

Lemma rates_follow_counts_witness :
  carries_rates
    {| Js.true_positives := 1; Js.false_positives := 1; Js.false_negatives := 1;
       Js.ground_truth_count := 2; Js.predicted_count := 2;
       Js.precision := 0.5; Js.recall := 0.5; Js.f1_score := 0.5 |} ∧
  carries_rates
    {| Js.true_positives := 3; Js.false_positives := 10; Js.false_negatives := 16;
       Js.ground_truth_count := 19; Js.predicted_count := 13;
       Js.precision := 0.23076923076923078; Js.recall := 0.15789473684210525;
       Js.f1_score := 0.18749999999999997 |} ∧
  carries_stored_rates
    {| Js.true_positives := 1; Js.false_positives := 2; Js.false_negatives := 0;
       Js.ground_truth_count := 1; Js.predicted_count := 3;
       Js.precision := 0.333; Js.recall := 1; Js.f1_score := 0.5 |} ∧
  carries_stored_rates
    {| Js.true_positives := 3; Js.false_positives := 10; Js.false_negatives := 16;
       Js.ground_truth_count := 19; Js.predicted_count := 13;
       Js.precision := 0.231; Js.recall := 0.158; Js.f1_score := 0.187 |} ∧
  (Js.precision (Spec.entry 0 0 0 0 0) = 0%float ∧
   Js.recall (Spec.entry 0 0 0 0 0) = 0%float ∧
   Js.f1_score (Spec.entry 0 0 0 0 0) = 0%float) ∧
  (Js.precision (Component.store (Component.computeTag [] Samples64.thirds_predicted "Input"))
     = 0%float ∧
   Js.recall (Component.store (Component.computeTag [] Samples64.thirds_predicted "Input"))
     = 0%float ∧
   Js.f1_score (Component.store (Component.computeTag [] Samples64.thirds_predicted "Input"))
     = 0%float).
Proof.
  split; [|split; [|split; [|split; [|split]]]].
  - eapply (proj1 rates_follow_counts Samples64.host Samples64.mixed_manual_json
              Samples64.mixed_predicted_json _ "Button"); reflexivity.
  - eapply (proj1 (proj2 rates_follow_counts)
              [[("Button"%string, Spec.entry 3 10 16 19 13)]] "Overall"). reflexivity.
  - eapply (proj1 (proj2 (proj2 rates_follow_counts)) Samples64.thirds_manual
              Samples64.thirds_predicted "sample.png" _ "Button"); reflexivity.
  - eapply (proj1 (proj2 (proj2 rates_follow_counts)) Samples64.sparse_manual
              Samples64.sparse_predicted "sample.png" _ "Button"); reflexivity.
  - eapply (proj1 (proj2 (proj2 (proj2 rates_follow_counts))) Samples64.host
              Samples64.mixed_manual_json Samples64.mixed_predicted_json _ "Dropdown");
      reflexivity.
  - eapply (proj2 (proj2 (proj2 (proj2 rates_follow_counts))) Samples64.thirds_manual
              Samples64.thirds_predicted "sample.png" _ "Input"); reflexivity.
Defined.

(** The entry of the export for one button matched out of three predicted:
    the stored precision is 0.333, where [1 / 3] is 0.3333333333333333. *)
Lemma export_rates_not_exact :
  ∃ ev m,
    Component.generateEvaluation Samples64.thirds_manual Samples64.thirds_predicted
      "sample.png" = Some ev ∧
    obj_get "Button" (Component.summary ev) = Some m ∧
    Js.true_positives m = 1 ∧ Js.false_positives m = 2 ∧
    Js.precision m = 0.333%float ∧
    Spec.precision_of 1 2 = 0.3333333333333333%float ∧
    ¬ carries_rates m.
Proof.
  eexists _, _. split; [reflexivity|]. split; [reflexivity|].
  split; [reflexivity|]. split; [reflexivity|]. split; [reflexivity|].
  split; [reflexivity|].
  intros [Hp _]. apply (f_equal (λ x, (x =? 0.333)%float)) in Hp.
  vm_compute in Hp. discriminate Hp.
Qed.

(** *** The batch driver *)

(** [printReport] prints the table of a report that has the four categories
    and [Overall]. *)
Lemma printReport_table h allMetrics :
  Script.printReport h (Spec.aggregate allMetrics) = table h (Spec.aggregate allMetrics).
Proof. reflexivity. Qed.

Section Driver64.

Variable h : Js.Host.
Variables gtFolder predFolder : string.

Lemma load_pair_evaluated file :
  Js.path_extname h file = ".json"%string →
  match Script.load_pair h gtFolder predFolder file with
  | Evaluate.Ok fileMetrics => evaluated h gtFolder predFolder file = Some fileMetrics
  | Evaluate.Throw _ => evaluated h gtFolder predFolder file = None
  end.
Proof.
  intros Hext. unfold Script.load_pair, evaluated. rewrite decide_True by done.
  destruct (Js.fs_readFile h (Js.path_join h gtFolder file)) as [gtContent|]; [|done].
  destruct (Js.fs_readFile h (Js.path_join h predFolder file)) as [predContent|]; [|done].
  destruct (Js.JSON_parse h gtContent) as [gtData|]; [|done].
  destruct (Js.JSON_parse h predContent) as [predData|]; [|done].
  by destruct (Script.evaluateSingleFile h gtData predData).
Qed.

Lemma process_files64 files : ∀ out allMetrics,
  fold_left (Script.process_file h gtFolder predFolder) files (out, allMetrics) =
  (out ++ flat_map (grumble h gtFolder predFolder) files,
   allMetrics ++ omap (evaluated h gtFolder predFolder) files).
Proof.
  induction files as [|file files IH]; intros out allMetrics; simpl.
  - by rewrite !app_nil_r.
  - unfold Script.process_file at 2. unfold grumble at 1.
    destruct (decide (Js.path_extname h file = ".json"%string)) as [Hext | Hext].
    + pose proof (load_pair_evaluated file Hext) as Hl.
      destruct (Script.load_pair h gtFolder predFolder file) as [fileMetrics | err].
      * rewrite Hl, IH. simpl. by rewrite <- app_assoc.
      * rewrite Hl, IH. simpl. by rewrite <- app_assoc.
    + replace (evaluated h gtFolder predFolder file) with (@None (object Js.TagMetrics))
        by (unfold evaluated; by rewrite decide_False).
      by rewrite IH.
Qed.

Lemma grumbles_are_complaints files :
  Forall is_complaint (flat_map (grumble h gtFolder predFolder) files).
Proof.
  induction files as [|file files IH]; simpl; [constructor|].
  apply Forall_app. split; [|done].
  unfold grumble. destruct (decide _); [|constructor].
  destruct (Script.load_pair _ _ _ _); [constructor|].
  repeat constructor. unfold Evaluate.on_error. by destruct (decide _).
Qed.

Lemma grumbles_count files :
  (length (flat_map (grumble h gtFolder predFolder) files)
   + length (omap (evaluated h gtFolder predFolder) files) =
   length (filter (λ file, Js.path_extname h file = ".json"%string) files))%nat.
Proof.
  induction files as [|file files IH]; [done|].
  assert (Ho : omap (evaluated h gtFolder predFolder) (file :: files) =
               match evaluated h gtFolder predFolder file with
               | Some m => m :: omap (evaluated h gtFolder predFolder) files
               | None => omap (evaluated h gtFolder predFolder) files
               end) by done.
  rewrite Ho, filter_cons. cbn [flat_map]. rewrite length_app. unfold grumble at 1.
  destruct (decide (Js.path_extname h file = ".json"%string)) as [Hext | Hext].
  - pose proof (load_pair_evaluated file Hext) as Hl.
    destruct (Script.load_pair h gtFolder predFolder file); rewrite Hl; simpl; lia.
  - replace (evaluated h gtFolder predFolder file) with (@None (object Js.TagMetrics))
      by (unfold evaluated; by rewrite decide_False).
    simpl. lia.
Qed.

(** A run with two arguments and a readable ground-truth folder. *)
Lemma main_readable64 argv gtFiles :
  drop 2 argv = [gtFolder; predFolder] →
  Js.fs_readdir h gtFolder = Evaluate.Ok gtFiles →
  Script.main h argv =
  {| Evaluate.console :=
       flat_map (grumble h gtFolder predFolder) gtFiles
       ++ match omap (evaluated h gtFolder predFolder) gtFiles with
          | [] => [Evaluate.console_log "No matching file pairs found to evaluate."]
          | outcomes => table h (Spec.aggregate outcomes)
          end;
     Evaluate.exit_code := 0 |}.
Proof.
  intros Hargs Hdir. unfold Script.main. rewrite Hargs, Hdir, process_files64. simpl.
  destruct (omap (evaluated h gtFolder predFolder) gtFiles) as [|outcome outcomes]; [done|].
  rewrite decide_False by done. by rewrite aggregateResults_aggregate, printReport_table.
Qed.

Lemma grumble_in_console argv gtFiles file err :
  drop 2 argv = [gtFolder; predFolder] →
  Js.fs_readdir h gtFolder = Evaluate.Ok gtFiles →
  file ∈ gtFiles →
  Js.path_extname h file = ".json"%string →
  Script.load_pair h gtFolder predFolder file = Evaluate.Throw err →
  evaluated h gtFolder predFolder file = None ∧
  Evaluate.on_error file err ∈ Evaluate.console (Script.main h argv).
Proof.
  intros Hargs Hdir Hfile Hext Hload.
  pose proof (load_pair_evaluated file Hext) as Hnone. rewrite Hload in Hnone.
  split; [done|].
  rewrite (main_readable64 argv gtFiles Hargs Hdir). simpl.
  apply elem_of_app. left. apply list_elem_of_In, in_flat_map.
  exists file. split; [by apply list_elem_of_In|].
  unfold grumble. rewrite decide_True, Hload by done. by left.
Qed.

(** C8: in a run over a readable ground-truth folder, every failure of a
    pair is contained.  A [.json] file whose prediction counterpart is
    missing produces the warning; a pair with a document that does not parse
    produces the error with the message of the parser; a pair whose
    evaluation throws on the shape of a document produces the error with the
    message of the [TypeError]; none of these pairs is evaluated.  The run
    still ends with exit code 0; every [.json] file is either skipped with
    one warning or error, or evaluated; and apart from the warnings and
    errors the console holds the no-data line when no pair was evaluated, and
    otherwise the table of the aggregate of the specification over the
    metrics of exactly the pairs that were evaluated, in the order of the
    folder. *)
Theorem batch_driver_contains_failures (argv gtFiles : list string) :
  drop 2 argv = [gtFolder; predFolder] →
  Js.fs_readdir h gtFolder = Evaluate.Ok gtFiles →
  Evaluate.exit_code (Script.main h argv) = 0 ∧
  (∃ skipped,
     Forall is_complaint skipped ∧
     (length skipped + length (omap (evaluated h gtFolder predFolder) gtFiles) =
      length (filter (λ file, Js.path_extname h file = ".json"%string) gtFiles))%nat ∧
     Evaluate.console (Script.main h argv) =
       skipped ++
       match omap (evaluated h gtFolder predFolder) gtFiles with
       | [] => [Evaluate.console_log "No matching file pairs found to evaluate."]
       | outcomes => table h (Spec.aggregate outcomes)
       end) ∧
  (∀ file gtContent err,
     file ∈ gtFiles →
     Js.path_extname h file = ".json"%string →
     Js.fs_readFile h (Js.path_join h gtFolder file) = Evaluate.Ok gtContent →
     Js.fs_readFile h (Js.path_join h predFolder file) = Evaluate.Throw err →
     Evaluate.code err = Some "ENOENT"%string →
     evaluated h gtFolder predFolder file = None ∧
     Evaluate.console_warn
       ("Warning: Prediction file not found for " +:+ file +:+ ". Skipping.")
       ∈ Evaluate.console (Script.main h argv)) ∧
  (∀ file gtContent predContent message,
     file ∈ gtFiles →
     Js.path_extname h file = ".json"%string →
     Js.fs_readFile h (Js.path_join h gtFolder file) = Evaluate.Ok gtContent →
     Js.fs_readFile h (Js.path_join h predFolder file) = Evaluate.Ok predContent →
     Js.JSON_parse h gtContent = inr message ∨
       (∃ gtData, Js.JSON_parse h gtContent = inl gtData) ∧
       Js.JSON_parse h predContent = inr message →
     evaluated h gtFolder predFolder file = None ∧
     Evaluate.console_error ["Error processing file " +:+ file +:+ ":"; message]
       ∈ Evaluate.console (Script.main h argv)) ∧
  (∀ file gtContent predContent gtData predData f,
     file ∈ gtFiles →
     Js.path_extname h file = ".json"%string →
     Js.fs_readFile h (Js.path_join h gtFolder file) = Evaluate.Ok gtContent →
     Js.fs_readFile h (Js.path_join h predFolder file) = Evaluate.Ok predContent →
     Js.JSON_parse h gtContent = inl gtData →
     Js.JSON_parse h predContent = inl predData →
     Script.evaluateSingleFile h gtData predData = Js.ThrowTypeError f →
     evaluated h gtFolder predFolder file = None ∧
     Evaluate.console_error
       ["Error processing file " +:+ file +:+ ":"; Js.TypeError_message h f]
       ∈ Evaluate.console (Script.main h argv)).
Proof.
  intros Hargs Hdir.
  split; [by rewrite (main_readable64 argv gtFiles Hargs Hdir)|].
  split; [|split; [|split]].
  - exists (flat_map (grumble h gtFolder predFolder) gtFiles).
    split; [apply grumbles_are_complaints|]. split; [apply grumbles_count|].
    by rewrite (main_readable64 argv gtFiles Hargs Hdir).
  - intros file gtContent err Hfile Hext Hgt Hpred Hcode.
    assert (Hload : Script.load_pair h gtFolder predFolder file = Evaluate.Throw err).
    { unfold Script.load_pair. by rewrite Hgt, Hpred. }
    pose proof (grumble_in_console argv gtFiles file err Hargs Hdir Hfile Hext Hload)
      as [Hnone Hin].
    split; [done|]. unfold Evaluate.on_error in Hin. by rewrite decide_True in Hin.
  - intros file gtContent predContent message Hfile Hext Hgt Hpred Hparse.
    assert (Hload : Script.load_pair h gtFolder predFolder file =
                    Evaluate.Throw (Js.SyntaxError message)).
    { unfold Script.load_pair. rewrite Hgt, Hpred.
      destruct Hparse as [-> | [[gtData ->] ->]]; done. }
    pose proof (grumble_in_console argv gtFiles file _ Hargs Hdir Hfile Hext Hload)
      as [Hnone Hin].
    split; done.
  - intros file gtContent predContent gtData predData f Hfile Hext Hgt Hpred Hg Hp Hthrow.
    assert (Hload : Script.load_pair h gtFolder predFolder file =
                    Evaluate.Throw (Js.TypeError h f)).
    { unfold Script.load_pair. by rewrite Hgt, Hpred, Hg, Hp, Hthrow. }
    pose proof (grumble_in_console argv gtFiles file _ Hargs Hdir Hfile Hext Hload)
      as [Hnone Hin].
    split; done.
Qed.


End Driver64.

Lemma batch_driver_contains_failures_witness :
  Evaluate.exit_code (Script.main Samples64.host Samples64.argv) = 0 ∧
  Evaluate.console_warn "Warning: Prediction file not found for b.json. Skipping."
    ∈ Evaluate.console (Script.main Samples64.host Samples64.argv) ∧
  Evaluate.console_error ["Error processing file c.json:"; "Unexpected end of JSON input"]
    ∈ Evaluate.console (Script.main Samples64.host Samples64.argv) ∧
  Evaluate.console_error
    ["Error processing file d.json:"; "Cannot read properties of undefined (reading '0')"]
    ∈ Evaluate.console (Script.main Samples64.host Samples64.argv) ∧
  ∃ skipped,
    Forall is_complaint skipped ∧
    (length skipped + 2 = 5)%nat ∧
    Evaluate.console (Script.main Samples64.host Samples64.argv) =
      skipped ++
      (Evaluate.console_log <$>
        [ Evaluate.nl +:+ "--- LLM Tagging Performance Evaluation ---";
          "IoU Threshold: 0.5" +:+ Evaluate.nl;
          "Tag       | GT Count | Pred Count | TP   | FP   | FN   | Precision | Recall | F1-Score";
          "----------|----------|------------|------|------|------|-----------|--------|---------";
          "Button    | 3        | 2          | 1     | 1     | 2     |  50.00 |  33.33 |  40.00";
          "Input     | 1        | 1          | 0     | 1     | 1     |   0.00 |   0.00 |   0.00";
          "Radio     | 1        | 2          | 1     | 1     | 0     |  50.00 | 100.00 |  66.67";
          "Dropdown  | 0        | 0          | 0     | 0     | 0     |   0.00 |   0.00 |   0.00";
          "Overall   | 5        | 5          | 2     | 3     | 3     |  40.00 |  40.00 |  40.00";
          "------------------------------------------------------------------------------------" ]).
Proof.
  destruct (batch_driver_contains_failures Samples64.host "gt" "pred" Samples64.argv
              ["a.json"; "b.json"; "c.json"; "d.json"; "e.json"; "notes.txt"]%string
              eq_refl eq_refl)
    as (Hexit & (skipped & Hskipped & Hcount & Hconsole) & Hwarn & Hparse & Hshape).
  split; [exact Hexit|]. split; [|split; [|split]].
  - apply (Hwarn "b.json"%string "manual"%string Samples64.ENOENT); try reflexivity.
    by apply (bool_decide_unpack _).
  - apply (Hparse "c.json"%string "{"%string "{"%string); try reflexivity.
    + by apply (bool_decide_unpack _).
    + left. reflexivity.
  - apply (Hshape "d.json"%string "boxless"%string "button"%string Samples64.boxless_json
             Samples64.button_json (Js.read_of_undefined "0")); try reflexivity.
    by apply (bool_decide_unpack _).
  - exists skipped. split; [exact Hskipped|]. split; [exact Hcount|].
    rewrite Hconsole. reflexivity.
Defined.


(** * Further properties *)

(** ** Symmetry of the IoU, and the tests of the export on it *)

Lemma qmax_comp a a' b b' : (a == a' → b == b' → qmax a b == qmax a' b')%Q.
Proof.
  intros Ha Hb. unfold qmax. rewrite (Qcompare_comp _ _ Ha _ _ Hb).
  by destruct (a' ?= b')%Q.
Qed.

Lemma qmax_sym a b : (qmax a b == qmax b a)%Q.
Proof.
  destruct (qmax_spec a b) as (H1 & H2 & [H3 | H3]),
           (qmax_spec b a) as (H4 & H5 & [H6 | H6]); lra.
Qed.

Lemma qmin_sym a b : (qmin a b == qmin b a)%Q.
Proof.
  destruct (qmin_spec a b) as (H1 & H2 & [H3 | H3]),
           (qmin_spec b a) as (H4 & H5 & [H6 | H6]); lra.
Qed.

Lemma overlap_sym lo hi lo' hi' : (overlap lo hi lo' hi' == overlap lo' hi' lo hi)%Q.
Proof.
  unfold overlap. apply qmax_comp; [reflexivity|].
  rewrite (qmin_sym hi hi'), (qmax_sym lo lo'). reflexivity.
Qed.

Lemma areas_overlap (a1 a2 a3 a4 b1 b2 b3 b4 : Q) :
  interArea (qbox a1 a2 a3 a4) (qbox b1 b2 b3 b4) =
    Num (overlap a1 a3 b1 b3 * overlap a2 a4 b2 b4)%Q ∧
  unionArea (qbox a1 a2 a3 a4) (qbox b1 b2 b3 b4) =
    Num ((a3 + - a1) * (a4 + - a2) + (b3 + - b1) * (b4 + - b2)
         + - (overlap a1 a3 b1 b3 * overlap a2 a4 b2 b4))%Q.
Proof. apply areas_finite. Qed.

(** The two ways of turning an intersection and a union into an IoU respect
    equality of rationals. *)
Lemma guarded_quotient_comp i i' u u' :
  (i == i')%Q → (u == u')%Q →
  num_eq (if js_eq (Num u) (Num 0) then Num 0 else js_div (Num i) (Num u))
         (if js_eq (Num u') (Num 0) then Num 0 else js_div (Num i') (Num u')).
Proof.
  intros Hi Hu. unfold js_eq, js_div, js_compare, Qsign.
  rewrite (Qcompare_comp _ _ Hu 0%Q 0%Q (Qeq_refl 0)).
  destruct (u' ?= 0)%Q eqn:E; simpl; try reflexivity; by rewrite Hi, Hu.
Qed.

Lemma quotient_comp i i' u u' :
  (i == i')%Q → (u == u')%Q → num_eq (js_div (Num i) (Num u)) (js_div (Num i') (Num u')).
Proof.
  intros Hi Hu. unfold js_div, Qsign.
  rewrite (Qcompare_comp _ _ Hu 0%Q 0%Q (Qeq_refl 0)),
          (Qcompare_comp _ _ Hi 0%Q 0%Q (Qeq_refl 0)).
  destruct (u' ?= 0)%Q eqn:E; simpl; try (by rewrite Hi, Hu).
  destruct (i' ?= 0)%Q; done.
Qed.

(** X1: the IoU does not depend on which of the two boxes comes first: on
    finite boxes [calculateIoU(a, b)] and [calculateIoU(b, a)] are the same
    number, in the batch evaluator and in the interactive export (which call it
    with the ground-truth box first and with the predicted box first). *)
Theorem calculateIoU_symmetric (a b : box) :
  finite_box a → finite_box b →
  num_eq (Evaluate.calculateIoU a b) (Evaluate.calculateIoU b a) ∧
  num_eq (DataExport.calculateIoU a b) (DataExport.calculateIoU b a).
Proof.
  intros (a1 & a2 & a3 & a4 & ->)%finite_box_qbox (b1 & b2 & b3 & b4 & ->)%finite_box_qbox.
  rewrite !export_calculateIoU_unfold. unfold Evaluate.calculateIoU.
  destruct (areas_overlap a1 a2 a3 a4 b1 b2 b3 b4) as [-> ->].
  destruct (areas_overlap b1 b2 b3 b4 a1 a2 a3 a4) as [-> ->].
  assert (Hi : (overlap a1 a3 b1 b3 * overlap a2 a4 b2 b4 ==
                overlap b1 b3 a1 a3 * overlap b2 b4 a2 a4)%Q).
  { by rewrite (overlap_sym a1 a3 b1 b3), (overlap_sym a2 a4 b2 b4). }
  split; [apply guarded_quotient_comp | apply quotient_comp]; try done; rewrite Hi; ring.
Qed.

(** The IoU of two finite boxes in both functions, by cases on the area [i]
    of the intersection: with [i = 0] the batch IoU is a zero and the export
    IoU a zero or NaN; with [i > 0] both are [i / u]. *)
Lemma calculateIoU_cases (a1 a2 a3 a4 b1 b2 b3 b4 : Q) :
  let i := (overlap a1 a3 b1 b3 * overlap a2 a4 b2 b4)%Q in
  let u := ((a3 + - a1) * (a4 + - a2) + (b3 + - b1) * (b4 + - b2) + - i)%Q in
  ((i == 0)%Q ∧
   (∃ q, Evaluate.calculateIoU (qbox a1 a2 a3 a4) (qbox b1 b2 b3 b4) = Num q ∧ (q == 0)%Q) ∧
   (DataExport.calculateIoU (qbox a1 a2 a3 a4) (qbox b1 b2 b3 b4) = NaN ∨
    ∃ q, DataExport.calculateIoU (qbox a1 a2 a3 a4) (qbox b1 b2 b3 b4) = Num q ∧ (q == 0)%Q)) ∨
  ((0 < i)%Q ∧ (i <= u)%Q ∧
   Evaluate.calculateIoU (qbox a1 a2 a3 a4) (qbox b1 b2 b3 b4) = Num (i / u) ∧
   DataExport.calculateIoU (qbox a1 a2 a3 a4) (qbox b1 b2 b3 b4) = Num (i / u)).
Proof.
  intros i u. rewrite export_calculateIoU_unfold. unfold Evaluate.calculateIoU.
  destruct (areas_overlap a1 a2 a3 a4 b1 b2 b3 b4) as [-> ->].
  destruct (inter_union_bounds a1 a2 a3 a4 b1 b2 b3 b4) as [Hi Hiu].
  cbv zeta in Hi, Hiu. fold (overlap a1 a3 b1 b3) (overlap a2 a4 b2 b4) in Hi, Hiu.
  fold i in Hi, Hiu |- *. fold u in Hiu |- *.
  unfold js_eq, js_div, js_compare, Qsign.
  destruct Hiu as [Hz | [Hp Hle]].
  - left. split; [done|]. rewrite (proj1 (Qeq_alt _ _) Hz).
    destruct (u ?= 0)%Q eqn:E; simpl.
    + split; [exists 0%Q; split; [done | reflexivity] | by left].
    + split; [|right]; (eexists; split; [done|]); rewrite Hz; unfold Qdiv; ring.
    + split; [|right]; (eexists; split; [done|]); rewrite Hz; unfold Qdiv; ring.
  - right. assert (E : (u ?= 0)%Q = Gt) by (apply Qgt_alt; lra).
    rewrite E. done.
Qed.

(** X4: although the export's [calculateIoU] is [NaN] where the batch
    evaluator's is 0, the two tests that the matchers make give the same answer
    on finite boxes: [iou > bestIoU] for every best so far that is not negative,
    and [iou >= 0.5]. *)
Theorem export_iou_tests_agree (a b : box) (best : Q) :
  finite_box a → finite_box b → (0 <= best)%Q →
  js_gt (DataExport.calculateIoU a b) (Num best) =
    js_gt (Evaluate.calculateIoU a b) (Num best) ∧
  js_ge (DataExport.calculateIoU a b) DataExport.iouThreshold =
    js_ge (Evaluate.calculateIoU a b) IOU_THRESHOLD.
Proof.
  intros (a1 & a2 & a3 & a4 & ->)%finite_box_qbox (b1 & b2 & b3 & b4 & ->)%finite_box_qbox
    Hbest.
  unfold DataExport.iouThreshold, IOU_THRESHOLD.
  destruct (calculateIoU_cases a1 a2 a3 a4 b1 b2 b3 b4)
    as [(Hz & (q & -> & Hq) & [-> | (q' & -> & Hq')]) | (Hp & Hle & -> & ->)];
    [| |done].
  - rewrite (proj2 (js_gt_Num_false q best)), (proj2 (js_ge_Num_false q (1 # 2))) by lra.
    done.
  - rewrite (proj2 (js_gt_Num_false q best)), (proj2 (js_ge_Num_false q (1 # 2))),
      (proj2 (js_gt_Num_false q' best)), (proj2 (js_ge_Num_false q' (1 # 2))) by lra.
    done.
Qed.

Lemma calculateIoU_symmetric_witness :
  num_eq (Evaluate.calculateIoU Samples.swapped_box Samples.square_box)
         (Evaluate.calculateIoU Samples.square_box Samples.swapped_box) ∧
  num_eq (DataExport.calculateIoU Samples.swapped_box Samples.square_box)
         (DataExport.calculateIoU Samples.square_box Samples.swapped_box).
Proof.
  apply (calculateIoU_symmetric Samples.swapped_box Samples.square_box); repeat split.
Defined.

Lemma export_iou_tests_agree_witness :
  js_gt (DataExport.calculateIoU Samples.swapped_box Samples.square_box) (Num 0) =
    js_gt (Evaluate.calculateIoU Samples.swapped_box Samples.square_box) (Num 0) ∧
  js_ge (DataExport.calculateIoU Samples.swapped_box Samples.square_box)
      DataExport.iouThreshold =
    js_ge (Evaluate.calculateIoU Samples.swapped_box Samples.square_box) IOU_THRESHOLD.
Proof.
  apply (export_iou_tests_agree Samples.swapped_box Samples.square_box 0);
    [repeat split | repeat split | discriminate].
Defined.

(** The export's IoU of two finite boxes is NaN or a rational between 0 and
    1. *)
Lemma export_iou_cases (a b : box) :
  finite_box a → finite_box b →
  DataExport.calculateIoU a b = NaN ∨
  ∃ q, DataExport.calculateIoU a b = Num q ∧ (0 <= q)%Q ∧ (q <= 1)%Q.
Proof.
  intros (a1 & a2 & a3 & a4 & ->)%finite_box_qbox (b1 & b2 & b3 & b4 & ->)%finite_box_qbox.
  destruct (calculateIoU_cases a1 a2 a3 a4 b1 b2 b3 b4)
    as [(Hz & _ & [-> | (q & -> & Hq)]) | (Hp & Hle & _ & ->)]; [by left | right..].
  - exists q. split; [done | lra].
  - eexists. split; [done|]. cbv zeta in *. split.
    + apply Qle_shift_div_l; lra.
    + apply Qle_shift_div_r; lra.
Qed.

(** ** What the batch matcher finds *)

(** The scan either keeps its initial state or stops on a candidate, with
    that candidate's IoU as the best IoU. *)
Lemma pick_result_iou g U : ∀ st,
  fold_left (pick g) U st = st ∨
  ∃ k p, U !! k = Some ((fold_left (pick g) U st).2, p) ∧
         (fold_left (pick g) U st).1 = Evaluate.calculateIoU (Evaluate.bbox g) (Evaluate.bbox p).
Proof.
  induction U as [|c U IH] using rev_ind; intros st; [by left|].
  rewrite fold_left_app; simpl. unfold pick at 1 3 5.
  destruct (js_gt _ _).
  - right. exists (length U), c.2. simpl.
    rewrite lookup_app_r by lia. rewrite Nat.sub_diag. by destruct c.
  - destruct (IH st) as [-> | (k & p & Hk & Hiou)]; [by left|].
    right. exists k, p. split; [by apply lookup_app_l_Some | done].
Qed.

(** On finite boxes the best IoU of a scan is a rational that none of the
    candidates exceeds. *)
Lemma pick_max g U : ∀ b0 j0,
  finite_box (Evaluate.bbox g) →
  (∀ c, c ∈ U → finite_box (Evaluate.bbox c.2)) →
  ∃ b, (fold_left (pick g) U (Num b0, j0)).1 = Num b ∧ (b0 <= b)%Q ∧
       ∀ c q, c ∈ U →
         Evaluate.calculateIoU (Evaluate.bbox g) (Evaluate.bbox c.2) = Num q → (q <= b)%Q.
Proof.
  induction U as [|c U IH]; intros b0 j0 Hg HU; simpl.
  - exists b0. split; [done|]. split; [lra|]. by intros c q ?%elem_of_nil.
  - destruct (calculateIoU_finite (Evaluate.bbox g) (Evaluate.bbox c.2)) as (y & Hy & _);
      [done | apply HU; left |].
    unfold pick at 2. rewrite Hy. simpl.
    destruct (js_gt (Num y) (Num b0)) eqn:E.
    + apply js_gt_Num in E.
      destruct (IH y c.1 Hg) as (b & Hb & Hle & Hmax); [intros; apply HU; by right|].
      exists b. split; [done|]. split; [lra|].
      intros c' q [-> | Hin]%elem_of_cons Hq; [|by eapply Hmax].
      rewrite Hy in Hq. injection Hq as <-. done.
    + apply js_gt_Num_false in E.
      destruct (IH b0 j0 Hg) as (b & Hb & Hle & Hmax); [intros; apply HU; by right|].
      exists b. split; [done|]. split; [done|].
      intros c' q [-> | Hin]%elem_of_cons Hq; [|by eapply Hmax].
      rewrite Hy in Hq. injection Hq as <-. lra.
Qed.

Lemma unmatched_finite m preds i :
  (∀ l, l ∈ preds → finite_box (Evaluate.bbox l)) →
  ∀ c, c ∈ unmatched m i preds → finite_box (Evaluate.bbox c.2).
Proof. intros Hp [j p] Hc. apply Hp. by eapply unmatched_elem. Qed.

(** What one round of the loop over the ground-truth boxes does, on finite
    boxes: nothing, and then every candidate is below the threshold; or one
    match with the candidate of highest IoU, which reaches the threshold. *)
Lemma match_gtBox_cases preds st g :
  finite_box (Evaluate.bbox g) →
  (∀ l, l ∈ preds → finite_box (Evaluate.bbox l)) →
  (Evaluate.match_gtBox preds st g = st ∧
   ∀ c q, c ∈ unmatched st.2 0 preds →
     Evaluate.calculateIoU (Evaluate.bbox g) (Evaluate.bbox c.2) = Num q → (q < 1 # 2)%Q) ∨
  (∃ k j p b,
     unmatched st.2 0 preds !! k = Some (j, p) ∧
     Evaluate.match_gtBox preds st g = (st.1 + 1, {[j]} ∪ st.2) ∧
     Evaluate.calculateIoU (Evaluate.bbox g) (Evaluate.bbox p) = Num b ∧
     (1 # 2 <= b)%Q ∧
     ∀ c q, c ∈ unmatched st.2 0 preds →
       Evaluate.calculateIoU (Evaluate.bbox g) (Evaluate.bbox c.2) = Num q → (q <= b)%Q).
Proof.
  intros Hg Hp. destruct st as [tp m]. unfold Evaluate.match_gtBox, IOU_THRESHOLD. simpl.
  rewrite forEach_unmatched.
  destruct (pick_max g (unmatched m 0 preds) 0 (-1) Hg (unmatched_finite m preds 0 Hp))
    as (b & Hb & Hb0 & Hmax).
  destruct (pick_result_iou g (unmatched m 0 preds) (Num 0, -1)) as [Hinit | (k & p & Hk & Hiou)].
  - left. rewrite Hinit. rewrite (proj2 (js_ge_Num_false 0 (1 # 2))) by lra.
    split; [done|]. intros c q Hc Hq. rewrite Hinit in Hb. injection Hb as <-.
    specialize (Hmax c q Hc Hq). lra.
  - destruct (fold_left (pick g) (unmatched m 0 preds) (Num 0, -1)) as [b' j] eqn:Ef.
    simpl in *. subst b'. destruct (js_ge (Num b) (Num (1 # 2))) eqn:E.
    + right. apply js_ge_Num in E. exists k, j, p, b. by rewrite <- Hiou.
    + left. apply js_ge_Num_false in E. split; [done|].
      intros c q Hc Hq. specialize (Hmax c q Hc Hq). lra.
Qed.

Lemma match_boxes_none preds gts : ∀ st,
  (∀ l, l ∈ gts → finite_box (Evaluate.bbox l)) →
  (∀ l, l ∈ preds → finite_box (Evaluate.bbox l)) →
  (fold_left (Evaluate.match_gtBox preds) gts st).1 = st.1 →
  ∀ g c q, g ∈ gts → c ∈ unmatched st.2 0 preds →
    Evaluate.calculateIoU (Evaluate.bbox g) (Evaluate.bbox c.2) = Num q → (q < 1 # 2)%Q.
Proof.
  induction gts as [|g0 gts IH]; intros st Hg Hp Hsame g c q Hin; [by apply elem_of_nil in Hin|].
  simpl in Hsame.
  pose proof (match_boxes_bounds preds gts (Evaluate.match_gtBox preds st g0)) as [Hmono _].
  destruct (match_gtBox_cases preds st g0) as [[Hst Hlow] | (k & j & p & b & _ & Hst & _)];
    [apply Hg; left | done | |].
  - rewrite Hst in Hsame. apply elem_of_cons in Hin as [-> | Hin]; [by apply Hlow|].
    apply (IH st); [intros; apply Hg; by right | done..].
  - rewrite Hst in Hmono, Hsame. simpl in Hmono. lia.
Qed.

Lemma match_boxes_some preds gts : ∀ st,
  (∀ l, l ∈ gts → finite_box (Evaluate.bbox l)) →
  (∀ l, l ∈ preds → finite_box (Evaluate.bbox l)) →
  st.1 < (fold_left (Evaluate.match_gtBox preds) gts st).1 →
  ∃ g p b, g ∈ gts ∧ p ∈ preds ∧
    Evaluate.calculateIoU (Evaluate.bbox g) (Evaluate.bbox p) = Num b ∧ (1 # 2 <= b)%Q.
Proof.
  induction gts as [|g0 gts IH]; intros st Hg Hp Hmore; simpl in Hmore; [lia|].
  destruct (match_gtBox_cases preds st g0)
    as [[Hst _] | (k & j & p & b & Hk & _ & Hb & Hthr & _)]; [apply Hg; left | done | |].
  - rewrite Hst in Hmore. destruct (IH st) as (g & p & b & ? & ? & ? & ?);
      [intros; apply Hg; by right | done..|].
    exists g, p, b. split; [by right | done].
  - exists g0, p, b. split; [by left|]. split; [|done].
    eapply unmatched_elem, list_elem_of_lookup_2, Hk.
Qed.

Lemma unmatched_empty_elem l : ∀ i p, p ∈ l → ∃ j, (j, p) ∈ unmatched ∅ i l.
Proof.
  induction l as [|p0 l IH]; intros i p Hp; [by apply elem_of_nil in Hp|].
  simpl. rewrite decide_False by apply not_elem_of_empty.
  apply elem_of_cons in Hp as [-> | Hp].
  - exists i. by left.
  - destruct (IH (i + 1) p Hp) as [j Hj]. exists j. by right.
Qed.

(** X5: in the batch evaluator a category of an image has a true
    positive exactly when some ground-truth box and some predicted box of that
    category have an IoU of at least 0.5; the boxes are finite. *)
Theorem batch_match_iff_pair_reaches_threshold
    (gtData predData : Evaluate.document) (t : string) :
  t ∈ UI_TAGS →
  Forall (λ l, finite_box (Evaluate.bbox l)) (Evaluate.labels gtData) →
  Forall (λ l, finite_box (Evaluate.bbox l)) (Evaluate.labels predData) →
  ∃ m, obj_get t (Evaluate.evaluateSingleFile gtData predData) = Some m ∧
    (1 ≤ true_positives m ↔
     ∃ g p, g ∈ Evaluate.labels gtData ∧ p ∈ Evaluate.labels predData ∧
            Evaluate.tag g = t ∧ Evaluate.tag p = t ∧
            js_ge (Evaluate.calculateIoU (Evaluate.bbox g) (Evaluate.bbox p))
              IOU_THRESHOLD = true).
Proof.
  intros Ht Hgt Hpred. rewrite evaluateSingleFile_get, decide_True by done.
  rewrite Forall_forall in Hgt, Hpred.
  eexists; split; [done|]. simpl. unfold Evaluate.match_boxes, IOU_THRESHOLD.
  set (gts := filter (λ l, Evaluate.tag l = t) (Evaluate.labels gtData)).
  set (preds := filter (λ l, Evaluate.tag l = t) (Evaluate.labels predData)).
  assert (Hg : ∀ l, l ∈ gts → finite_box (Evaluate.bbox l)).
  { intros l [_ Hl]%list_elem_of_filter. by apply Hgt. }
  assert (Hp : ∀ l, l ∈ preds → finite_box (Evaluate.bbox l)).
  { intros l [_ Hl]%list_elem_of_filter. by apply Hpred. }
  split.
  - intros Htp. destruct (match_boxes_some preds gts (0, ∅) Hg Hp) as (g & p & b & Hgi & Hpi & Hb & Hthr);
      [simpl; lia|].
    apply list_elem_of_filter in Hgi as [? ?]. apply list_elem_of_filter in Hpi as [? ?].
    exists g, p. rewrite Hb. repeat split; try done. by apply js_ge_Num.
  - intros (g & p & Hgi & Hpi & Htg & Htp & Hthr).
    pose proof (match_boxes_count gts preds) as (H0 & _). cbv zeta in H0.
    unfold Evaluate.match_boxes in H0.
    destruct (decide ((fold_left (Evaluate.match_gtBox preds) gts (0, ∅)).1 = 0)) as [Hz | Hnz];
      [|lia].
    exfalso.
    destruct (calculateIoU_finite (Evaluate.bbox g) (Evaluate.bbox p)) as (q & Hq & _);
      [by apply Hgt | by apply Hpred |].
    rewrite Hq in Hthr. apply js_ge_Num in Hthr.
    assert (Hc : ∃ j, (j, p) ∈ unmatched ∅ 0 preds).
    { apply unmatched_empty_elem. by apply list_elem_of_filter. }
    destruct Hc as [j Hc].
    pose proof (match_boxes_none preds gts (0, ∅) Hg Hp Hz g (j, p) q) as Hlow.
    simpl in Hlow. specialize (Hlow ltac:(by apply list_elem_of_filter) Hc Hq). lra.
Qed.

Lemma unmatched_upper m l : ∀ i j p, (j, p) ∈ unmatched m i l → j < i + Z.of_nat (length l).
Proof.
  induction l as [|p0 l IH]; intros i j p; simpl; [by intros ?%elem_of_nil|].
  destruct (decide (i ∈ m)).
  - intros H%IH. lia.
  - intros [[= -> ->] | H%IH]%elem_of_cons; lia.
Qed.

(** One round of the loop, on any boxes: nothing, or a match with a
    predicted box that was not matched before. *)
Lemma match_gtBox_any preds st g :
  Evaluate.match_gtBox preds st g = st ∨
  ∃ k j p, unmatched st.2 0 preds !! k = Some (j, p) ∧
           Evaluate.match_gtBox preds st g = (st.1 + 1, {[j]} ∪ st.2).
Proof.
  destruct st as [tp m]. unfold Evaluate.match_gtBox, IOU_THRESHOLD; simpl.
  rewrite forEach_unmatched.
  destruct (pick_result g (unmatched m 0 preds) (Num 0, -1)) as [-> | (k & p & Hk)].
  - left. by rewrite (proj2 (js_ge_Num_false 0 (1 # 2))) by lra.
  - destruct (fold_left (pick g) (unmatched m 0 preds) (Num 0, -1)) as [b j].
    simpl in Hk. destruct (js_ge b (Num (1 # 2))); [right | by left]. eauto.
Qed.

(** X6: at the end of the batch matcher the set [matchedPredIndices]
    has as many elements as there are true positives, and each of them is a
    position of the list of predicted boxes: no predicted box is counted
    twice. *)
Theorem matched_indices_count (gtBoxes predBoxes : list Evaluate.label) :
  Z.of_nat (size (Evaluate.match_boxes gtBoxes predBoxes).2) =
    (Evaluate.match_boxes gtBoxes predBoxes).1 ∧
  ∀ i, i ∈ (Evaluate.match_boxes gtBoxes predBoxes).2 →
       0 ≤ i < Z.of_nat (length predBoxes).
Proof.
  unfold Evaluate.match_boxes.
  assert (Hgen : ∀ gts st,
    Z.of_nat (size st.2) = st.1 →
    (∀ i, i ∈ st.2 → 0 ≤ i < Z.of_nat (length predBoxes)) →
    Z.of_nat (size (fold_left (Evaluate.match_gtBox predBoxes) gts st).2) =
      (fold_left (Evaluate.match_gtBox predBoxes) gts st).1 ∧
    ∀ i, i ∈ (fold_left (Evaluate.match_gtBox predBoxes) gts st).2 →
         0 ≤ i < Z.of_nat (length predBoxes)).
  { induction gts as [|g gts IH]; intros st Hsize Hrange; simpl; [done|].
    apply IH; destruct (match_gtBox_any predBoxes st g) as [-> | (k & j & p & Hk & ->)];
      try done; simpl.
    - apply list_elem_of_lookup_2 in Hk.
      destruct (unmatched_bounds _ _ _ _ _ Hk) as [_ Hout].
      rewrite size_union, size_singleton by (by apply disjoint_singleton_l). lia.
    - apply list_elem_of_lookup_2 in Hk.
      destruct (unmatched_bounds _ _ _ _ _ Hk) as [Hlo _].
      pose proof (unmatched_upper _ _ _ _ _ Hk) as Hhi.
      intros i [->%elem_of_singleton | Hi]%elem_of_union; [lia | by apply Hrange]. }
  apply Hgen; [done | by intros i ?%not_elem_of_empty].
Qed.

Lemma batch_match_iff_pair_reaches_threshold_witness :
  ∃ m, obj_get "Button"
         (Evaluate.evaluateSingleFile (Samples.doc Samples.thirds_manual)
            (Samples.doc Samples.thirds_predicted)) = Some m ∧
    (1 ≤ true_positives m ↔
     ∃ g p, g ∈ Evaluate.labels (Samples.doc Samples.thirds_manual) ∧
            p ∈ Evaluate.labels (Samples.doc Samples.thirds_predicted) ∧
            Evaluate.tag g = "Button"%string ∧ Evaluate.tag p = "Button"%string ∧
            js_ge (Evaluate.calculateIoU (Evaluate.bbox g) (Evaluate.bbox p))
              IOU_THRESHOLD = true).
Proof.
  apply (batch_match_iff_pair_reaches_threshold (Samples.doc Samples.thirds_manual)
           (Samples.doc Samples.thirds_predicted) "Button").
  - by apply (bool_decide_unpack _).
  - repeat constructor.
  - repeat constructor.
Defined.

(** ** A category present on one side only *)

Lemma zero_rate n : num_eq (Evaluate.precision_of 0 n) (Num 0).
Proof.
  unfold Evaluate.precision_of. destruct (0 <? 0 + n) eqn:E; [|reflexivity].
  rewrite js_div_of_Z by lia. simpl. unfold Qdiv. ring.
Qed.

Lemma zero_f1 p r : (p == 0)%Q → (r == 0)%Q → Evaluate.f1_of (Num p) (Num r) = Num 0.
Proof.
  intros Hp Hr. unfold Evaluate.f1_of. simpl.
  rewrite (proj2 (js_gt_Num_false (p + r) 0)); [done | lra].
Qed.

Lemma evaluateTag_nothing gtData predData t :
  (Evaluate.match_boxes
     (filter (λ l, Evaluate.tag l = t) (Evaluate.labels gtData))
     (filter (λ l, Evaluate.tag l = t) (Evaluate.labels predData))).1 = 0 →
  nothing_matched (Evaluate.evaluateTag gtData predData t).
Proof.
  intros Htp. unfold nothing_matched; simpl. rewrite !Htp, !Z.sub_0_r.
  split; [done|]. split; [done|]. split; [done|].
  pose proof (zero_rate (Z.of_nat (length
    (filter (λ l, Evaluate.tag l = t) (Evaluate.labels predData))))) as Hp.
  pose proof (zero_rate (Z.of_nat (length
    (filter (λ l, Evaluate.tag l = t) (Evaluate.labels gtData))))) as Hr.
  change (Evaluate.recall_of 0) with (Evaluate.precision_of 0).
  destruct (Evaluate.precision_of 0 (Z.of_nat (length (filter _ (Evaluate.labels predData)))))
    as [p| | |]; try done.
  destruct (Evaluate.precision_of 0 (Z.of_nat (length (filter _ (Evaluate.labels gtData)))))
    as [r| | |]; try done.
  split; [done|]. split; [done|]. by rewrite zero_f1.
Qed.

Lemma computeTag_nothing manualLabels predictedLabels t :
  DataExport.truePositives
    (DataExport.match_boxes
       (filter (λ l, DataExport.tag l = t) manualLabels)
       (filter (λ l, DataExport.tag l = t) predictedLabels)) = 0 →
  nothing_matched (DataExport.store (DataExport.computeTag manualLabels predictedLabels t)).
Proof.
  intros Htp. unfold nothing_matched; simpl. rewrite !Htp, !Z.sub_0_r.
  repeat split; try done.
Qed.

(** X8: a category that has no ground-truth box or no predicted box in
    an image has no true positive: its false positives are all its predicted
    boxes, its false negatives all its ground-truth boxes, and its three rates
    are 0, in the batch evaluator and in the interactive export. *)
Theorem one_side_empty_nothing_matched :
  (∀ gtData predData t m,
     obj_get t (Evaluate.evaluateSingleFile gtData predData) = Some m →
     ground_truth_count m = 0 ∨ predicted_count m = 0 →
     nothing_matched m) ∧
  (∀ manualLabels predictedLabels imageName ev t m,
     DataExport.generateEvaluation manualLabels predictedLabels imageName = Some ev →
     t ∈ DataExport.tags →
     obj_get t (DataExport.summary ev) = Some m →
     ground_truth_count m = 0 ∨ predicted_count m = 0 →
     nothing_matched m).
Proof.
  split.
  - intros gtData predData t m. rewrite evaluateSingleFile_get.
    destruct (decide (t ∈ UI_TAGS)); [|done].
    intros [= <-] Hempty. apply evaluateTag_nothing.
    pose proof (match_boxes_count
      (filter (λ l, Evaluate.tag l = t) (Evaluate.labels gtData))
      (filter (λ l, Evaluate.tag l = t) (Evaluate.labels predData))) as H.
    cbv zeta in H. simpl in Hempty. lia.
  - intros manualLabels predictedLabels imageName ev t m Hev Ht.
    rewrite (generateEvaluation_get _ _ _ _ _ Hev Ht).
    intros [= <-] Hempty. apply computeTag_nothing.
    pose proof (export_match_boxes_count
      (filter (λ l, DataExport.tag l = t) manualLabels)
      (filter (λ l, DataExport.tag l = t) predictedLabels)) as H.
    simpl in Hempty. lia.
Qed.

Lemma one_side_empty_nothing_matched_witness :
  nothing_matched
    (Evaluate.evaluateTag (Samples.doc Samples.thirds_manual)
       (Samples.doc []) "Button") ∧
  nothing_matched
    (DataExport.store
       (DataExport.computeTag Samples.thirds_manual Samples.thirds_predicted "Input")).
Proof.
  split.
  - apply (proj1 one_side_empty_nothing_matched (Samples.doc Samples.thirds_manual)
             (Samples.doc []) "Button"); [reflexivity | right; reflexivity].
  - eapply (proj2 one_side_empty_nothing_matched Samples.thirds_manual
              Samples.thirds_predicted "sample.png" _ "Input").
    + reflexivity.
    + by apply (bool_decide_unpack _).
    + reflexivity.
    + left. reflexivity.
Defined.

(** ** What the export matcher finds, and its overall entry *)

(** The best match of the export's scan, when there is one, is a
    ground-truth box that is not matched yet and whose IoU with the predicted
    box passes the threshold test. *)
Lemma scan_gt_match m predBox gts : ∀ st bm,
  (fold_left (DataExport.scan_gt m predBox) gts st).2 = Some bm →
  st.2 = Some bm ∨
  (bm ∈ gts ∧ (DataExport.id bm ∉ m) ∧
   js_ge (DataExport.calculateIoU (DataExport.bbox predBox) (DataExport.bbox bm))
     DataExport.iouThreshold = true).
Proof.
  induction gts as [|g gts IH] using rev_ind; intros st bm; [by left|].
  rewrite fold_left_app; simpl. unfold DataExport.scan_gt at 1.
  destruct (decide (DataExport.id g ∈ m)) as [Hin | Hout].
  - intros [? | (? & ? & ?)]%IH; [by left | right]. set_solver.
  - destruct (js_gt _ _ && js_ge _ _) eqn:E.
    + simpl. intros [= <-]. right. apply andb_true_iff in E as [_ E]. set_solver.
    + intros [? | (? & ? & ?)]%IH; [by left | right]. set_solver.
Qed.

(** On finite boxes the scan finds a match as soon as one ground-truth box
    that is not matched yet passes the threshold test. *)
Lemma scan_gt_finds m predBox gts :
  finite_box (DataExport.bbox predBox) →
  (∀ g, g ∈ gts → finite_box (DataExport.bbox g)) →
  (∃ b, (fold_left (DataExport.scan_gt m predBox) gts (Num 0, None)).1 = Num b ∧
        (0 <= b)%Q ∧
        ((fold_left (DataExport.scan_gt m predBox) gts (Num 0, None)).2 = None → (b == 0)%Q)) ∧
  ∀ g, g ∈ gts → DataExport.id g ∉ m →
    js_ge (DataExport.calculateIoU (DataExport.bbox predBox) (DataExport.bbox g))
      DataExport.iouThreshold = true →
    is_Some (fold_left (DataExport.scan_gt m predBox) gts (Num 0, None)).2.
Proof.
  intros Hp. induction gts as [|g gts IH] using rev_ind; intros Hg.
  - split; [|by intros g ?%elem_of_nil].
    exists 0%Q. split; [done|]. split; [lra | intros; reflexivity].
  - assert (Hgts : ∀ g0, g0 ∈ gts → finite_box (DataExport.bbox g0)).
    { intros; apply Hg, elem_of_app; by left. }
    destruct (IH Hgts) as [(b & Hb & Hb0 & Hnone) Hfind].
    rewrite fold_left_app; simpl. unfold DataExport.scan_gt at 1 3 5.
    destruct (fold_left (DataExport.scan_gt m predBox) gts (Num 0, None)) as [best bm] eqn:Ef.
    simpl in *. subst best.
    destruct (decide (DataExport.id g ∈ m)) as [Hin | Hout].
    + split; [exists b; done|].
      intros g' [Hin' | ->%list_elem_of_singleton]%elem_of_app Hid Hthr; [by eapply Hfind | done].
    + assert (Hfg : finite_box (DataExport.bbox g)).
      { apply Hg, elem_of_app. right. by left. }
      destruct (export_iou_cases _ _ Hp Hfg) as [Hnan | (q & Hq & Hq0 & Hq1)].
      * rewrite Hnan. simpl. split; [exists b; done|].
        intros g' [Hin' | ->%list_elem_of_singleton]%elem_of_app Hid Hthr; [by eapply Hfind|].
        by rewrite Hnan in Hthr.
      * rewrite Hq. unfold DataExport.iouThreshold.
        destruct (js_gt (Num q) (Num b)) eqn:Egt, (js_ge (Num q) (Num (1 # 2))) eqn:Ege; simpl.
        -- apply js_gt_Num in Egt. split; [exists q; repeat split; try lra; done|].
           intros; by eexists.
        -- split; [exists b; done|].
           intros g' [Hin' | ->%list_elem_of_singleton]%elem_of_app Hid Hthr; [by eapply Hfind|].
           rewrite Hq in Hthr. unfold DataExport.iouThreshold in Hthr. congruence.
        -- apply js_gt_Num_false in Egt. apply js_ge_Num in Ege.
           split; [exists b; done|].
           intros g' Hin' Hid Hthr. destruct bm; [by eexists|].
           specialize (Hnone eq_refl). lra.
        -- split; [exists b; done|].
           intros g' [Hin' | ->%list_elem_of_singleton]%elem_of_app Hid Hthr; [by eapply Hfind|].
           rewrite Hq in Hthr. unfold DataExport.iouThreshold in Hthr. congruence.
Qed.

Lemma export_match_boxes_mono gts preds : ∀ st,
  DataExport.truePositives st ≤
  DataExport.truePositives (fold_left (DataExport.match_predBox gts) preds st).
Proof.
  induction preds as [|p preds IH]; intros st; simpl; [lia|].
  etrans; [|apply IH]. unfold DataExport.match_predBox.
  destruct (fold_left _ gts _).2; simpl; lia.
Qed.

Lemma export_match_boxes_none gts preds : ∀ st,
  (∀ g, g ∈ gts → finite_box (DataExport.bbox g)) →
  (∀ p, p ∈ preds → finite_box (DataExport.bbox p)) →
  DataExport.truePositives (fold_left (DataExport.match_predBox gts) preds st) =
    DataExport.truePositives st →
  ∀ p g, p ∈ preds → g ∈ gts → DataExport.id g ∉ DataExport.matchedGT st →
    js_ge (DataExport.calculateIoU (DataExport.bbox p) (DataExport.bbox g))
      DataExport.iouThreshold = false.
Proof.
  induction preds as [|p0 preds IH]; intros st Hg Hp Hsame p g Hin;
    [by apply elem_of_nil in Hin|].
  simpl in Hsame.
  pose proof (export_match_boxes_mono gts preds (DataExport.match_predBox gts st p0)) as Hmono.
  destruct (scan_gt_finds (DataExport.matchedGT st) p0 gts) as [_ Hfind];
    [apply Hp; left | done |].
  unfold DataExport.match_predBox in *.
  destruct (fold_left (DataExport.scan_gt (DataExport.matchedGT st) p0) gts (Num 0, None)).2
    as [bm|] eqn:Escan.
  - simpl in Hmono. lia.
  - intros Hgin Hid. apply elem_of_cons in Hin as [-> | Hin].
    + apply not_true_is_false. intros Hthr.
      destruct (Hfind g Hgin Hid Hthr) as [? [=]].
    + apply (IH st); try done. intros; apply Hp; by right.
Qed.

Lemma export_match_boxes_some gts preds : ∀ st,
  DataExport.truePositives st <
    DataExport.truePositives (fold_left (DataExport.match_predBox gts) preds st) →
  ∃ p g, p ∈ preds ∧ g ∈ gts ∧
    js_ge (DataExport.calculateIoU (DataExport.bbox p) (DataExport.bbox g))
      DataExport.iouThreshold = true.
Proof.
  induction preds as [|p0 preds IH]; intros st Hmore; simpl in Hmore; [lia|].
  unfold DataExport.match_predBox in Hmore at 2.
  destruct (fold_left (DataExport.scan_gt (DataExport.matchedGT st) p0) gts (Num 0, None)).2
    as [bm|] eqn:Escan.
  - apply scan_gt_match in Escan as [[=] | (Hbm & _ & Hthr)].
    exists p0, bm. split; [by left | done].
  - destruct (IH st Hmore) as (p & g & ? & ? & ?). exists p, g. split; [by right | done].
Qed.

(** X9: in the interactive export a category has a true positive
    exactly when some predicted box and some manual box of that category have an
    IoU of at least 0.5; the boxes are finite. *)
Theorem export_match_iff_pair_reaches_threshold
    (manualLabels predictedLabels : list DataExport.BoundingBox)
    (imageName : string) (ev : DataExport.evaluation) (t : string) :
  DataExport.generateEvaluation manualLabels predictedLabels imageName = Some ev →
  t ∈ DataExport.tags →
  Forall (λ l, finite_box (DataExport.bbox l)) manualLabels →
  Forall (λ l, finite_box (DataExport.bbox l)) predictedLabels →
  ∃ m, obj_get t (DataExport.summary ev) = Some m ∧
    (1 ≤ true_positives m ↔
     ∃ g p, g ∈ manualLabels ∧ p ∈ predictedLabels ∧
            DataExport.tag g = t ∧ DataExport.tag p = t ∧
            js_ge (DataExport.calculateIoU (DataExport.bbox p) (DataExport.bbox g))
              DataExport.iouThreshold = true).
Proof.
  intros Hev Ht Hgt Hpred. rewrite (generateEvaluation_get _ _ _ _ _ Hev Ht).
  rewrite Forall_forall in Hgt, Hpred.
  eexists; split; [done|]. simpl. unfold DataExport.match_boxes.
  set (gts := filter (λ l, DataExport.tag l = t) manualLabels).
  set (preds := filter (λ l, DataExport.tag l = t) predictedLabels).
  set (st0 := {| DataExport.truePositives := 0; DataExport.matchedGT := ∅;
                 DataExport.matchedPred := ∅ |}).
  split.
  - intros Htp. destruct (export_match_boxes_some gts preds st0) as (p & g & Hp & Hg & Hthr);
      [simpl; lia|].
    apply list_elem_of_filter in Hg as [? ?]. apply list_elem_of_filter in Hp as [? ?].
    by exists g, p.
  - intros (g & p & Hgi & Hpi & Htg & Htp & Hthr).
    pose proof (export_match_boxes_mono gts preds st0) as Hmono. simpl in Hmono.
    destruct (decide (DataExport.truePositives
                        (fold_left (DataExport.match_predBox gts) preds st0) = 0))
      as [Hz | Hnz]; [|lia].
    exfalso.
    assert (Hf : js_ge (DataExport.calculateIoU (DataExport.bbox p) (DataExport.bbox g))
                   DataExport.iouThreshold = false).
    { apply (export_match_boxes_none gts preds st0);
        [intros l [_ Hl]%list_elem_of_filter; by apply Hgt
        |intros l [_ Hl]%list_elem_of_filter; by apply Hpred
        |done
        |by apply list_elem_of_filter
        |by apply list_elem_of_filter
        |apply not_elem_of_empty]. }
    congruence.
Qed.

(** X10: the interactive export records a matched manual box by its
    [id], so the true positives of a category never exceed the number of
    distinct ids among its manual boxes: boxes that share an id are matched at
    most once between them. *)
Theorem export_true_positives_distinct_ids
    (manualLabels predictedLabels : list DataExport.BoundingBox)
    (imageName : string) (ev : DataExport.evaluation) (t : string) (m : TagMetrics) :
  DataExport.generateEvaluation manualLabels predictedLabels imageName = Some ev →
  t ∈ DataExport.tags →
  obj_get t (DataExport.summary ev) = Some m →
  true_positives m ≤
    Z.of_nat (size (list_to_set
      (DataExport.id <$> filter (λ l, DataExport.tag l = t) manualLabels) : gset string)).
Proof.
  intros Hev Ht. rewrite (generateEvaluation_get _ _ _ _ _ Hev Ht). intros [= <-]. simpl.
  pose proof (export_match_boxes_bounds
    (filter (λ l, DataExport.tag l = t) manualLabels)
    (filter (λ l, DataExport.tag l = t) predictedLabels)
    {| DataExport.truePositives := 0; DataExport.matchedGT := ∅;
       DataExport.matchedPred := ∅ |}) as H.
  cbv zeta in H. destruct H as (H1 & H2 & _); [done | apply empty_subseteq |].
  apply subseteq_size in H2. unfold DataExport.match_boxes. lia.
Qed.

Lemma export_true_positives_distinct_ids_witness :
  true_positives
    (DataExport.store (DataExport.computeTag twins_manual twins_predicted "Button")) ≤ 1.
Proof.
  eapply (export_true_positives_distinct_ids twins_manual twins_predicted "sample.png" _
            "Button").
  - reflexivity.
  - by apply (bool_decide_unpack _).
  - reflexivity.
Defined.

Lemma length_by_tag (ls : list DataExport.BoundingBox) :
  length ls =
  (length (filter (λ l, DataExport.tag l = "Button"%string) ls)
   + (length (filter (λ l, DataExport.tag l = "Input"%string) ls)
      + (length (filter (λ l, DataExport.tag l = "Radio"%string) ls)
         + (length (filter (λ l, DataExport.tag l = "Dropdown"%string) ls)
            + length (stray_labels ls)))))%nat.
Proof.
  unfold stray_labels, DataExport.tags.
  induction ls as [|l ls IH]; [done|].
  rewrite !filter_cons. simpl length at 1. rewrite IH.
  repeat case_decide; simpl; try lia; try congruence; exfalso.
  all: try (match goal with
            | H : ?x = _, Hn : ¬ (?x ∈ _) |- _ =>
                apply Hn; rewrite H; by apply (bool_decide_unpack _)
            end).
  match goal with Hin : _ ∈ _ |- _ =>
    repeat (apply elem_of_cons in Hin as [? | Hin]; [done|]); by apply elem_of_nil in Hin
  end.
Qed.

(** X11: in the document written by the export, the true positives, false
    positives and false negatives of [overall] are the sums over the four
    categories, while its [ground_truth_count] and [predicted_count] exceed
    the sums over the categories by exactly the number of manual, respectively
    predicted, labels whose tag is none of the four. *)
Theorem export_overall_counts
    (manualLabels predictedLabels : list DataExport.BoundingBox)
    (imageName : string) (ev : DataExport.evaluation) :
  DataExport.generateEvaluation manualLabels predictedLabels imageName = Some ev →
  ∃ o, obj_get "overall" (DataExport.summary ev) = Some o ∧
    true_positives o = category_total true_positives (DataExport.summary ev) ∧
    false_positives o = category_total false_positives (DataExport.summary ev) ∧
    false_negatives o = category_total false_negatives (DataExport.summary ev) ∧
    ground_truth_count o =
      category_total ground_truth_count (DataExport.summary ev)
      + Z.of_nat (length (stray_labels manualLabels)) ∧
    predicted_count o =
      category_total predicted_count (DataExport.summary ev)
      + Z.of_nat (length (stray_labels predictedLabels)).
Proof.
  intros Hev.
  pose proof (λ t Ht, generateEvaluation_get _ _ _ _ t Hev Ht) as Hget.
  assert (Ho : obj_get "overall" (DataExport.summary ev) =
               Some (DataExport.store
                 (DataExport.overallOf manualLabels predictedLabels
                    (DataExport.summaryTags manualLabels predictedLabels)))).
  { revert Hev. unfold DataExport.generateEvaluation. destruct (_ || _); [done|].
    intros Hev. apply (inj Some) in Hev. subst ev. apply obj_get_set_eq. }
  eexists. split; [exact Ho|].
  unfold category_total, UI_TAGS. cbn [foldr].
  rewrite !Hget by (by apply (bool_decide_unpack _)).
  pose proof (length_by_tag manualLabels) as Hm.
  pose proof (length_by_tag predictedLabels) as Hp.
  unfold DataExport.overallOf, DataExport.reduce_sum. simpl.
  repeat split; lia.
Qed.

Lemma export_match_iff_pair_reaches_threshold_witness :
  ∃ ev,
    DataExport.generateEvaluation Samples.thirds_manual Samples.thirds_predicted
      "sample.png" = Some ev ∧
    ∃ m, obj_get "Button" (DataExport.summary ev) = Some m ∧
      (1 ≤ true_positives m ↔
       ∃ g p, g ∈ Samples.thirds_manual ∧ p ∈ Samples.thirds_predicted ∧
              DataExport.tag g = "Button"%string ∧ DataExport.tag p = "Button"%string ∧
              js_ge (DataExport.calculateIoU (DataExport.bbox p) (DataExport.bbox g))
                DataExport.iouThreshold = true).
Proof.
  eexists.
  refine ((λ H, conj H (export_match_iff_pair_reaches_threshold Samples.thirds_manual
    Samples.thirds_predicted "sample.png" _ "Button" H _ _ _)) _).
  - by apply (bool_decide_unpack _).
  - repeat constructor.
  - repeat constructor.
  - reflexivity.
Defined.

Lemma export_overall_counts_witness :
  ∃ ev,
    DataExport.generateEvaluation Samples.stray_manual Samples.stray_predicted
      "sample.png" = Some ev ∧
    ∃ o, obj_get "overall" (DataExport.summary ev) = Some o ∧
      true_positives o = category_total true_positives (DataExport.summary ev) ∧
      false_positives o = category_total false_positives (DataExport.summary ev) ∧
      false_negatives o = category_total false_negatives (DataExport.summary ev) ∧
      ground_truth_count o =
        category_total ground_truth_count (DataExport.summary ev)
        + Z.of_nat (length (stray_labels Samples.stray_manual)) ∧
      predicted_count o =
        category_total predicted_count (DataExport.summary ev)
        + Z.of_nat (length (stray_labels Samples.stray_predicted)).
Proof.
  eexists.
  refine ((λ H, conj H (export_overall_counts Samples.stray_manual Samples.stray_predicted
    "sample.png" _ H)) _).
  reflexivity.
Defined.

(** ** The aggregate as a sum *)

Lemma fold_tally_acc t l : ∀ acc,
  stats_add (fold_left (tally t) l acc) acc (fold_left (tally t) l Evaluate.zero_stats).
Proof.
  induction l as [|fm l IH] using rev_ind; intros acc.
  - unfold stats_add; simpl. lia.
  - rewrite !fold_left_app. cbn [fold_left]. destruct (IH acc) as (? & ? & ? & ? & ?).
    set (A := fold_left (tally t) l acc) in *.
    set (B := fold_left (tally t) l Evaluate.zero_stats) in *.
    unfold stats_add, tally. destruct (obj_get t fm); [|done].
    unfold Evaluate.add_stats.
    cbn [Evaluate.s_true_positives Evaluate.s_false_positives Evaluate.s_false_negatives
         Evaluate.s_ground_truth_count Evaluate.s_predicted_count].
    lia.
Qed.

Lemma sum_tag_app t l1 l2 :
  stats_add (Evaluate.sum_tag t (l1 ++ l2)) (Evaluate.sum_tag t l1) (Evaluate.sum_tag t l2).
Proof.
  unfold Evaluate.sum_tag. change (λ tagStats fileMetrics, _) with (tally t).
  rewrite fold_left_app. apply fold_tally_acc.
Qed.

(** The [Overall] entry of a batch report, spelled out. *)
Lemma aggregateResults_get_overall allMetrics :
  obj_get "Overall" (Evaluate.aggregateResults allMetrics) =
  Some (Evaluate.with_rates
          (fold_left Evaluate.add_stats
             (obj_values (Evaluate.aggregateTags allMetrics)) Evaluate.zero_stats)).
Proof. apply obj_get_set_eq. Qed.

(** X12: the five counters of every entry of the batch report are additive:
    the report of two lists of per-image metrics put together carries, for each
    category and for [Overall], the sums of the counters of the two separate
    reports. *)
Theorem aggregateResults_app (l1 l2 : list (object TagMetrics)) (t : string) :
  t ∈ UI_TAGS ++ ["Overall"%string] →
  ∃ m m1 m2,
    obj_get t (Evaluate.aggregateResults (l1 ++ l2)) = Some m ∧
    obj_get t (Evaluate.aggregateResults l1) = Some m1 ∧
    obj_get t (Evaluate.aggregateResults l2) = Some m2 ∧
    counts_add m m1 m2.
Proof.
  intros [Ht | ->%list_elem_of_singleton]%elem_of_app.
  - rewrite !aggregateResults_get_tag by done. eexists _, _, _. repeat split; try done;
      apply (sum_tag_app t l1 l2).
  - rewrite !aggregateResults_get_overall. eexists _, _, _.
    split; [done|]. split; [done|]. split; [done|].
    rewrite !aggregateTags_entries. unfold counts_add. simpl.
    pose proof (sum_tag_app "Button" l1 l2) as (? & ? & ? & ? & ?).
    pose proof (sum_tag_app "Input" l1 l2) as (? & ? & ? & ? & ?).
    pose proof (sum_tag_app "Radio" l1 l2) as (? & ? & ? & ? & ?).
    pose proof (sum_tag_app "Dropdown" l1 l2) as (? & ? & ? & ? & ?).
    repeat split; lia.
Qed.

Lemma aggregateResults_app_witness :
  ∃ m m1 m2,
    obj_get "Overall"
      (Evaluate.aggregateResults
         ([evaluate_pair (Samples.doc Samples.crossed_manual,
                          Samples.doc Samples.crossed_predicted)] ++
          [evaluate_pair (Samples.doc Samples.thirds_manual,
                          Samples.doc Samples.thirds_predicted)])) = Some m ∧
    obj_get "Overall"
      (Evaluate.aggregateResults
         [evaluate_pair (Samples.doc Samples.crossed_manual,
                         Samples.doc Samples.crossed_predicted)]) = Some m1 ∧
    obj_get "Overall"
      (Evaluate.aggregateResults
         [evaluate_pair (Samples.doc Samples.thirds_manual,
                         Samples.doc Samples.thirds_predicted)]) = Some m2 ∧
    counts_add m m1 m2.
Proof.
  apply (aggregateResults_app _ _ "Overall"). by apply (bool_decide_unpack _).
Defined.

(** X13: the report aggregated from a single image carries, for each of
    the four categories, exactly the entry that [evaluateSingleFile] computed
    for that image, rates included. *)
Theorem aggregateResults_single (gtData predData : Evaluate.document) (t : string) :
  t ∈ UI_TAGS →
  obj_get t (Evaluate.aggregateResults [Evaluate.evaluateSingleFile gtData predData]) =
  obj_get t (Evaluate.evaluateSingleFile gtData predData).
Proof.
  intros Ht. rewrite aggregateResults_get_tag, evaluateSingleFile_get, decide_True by done.
  unfold Evaluate.sum_tag. cbn [fold_left].
  rewrite evaluateSingleFile_get, decide_True by done. done.
Qed.

Lemma aggregateResults_single_witness :
  obj_get "Button"
    (Evaluate.aggregateResults
       [Evaluate.evaluateSingleFile (Samples.doc Samples.crossed_manual)
          (Samples.doc Samples.crossed_predicted)]) =
  obj_get "Button"
    (Evaluate.evaluateSingleFile (Samples.doc Samples.crossed_manual)
       (Samples.doc Samples.crossed_predicted)).
Proof. apply aggregateResults_single. by apply (bool_decide_unpack _). Defined.

(** X14: a per-image metrics object without an entry for any of the four
    categories (whatever other keys it has) contributes nothing: the report is
    the one of the list without it. *)
Theorem aggregateResults_skips_missing
    (before after : list (object TagMetrics)) (fileMetrics : object TagMetrics) :
  (∀ t, t ∈ UI_TAGS → obj_get t fileMetrics = None) →
  Evaluate.aggregateResults (before ++ fileMetrics :: after) =
  Evaluate.aggregateResults (before ++ after).
Proof.
  intros Hnone. unfold Evaluate.aggregateResults.
  assert (Evaluate.aggregateTags (before ++ fileMetrics :: after) =
          Evaluate.aggregateTags (before ++ after)) as ->; [|done].
  rewrite !aggregateTags_entries. apply list_fmap_ext.
  intros _ t Ht%list_elem_of_lookup_2. do 2 f_equal.
  unfold Evaluate.sum_tag. rewrite !fold_left_app. simpl. by rewrite (Hnone t Ht).
Qed.

Lemma aggregateResults_skips_missing_witness :
  Evaluate.aggregateResults
    ([] ++ [("Checkbox"%string, Evaluate.with_rates Evaluate.zero_stats)] :: []) =
  Evaluate.aggregateResults ([] ++ []).
Proof.
  apply (aggregateResults_skips_missing [] []).
  intros t Ht. unfold UI_TAGS in Ht.
  repeat (apply elem_of_cons in Ht as [-> | Ht]; [reflexivity|]).
  by apply elem_of_nil in Ht.
Defined.

(** ** Counters and rates of the reports *)

Lemma ratio_unit a b :
  0 ≤ a → a ≤ b → 0 < b → (0 <= inject_Z a / inject_Z b <= 1)%Q.
Proof.
  intros Ha Hab Hb.
  assert (inject_Z 0 <= inject_Z a)%Q as Ha' by (by rewrite <- Zle_Qle).
  assert (inject_Z a <= inject_Z b)%Q as Hab' by (by rewrite <- Zle_Qle).
  assert (inject_Z 0 < inject_Z b)%Q as Hb' by (by rewrite <- Zlt_Qlt).
  change (inject_Z 0) with 0%Q in *.
  split.
  - apply Qle_shift_div_l; [done | lra].
  - apply Qle_shift_div_r; [done | lra].
Qed.

Lemma precision_spec_unit tp fp :
  0 ≤ tp → 0 ≤ fp → (0 <= Reference.precision_spec tp fp <= 1)%Q.
Proof.
  intros Htp Hfp. unfold Reference.precision_spec.
  destruct (0 <? tp + fp) eqn:E; [|lra].
  apply Z.ltb_lt in E. apply ratio_unit; lia.
Qed.

Lemma recall_spec_unit tp fn :
  0 ≤ tp → 0 ≤ fn → (0 <= Reference.recall_spec tp fn <= 1)%Q.
Proof. apply precision_spec_unit. Qed.

Lemma f1_spec_unit p r :
  (0 <= p <= 1)%Q → (0 <= r <= 1)%Q → (0 <= Reference.f1_spec p r <= 1)%Q.
Proof.
  intros Hp Hr. unfold Reference.f1_spec.
  destruct (0 ?= p + r)%Q eqn:E; try lra.
  apply Qlt_alt in E. split.
  - apply Qle_shift_div_l; [done | nra].
  - apply Qle_shift_div_r; [done | nra].
Qed.

Lemma rates_of_counts_unit m :
  0 ≤ true_positives m → 0 ≤ false_positives m → 0 ≤ false_negatives m →
  Reference.rates_of_counts m → unit_rates m.
Proof.
  intros Htp Hfp Hfn (Hp & Hr & Hf). cbv zeta in *.
  pose proof (precision_spec_unit _ _ Htp Hfp). pose proof (recall_spec_unit _ _ Htp Hfn).
  split; [by eexists | split; [by eexists|]].
  eexists. split; [done|]. by apply f1_spec_unit.
Qed.

Lemma sum_tag_sound t (allMetrics : list (object TagMetrics)) :
  Forall (λ fileMetrics, ∀ m, obj_get t fileMetrics = Some m → counts_sound m) allMetrics →
  stats_sound (Evaluate.sum_tag t allMetrics).
Proof.
  unfold Evaluate.sum_tag. change (λ tagStats fileMetrics, _) with (tally t).
  induction allMetrics as [|fm l IH] using rev_ind; intros Hall.
  - unfold stats_sound. simpl. lia.
  - rewrite Forall_app, Forall_singleton in Hall. destruct Hall as [Hl Hfm].
    rewrite fold_left_app. cbn [fold_left]. specialize (IH Hl).
    set (A := fold_left (tally t) l Evaluate.zero_stats) in *.
    unfold tally. destruct (obj_get t fm) as [m|]; [|done].
    destruct (Hfm m eq_refl) as [(? & ? & ? & ? & ?) ?].
    destruct IH as (? & ? & ? & ? & ?).
    unfold stats_sound, Evaluate.add_stats.
    cbn [Evaluate.s_true_positives Evaluate.s_false_positives Evaluate.s_false_negatives
         Evaluate.s_ground_truth_count Evaluate.s_predicted_count].
    lia.
Qed.

Lemma evaluate_pair_sound t pairs :
  Forall (λ fileMetrics, ∀ m, obj_get t fileMetrics = Some m → counts_sound m)
    (evaluate_pair <$> pairs).
Proof.
  apply Forall_fmap, Forall_forall. intros [g p] _ m. unfold compose, evaluate_pair.
  cbn [fst snd]. rewrite evaluateSingleFile_get. destruct (decide _); [|done]. intros [= <-].
  split; [apply evaluateTag_consistent|]. simpl.
  apply (match_boxes_count
    (filter (λ l, Evaluate.tag l = t) (Evaluate.labels g))
    (filter (λ l, Evaluate.tag l = t) (Evaluate.labels p))).
Qed.

Lemma with_rates_sound s : stats_sound s → counts_sound (Evaluate.with_rates s).
Proof.
  intros (? & ? & ? & ? & ?). unfold counts_sound, Reference.consistent_counts. simpl. lia.
Qed.

Lemma batch_report_sound pairs t m :
  obj_get t (Evaluate.aggregateResults (evaluate_pair <$> pairs)) = Some m →
  counts_sound m.
Proof.
  pose proof (λ t, sum_tag_sound t _ (evaluate_pair_sound t pairs)) as Hs.
  unfold Evaluate.aggregateResults.
  destruct (decide ("Overall"%string = t)) as [<- | Hne].
  - rewrite obj_get_set_eq. intros Hm. apply (inj Some) in Hm. subst m.
    apply with_rates_sound. rewrite aggregateTags_entries.
    destruct (Hs "Button"%string) as (? & ? & ? & ? & ?).
    destruct (Hs "Input"%string) as (? & ? & ? & ? & ?).
    destruct (Hs "Radio"%string) as (? & ? & ? & ? & ?).
    destruct (Hs "Dropdown"%string) as (? & ? & ? & ? & ?).
    unfold stats_sound. simpl. lia.
  - rewrite obj_get_set_ne, aggregateTags_entries, obj_get_fmap by done.
    destruct (decide (t ∈ UI_TAGS)); [|done]. intros Hm. apply (inj Some) in Hm. subst m.
    apply with_rates_sound, Hs.
Qed.

(** X15: the invariant of a match outcome survives aggregation: in the
    report over any list of evaluated pairs, every entry ([Overall] included)
    has [ground_truth_count = true_positives + false_negatives],
    [predicted_count = true_positives + false_positives], and none of its
    counters is negative. *)
Theorem batch_report_counts_consistent
    (pairs : list (Evaluate.document * Evaluate.document)) (t : string) (m : TagMetrics) :
  obj_get t (Evaluate.aggregateResults (evaluate_pair <$> pairs)) = Some m →
  Reference.consistent_counts m ∧ 0 ≤ true_positives m.
Proof. apply batch_report_sound. Qed.

Lemma batch_report_counts_consistent_witness :
  ∃ m,
    obj_get "Overall"
      (Evaluate.aggregateResults
         (evaluate_pair <$>
            [(Samples.doc Samples.crossed_manual, Samples.doc Samples.crossed_predicted);
             (Samples.doc Samples.thirds_manual, Samples.doc Samples.thirds_predicted)]))
      = Some m ∧
    Reference.consistent_counts m ∧ 0 ≤ true_positives m.
Proof.
  eexists.
  refine ((λ H, conj H (batch_report_counts_consistent
    [(Samples.doc Samples.crossed_manual, Samples.doc Samples.crossed_predicted);
     (Samples.doc Samples.thirds_manual, Samples.doc Samples.thirds_predicted)]
    "Overall" _ H)) _).
  reflexivity.
Defined.

(** X16: precision, recall and F1 of every entry of the batch evaluator,
    per image and in the report aggregated over evaluated pairs, are numbers
    between 0 and 1. *)
Theorem batch_rates_within_unit
    (gtData predData : Evaluate.document)
    (pairs : list (Evaluate.document * Evaluate.document)) (t : string) (m : TagMetrics) :
  obj_get t (Evaluate.evaluateSingleFile gtData predData) = Some m ∨
  obj_get t (Evaluate.aggregateResults (evaluate_pair <$> pairs)) = Some m →
  unit_rates m.
Proof.
  intros [Hm | Hm].
  - rewrite evaluateSingleFile_get in Hm. destruct (decide _); [|done].
    injection Hm as <-.
    destruct (evaluateTag_consistent gtData predData t) as (_ & _ & _ & ? & ?).
    apply rates_of_counts_unit; try done; [|apply evaluateTag_rates].
    apply (match_boxes_count
      (filter (λ l, Evaluate.tag l = t) (Evaluate.labels gtData))
      (filter (λ l, Evaluate.tag l = t) (Evaluate.labels predData))).
  - destruct (batch_report_sound _ _ _ Hm) as [(_ & _ & _ & ? & ?) ?].
    destruct (aggregateResults_get _ _ _ Hm) as [stats ->].
    apply rates_of_counts_unit; try done. apply with_rates_rates.
Qed.

Lemma batch_rates_within_unit_witness :
  ∃ m,
    obj_get "Button"
      (Evaluate.evaluateSingleFile (Samples.doc Samples.thirds_manual)
         (Samples.doc Samples.thirds_predicted)) = Some m ∧
    unit_rates m.
Proof.
  eexists.
  refine ((λ H, conj H (batch_rates_within_unit (Samples.doc Samples.thirds_manual)
    (Samples.doc Samples.thirds_predicted) [] "Button" _ (or_introl H))) _).
  reflexivity.
Defined.

(** ** The printed report and the output of the driver *)

Lemma stdout_app out out' : stdout (out ++ out') = stdout out ++ stdout out'.
Proof. apply omap_app. Qed.

Lemma stdout_complaints out : Forall is_complaint out → stdout out = [].
Proof.
  induction 1 as [|c out Hc _ IH]; [done|].
  unfold stdout in *. destruct c; [done | by csimpl..].
Qed.

Lemma stdout_logs lines : stdout (Evaluate.console_log <$> lines) = lines.
Proof. induction lines as [|l lines IH]; [done|]. unfold stdout in *. csimpl. by rewrite IH. Qed.

Lemma report_rows_logs h report :
  ∃ lines, Evaluate.report_rows h report = Evaluate.console_log <$> lines ∧
    length lines =
      length (filter (λ t, is_Some (obj_get t report)) (UI_TAGS ++ ["Overall"%string])).
Proof.
  unfold Evaluate.report_rows.
  induction (UI_TAGS ++ ["Overall"%string]) as [|t ts (lines & IH & Hlen)].
  - by exists [].
  - cbn [flat_map]. rewrite filter_cons. destruct (obj_get t report) as [stats|] eqn:E.
    + exists (Evaluate.report_row h t stats :: lines). rewrite IH. split; [done|].
      rewrite decide_True by done. simpl. by rewrite Hlen.
    + exists lines. split; [done|]. rewrite decide_False; [done|]. by intros [? ?].
Qed.

Lemma printReport_logs h report :
  ∃ lines, Evaluate.printReport h report = Evaluate.console_log <$> lines ∧
    length lines =
      (5 + length (filter (λ t, is_Some (obj_get t report))
                     (UI_TAGS ++ ["Overall"%string])))%nat.
Proof.
  destruct (report_rows_logs h report) as (rows & Hrows & Hlen).
  unfold Evaluate.printReport. rewrite Hrows.
  eexists (_ :: _ :: _ :: _ :: rows ++ [_]). split.
  - rewrite fmap_cons, fmap_cons, fmap_cons, fmap_cons, fmap_app. reflexivity.
  - simpl. rewrite length_app, Hlen. simpl. lia.
Qed.

Lemma aggregateResults_keys allMetrics :
  filter (λ t, is_Some (obj_get t (Evaluate.aggregateResults allMetrics)))
    (UI_TAGS ++ ["Overall"%string]) = UI_TAGS ++ ["Overall"%string].
Proof.
  unfold UI_TAGS. cbn [app].
  rewrite !filter_cons, filter_nil.
  rewrite !decide_True; [done|..].
  all: try (rewrite aggregateResults_get_tag; [done | by apply (bool_decide_unpack _)]).
  by rewrite aggregateResults_get_overall.
Qed.

(** X18: [printReport] only writes with [console.log]: four heading lines,
    one row for each of [Button], [Input], [Radio], [Dropdown], [Overall] that
    the report has, and a closing rule.  For a report of [aggregateResults] that
    is always ten lines, the rows of the five entries in this order. *)
Theorem printReport_rows (h : Evaluate.Host) (report : object TagMetrics)
    (allMetrics : list (object TagMetrics)) :
  (∃ lines, Evaluate.printReport h report = Evaluate.console_log <$> lines ∧
     length lines =
       (5 + length (filter (λ t, is_Some (obj_get t report))
                      (UI_TAGS ++ ["Overall"%string])))%nat) ∧
  length (Evaluate.printReport h (Evaluate.aggregateResults allMetrics)) = 10%nat ∧
  (∀ (i : nat) (t : string),
     (UI_TAGS ++ ["Overall"%string]) !! i = Some t →
     ∃ stats, obj_get t (Evaluate.aggregateResults allMetrics) = Some stats ∧
       Evaluate.printReport h (Evaluate.aggregateResults allMetrics) !! (4 + i)%nat =
         Some (Evaluate.console_log (Evaluate.report_row h t stats))).
Proof.
  split; [apply printReport_logs|]. split; [reflexivity|].
  intros i t Hi.
  destruct i as [|[|[|[|[|i]]]]]; simpl in Hi; try done;
    injection Hi as <-; eexists; (split; [|reflexivity]); reflexivity.
Qed.

Section DriverOutput.

Variable h : Evaluate.Host.
Variables gtFolder predFolder : string.

Lemma complaint_length file :
  (length (complaint h gtFolder predFolder file)
   + length (option_list (loaded h gtFolder predFolder file)))%nat =
  if decide (Evaluate.path_extname h file = ".json"%string) then 1%nat else 0%nat.
Proof.
  unfold complaint. destruct (decide _) as [Hext | Hext].
  - pose proof (load_pair_loaded h gtFolder predFolder file Hext) as Hl.
    destruct (Evaluate.load_pair h gtFolder predFolder file).
    + by destruct Hl as (pair & -> & _).
    + by rewrite Hl.
  - unfold loaded. by rewrite decide_False.
Qed.

Lemma complaints_count files :
  (length (flat_map (complaint h gtFolder predFolder) files)
   + length (omap (loaded h gtFolder predFolder) files))%nat =
  length (filter (λ file, Evaluate.path_extname h file = ".json"%string) files).
Proof.
  induction files as [|file files IH]; [done|].
  cbn [flat_map]. rewrite length_app, filter_cons.
  pose proof (complaint_length file) as Hc.
  assert (length (omap (loaded h gtFolder predFolder) (file :: files)) =
          (length (option_list (loaded h gtFolder predFolder file))
           + length (omap (loaded h gtFolder predFolder) files))%nat) as ->.
  { csimpl. by destruct (loaded h gtFolder predFolder file). }
  destruct (decide _); simpl; lia.
Qed.

(** X19: in a run over a readable ground-truth folder every [.json] file
    is accounted for exactly once: the number of warnings and errors plus the
    number of evaluated pairs is the number of [.json] files of the folder. *)
Theorem main_accounts_for_json_files (argv gtFiles : list string) :
  drop 2 argv = [gtFolder; predFolder] →
  Evaluate.fs_readdir h gtFolder = Evaluate.Ok gtFiles →
  ∃ skipped,
    Evaluate.console (Evaluate.main h argv) =
      skipped ++ report_of h (omap (loaded h gtFolder predFolder) gtFiles) ∧
    Forall is_complaint skipped ∧
    (length skipped + length (omap (loaded h gtFolder predFolder) gtFiles))%nat =
      length (filter (λ file, Evaluate.path_extname h file = ".json"%string) gtFiles).
Proof.
  intros Hargs Hdir. rewrite (main_readable h gtFolder predFolder argv gtFiles Hargs Hdir).
  eexists. split; [done|]. split; [apply complaints_are_complaints | apply complaints_count].
Qed.

(** X20: the message for a file that cannot be read is chosen by the
    error code alone: whichever of the two reads fails, the ground-truth one
    included, [ENOENT] gives the warning that the prediction file was not found,
    and any other code gives the error line with the error's message. *)
Theorem read_failure_reported_by_code (argv gtFiles : list string) (file : string)
    (err : Evaluate.Error) :
  drop 2 argv = [gtFolder; predFolder] →
  Evaluate.fs_readdir h gtFolder = Evaluate.Ok gtFiles →
  file ∈ gtFiles →
  Evaluate.path_extname h file = ".json"%string →
  Evaluate.fs_readFile h (Evaluate.path_join h gtFolder file) = Evaluate.Throw err ∨
    (∃ gtContent,
       Evaluate.fs_readFile h (Evaluate.path_join h gtFolder file) = Evaluate.Ok gtContent) ∧
    Evaluate.fs_readFile h (Evaluate.path_join h predFolder file) = Evaluate.Throw err →
  (Evaluate.code err = Some "ENOENT"%string →
   Evaluate.console_warn
     ("Warning: Prediction file not found for " +:+ file +:+ ". Skipping.")
     ∈ Evaluate.console (Evaluate.main h argv)) ∧
  (Evaluate.code err ≠ Some "ENOENT"%string →
   Evaluate.console_error ["Error processing file " +:+ file +:+ ":"; Evaluate.message err]
     ∈ Evaluate.console (Evaluate.main h argv)).
Proof.
  intros Hargs Hdir Hfile Hext Hread.
  assert (Hload : Evaluate.load_pair h gtFolder predFolder file = Evaluate.Throw err).
  { unfold Evaluate.load_pair. destruct Hread as [-> | [[gtContent ->] ->]]; done. }
  pose proof (complaint_in_console h gtFolder predFolder argv gtFiles file err
                Hargs Hdir Hfile Hext Hload) as Hin.
  unfold Evaluate.on_error in Hin.
  split; intros Hcode; [by rewrite decide_True in Hin | by rewrite decide_False in Hin].
Qed.

Lemma report_of_stdout pairs :
  stdout (report_of h pairs) = [no_data] ∧ pairs = [] ∨
  pairs ≠ [] ∧ length (stdout (report_of h pairs)) = 10%nat ∧
  Evaluate.console_log <$> stdout (report_of h pairs) =
    Evaluate.printReport h (Evaluate.aggregateResults (evaluate_pair <$> pairs)).
Proof.
  destruct pairs as [|pair pairs]; [by left | right]. split; [done|].
  unfold report_of.
  destruct (printReport_logs h
    (Evaluate.aggregateResults (evaluate_pair <$> pair :: pairs))) as (lines & -> & Hlen).
  rewrite aggregateResults_keys in Hlen. by rewrite stdout_logs.
Qed.

(** X21: whatever the arguments and the file system, a run either ends
    with exit code 1 after a single [console.error] and nothing on standard
    output, or ends with exit code 0 with, on standard output, either the single
    no-data line or the ten lines of the report of a non-empty list of metrics:
    never a part of a report. *)
Theorem main_stdout (argv : list string) :
  (Evaluate.exit_code (Evaluate.main h argv) = 1 ∧
   stdout (Evaluate.console (Evaluate.main h argv)) = [] ∧
   ∃ msg, Evaluate.console (Evaluate.main h argv) = [Evaluate.console_error [msg]]) ∨
  (Evaluate.exit_code (Evaluate.main h argv) = 0 ∧
   (stdout (Evaluate.console (Evaluate.main h argv)) = [no_data] ∨
    ∃ allMetrics,
      allMetrics ≠ [] ∧
      length (stdout (Evaluate.console (Evaluate.main h argv))) = 10%nat ∧
      Evaluate.console_log <$> stdout (Evaluate.console (Evaluate.main h argv)) =
        Evaluate.printReport h (Evaluate.aggregateResults allMetrics))).
Proof.
  destruct (drop 2 argv) as [|g [|p [|c rest]]] eqn:Hargs;
    try (left; unfold Evaluate.main; rewrite Hargs; by eauto).
  destruct (Evaluate.fs_readdir h g) as [gtFiles | err] eqn:Hdir.
  - right. rewrite (main_readable h g p argv gtFiles Hargs Hdir). split; [done|].
    cbn [Evaluate.console]. rewrite stdout_app, stdout_complaints
      by apply complaints_are_complaints.
    destruct (report_of_stdout (omap (loaded h g p) gtFiles)) as [[-> _] | (Hne & Hlen & Hrep)];
      [by left | right].
    eexists. split; [|split; [exact Hlen | exact Hrep]].
    by destruct (omap _ _).
  - left. unfold Evaluate.main. rewrite Hargs, Hdir. by eauto.
Qed.

End DriverOutput.

Lemma main_accounts_for_json_files_witness :
  ∃ skipped,
    Evaluate.console (Evaluate.main sample_host sample_argv) =
      skipped ++ report_of sample_host (omap (loaded sample_host "gt" "pred")
                   ["a.json"; "b.json"; "c.json"; "notes.txt"]%string) ∧
    Forall is_complaint skipped ∧
    (length skipped + length (omap (loaded sample_host "gt" "pred")
                                ["a.json"; "b.json"; "c.json"; "notes.txt"]%string))%nat =
      length (filter (λ file, Evaluate.path_extname sample_host file = ".json"%string)
                ["a.json"; "b.json"; "c.json"; "notes.txt"]%string).
Proof.
  apply (main_accounts_for_json_files sample_host "gt" "pred" sample_argv); reflexivity.
Defined.

Lemma read_failure_reported_by_code_witness :
  (Evaluate.code sample_ENOENT = Some "ENOENT"%string →
   Evaluate.console_warn
     ("Warning: Prediction file not found for " +:+ "b.json" +:+ ". Skipping.")
     ∈ Evaluate.console (Evaluate.main sample_host sample_argv)) ∧
  (Evaluate.code sample_ENOENT ≠ Some "ENOENT"%string →
   Evaluate.console_error
     ["Error processing file " +:+ "b.json" +:+ ":"; Evaluate.message sample_ENOENT]
     ∈ Evaluate.console (Evaluate.main sample_host sample_argv)).
Proof.
  apply (read_failure_reported_by_code sample_host "gt" "pred" sample_argv
           ["a.json"; "b.json"; "c.json"; "notes.txt"]%string "b.json" sample_ENOENT).
  - reflexivity.
  - reflexivity.
  - by apply (bool_decide_unpack _).
  - reflexivity.
  - right. split; [by eexists | reflexivity].
Defined.

Lemma aggregate_perm (allMetrics shuffled : list (object TagMetrics)) :
  allMetrics ≡ₚ shuffled →
  Evaluate.aggregateResults allMetrics = Evaluate.aggregateResults shuffled.
Proof.
  intros Hperm. unfold Evaluate.aggregateResults.
  assert (Evaluate.aggregateTags allMetrics = Evaluate.aggregateTags shuffled) as ->; [|done].
  rewrite !aggregateTags_entries. apply list_fmap_ext. intros _ t _.
  by rewrite (sum_tag_perm t _ _ Hperm).
Qed.

Lemma report_of_with_listing h files pairs :
  report_of (with_listing h files) pairs = report_of h pairs.
Proof. reflexivity. Qed.

Lemma main_with_listing h argv g p files :
  drop 2 argv = [g; p] →
  Evaluate.main (with_listing h files) argv =
  {| Evaluate.console :=
       flat_map (complaint h g p) files ++ report_of h (omap (loaded h g p) files);
     Evaluate.exit_code := 0 |}.
Proof.
  intros Hargs.
  rewrite (main_readable (with_listing h files) g p argv files Hargs eq_refl).
  rewrite report_of_with_listing. do 2 f_equal.
Qed.

Lemma complaint_other h g p file :
  Evaluate.path_extname h file ≠ ".json"%string →
  complaint h g p file = [] ∧ loaded h g p file = None.
Proof. intros Hext. unfold complaint, loaded. by rewrite !decide_False. Qed.

(** X22: the files of the ground-truth folder whose extension is not
    [.json] have no effect: the run is the same, console and exit code, as with
    the folder listing only its [.json] files. *)
Theorem main_ignores_other_files (h : Evaluate.Host) (argv gtFiles : list string)
    (gtFolder predFolder : string) :
  drop 2 argv = [gtFolder; predFolder] →
  Evaluate.fs_readdir h gtFolder = Evaluate.Ok gtFiles →
  Evaluate.main h argv =
  Evaluate.main
    (with_listing h
       (filter (λ file, Evaluate.path_extname h file = ".json"%string) gtFiles)) argv.
Proof.
  intros Hargs Hdir.
  rewrite (main_readable h gtFolder predFolder argv gtFiles Hargs Hdir).
  rewrite (main_with_listing h argv gtFolder predFolder _ Hargs).
  assert (∀ files,
    flat_map (complaint h gtFolder predFolder)
      (filter (λ file, Evaluate.path_extname h file = ".json"%string) files) =
    flat_map (complaint h gtFolder predFolder) files ∧
    omap (loaded h gtFolder predFolder)
      (filter (λ file, Evaluate.path_extname h file = ".json"%string) files) =
    omap (loaded h gtFolder predFolder) files) as Hfiles.
  { induction files as [|file files [IH1 IH2]]; [done|].
    rewrite filter_cons. destruct (decide _) as [Hext | Hext].
    - cbn [flat_map]. csimpl. by rewrite IH1, IH2.
    - destruct (complaint_other h gtFolder predFolder file Hext) as [Hc Hl].
      cbn [flat_map]. csimpl. by rewrite Hc, Hl, IH1, IH2. }
  destruct (Hfiles gtFiles) as [-> ->]. done.
Qed.

Lemma main_ignores_other_files_witness :
  Evaluate.main sample_host sample_argv =
  Evaluate.main
    (with_listing sample_host
       (filter (λ file, Evaluate.path_extname sample_host file = ".json"%string)
          ["a.json"; "b.json"; "c.json"; "notes.txt"]%string)) sample_argv.
Proof.
  apply (main_ignores_other_files sample_host sample_argv _ "gt" "pred"); reflexivity.
Defined.

(** X23: the order in which [readdir] lists the ground-truth folder does
    not change the report: with the listing permuted, standard output is the
    same, and the console holds the same calls, the warnings and errors possibly
    in another order. *)
Theorem main_listing_order (h : Evaluate.Host) (argv gtFiles shuffled : list string)
    (gtFolder predFolder : string) :
  drop 2 argv = [gtFolder; predFolder] →
  Evaluate.fs_readdir h gtFolder = Evaluate.Ok gtFiles →
  gtFiles ≡ₚ shuffled →
  stdout (Evaluate.console (Evaluate.main (with_listing h shuffled) argv)) =
    stdout (Evaluate.console (Evaluate.main h argv)) ∧
  Evaluate.console (Evaluate.main (with_listing h shuffled) argv) ≡ₚ
    Evaluate.console (Evaluate.main h argv).
Proof.
  intros Hargs Hdir Hperm.
  rewrite (main_readable h gtFolder predFolder argv gtFiles Hargs Hdir).
  rewrite (main_with_listing h argv gtFolder predFolder _ Hargs).
  cbn [Evaluate.console].
  assert (Hrep : report_of h (omap (loaded h gtFolder predFolder) shuffled) =
                 report_of h (omap (loaded h gtFolder predFolder) gtFiles)).
  { assert (omap (loaded h gtFolder predFolder) gtFiles ≡ₚ
            omap (loaded h gtFolder predFolder) shuffled) as Hp by (by rewrite Hperm).
    unfold report_of.
    destruct (omap (loaded h gtFolder predFolder) gtFiles) as [|pair pairs] eqn:E.
    - apply Permutation_nil in Hp. by rewrite Hp.
    - destruct (omap (loaded h gtFolder predFolder) shuffled) as [|pair' pairs'] eqn:E'.
      + symmetry in Hp. by apply Permutation_nil in Hp.
      + f_equal. apply aggregate_perm. by rewrite Hp. }
  rewrite Hrep. split.
  - rewrite !stdout_app.
    by rewrite (stdout_complaints (flat_map _ shuffled)),
      (stdout_complaints (flat_map _ gtFiles)) by apply complaints_are_complaints.
  - apply Permutation_app; [|done].
    clear -Hperm. induction Hperm as [|x l l' _ IH|x y l|l l' l'' _ IH1 _ IH2]; simpl.
    + done.
    + by rewrite IH.
    + rewrite !app_assoc. apply Permutation_app; [apply Permutation_app_comm | done].
    + by rewrite IH2.
Qed.

Lemma main_listing_order_witness :
  stdout (Evaluate.console
            (Evaluate.main
               (with_listing sample_host ["notes.txt"; "c.json"; "b.json"; "a.json"]%string)
               sample_argv)) =
    stdout (Evaluate.console (Evaluate.main sample_host sample_argv)) ∧
  Evaluate.console
    (Evaluate.main
       (with_listing sample_host ["notes.txt"; "c.json"; "b.json"; "a.json"]%string)
       sample_argv) ≡ₚ
    Evaluate.console (Evaluate.main sample_host sample_argv).
Proof.
  apply (main_listing_order sample_host sample_argv
           ["a.json"; "b.json"; "c.json"; "notes.txt"]%string _ "gt" "pred").
  - reflexivity.
  - reflexivity.
  - apply (Permutation_rev ["a.json"; "b.json"; "c.json"; "notes.txt"]%string).
Defined.

(** ** The labels of the canvas *)

Lemma tag_name_recognized t : LabelingCanvas.tag_name t ∈ UI_TAGS.
Proof. destruct t; by apply (bool_decide_unpack _). Qed.

Lemma run_snoc st actions a :
  LabelingCanvas.run st (actions ++ [a]) =
  LabelingCanvas.step (LabelingCanvas.run st actions) a.
Proof. unfold LabelingCanvas.run. by rewrite fold_left_app. Qed.

Lemma newLabel_well_drawn d l t w h dt label :
  LabelingCanvas.newLabel d (LabelingCanvas.Build_Rect (Num l) (Num t) (Num w) (Num h) dt)
    = Some label →
  well_drawn label ∧ (10 < w)%Q ∧ (10 < h)%Q ∧
  label = {| DataExport.id := LabelingCanvas.data_id dt;
             DataExport.tag := LabelingCanvas.tag_name (LabelingCanvas.d_tag d);
             DataExport.bbox := qbox l t (l + w) (t + h);
             DataExport.type := DataExport.manual |}.
Proof.
  unfold LabelingCanvas.newLabel. cbn [LabelingCanvas.width LabelingCanvas.height].
  destruct (js_gt (Num w) (Num 10)) eqn:Hw; [|done].
  destruct (js_gt (Num h) (Num 10)) eqn:Hh; [|done].
  apply js_gt_Num in Hw, Hh. intros Hl. apply (inj Some) in Hl. subst label.
  split; [|done]. split; [done|]. split; [apply tag_name_recognized|].
  exists l, t, (l + w)%Q, (t + h)%Q. split; [done|]. split; lra.
Qed.

Lemma mouseUp_labels st d r l t w h dt :
  LabelingCanvas.session st = Some d → LabelingCanvas.rect d = Some r →
  LabelingCanvas.heap st !! r =
    Some (LabelingCanvas.Build_Rect (Num l) (Num t) (Num w) (Num h) dt) →
  LabelingCanvas.labels (LabelingCanvas.handleMouseUp st) =
    match LabelingCanvas.newLabel d
            (LabelingCanvas.Build_Rect (Num l) (Num t) (Num w) (Num h) dt) with
    | Some label => LabelingCanvas.labels st ++ [label]
    | None => LabelingCanvas.labels st
    end.
Proof.
  intros Hs Hr Hh. unfold LabelingCanvas.handleMouseUp. rewrite Hs.
  cbn [LabelingCanvas.labels]. rewrite Hr. simpl. by rewrite Hh.
Qed.

Lemma mouseUp_labels_none st :
  (∀ d, LabelingCanvas.session st = Some d → LabelingCanvas.rect d = None) →
  LabelingCanvas.labels (LabelingCanvas.handleMouseUp st) = LabelingCanvas.labels st.
Proof.
  intros H. unfold LabelingCanvas.handleMouseUp.
  destruct (LabelingCanvas.session st) as [d|] eqn:Hs; [|done].
  cbn [LabelingCanvas.labels]. by rewrite (H d eq_refl).
Qed.

Lemma mouseMove_state st d r old sx sy x y :
  LabelingCanvas.session st = Some d → LabelingCanvas.rect d = Some r →
  LabelingCanvas.heap st !! r = Some old →
  LabelingCanvas.startX d = Num sx → LabelingCanvas.startY d = Num sy →
  LabelingCanvas.handleMouseMove (Num x, Num y) st =
  {| LabelingCanvas.heap :=
       <[r := LabelingCanvas.Build_Rect (Num (qmin sx x)) (Num (qmin sy y))
                (Num (Qabs (x + - sx))) (Num (Qabs (y + - sy)))
                (LabelingCanvas.data old)]> (LabelingCanvas.heap st);
     LabelingCanvas.objects := LabelingCanvas.objects st;
     LabelingCanvas.selectedTag := LabelingCanvas.selectedTag st;
     LabelingCanvas.session := Some d;
     LabelingCanvas.labels := LabelingCanvas.labels st |}.
Proof.
  intros Hs Hr Hh Hx Hy. unfold LabelingCanvas.handleMouseMove.
  rewrite Hs, Hr, Hh, Hx, Hy. cbn [fst snd]. by rewrite !Math_min_Num.
Qed.

Lemma showPredictions_heap ls st :
  LabelingCanvas.session (LabelingCanvas.showPredictions ls st) = LabelingCanvas.session st ∧
  LabelingCanvas.labels (LabelingCanvas.showPredictions ls st) = LabelingCanvas.labels st ∧
  ∃ more, LabelingCanvas.heap (LabelingCanvas.showPredictions ls st) =
          LabelingCanvas.heap st ++ more.
Proof.
  destruct ls; simpl; (split; [done|]; split; [done|]); eexists; [by rewrite app_nil_r | done].
Qed.

Lemma deleteBox_state id st :
  LabelingCanvas.heap (LabelingCanvas.deleteBox id st) = LabelingCanvas.heap st ∧
  LabelingCanvas.session (LabelingCanvas.deleteBox id st) = LabelingCanvas.session st ∧
  (LabelingCanvas.labels (LabelingCanvas.deleteBox id st) = LabelingCanvas.labels st ∨
   LabelingCanvas.labels (LabelingCanvas.deleteBox id st) =
     filter (λ label, DataExport.id label ≠ id) (LabelingCanvas.labels st)).
Proof.
  unfold LabelingCanvas.deleteBox. destruct (list_find _ _) as [[i r]|]; simpl; auto.
Qed.

Lemma step_drawing_finite st a :
  drawing_finite st → drawing_finite (LabelingCanvas.step st a).
Proof.
  intros Hd. destruct a as [|x y now|x y| |id| |t|ls]; simpl.
  - unfold LabelingCanvas.startDrawing.
    destruct (LabelingCanvas.session st) eqn:Hs; [done|].
    intros d r Hs' Hr. simpl in Hs'. apply (inj Some) in Hs'. by subst d.
  - unfold LabelingCanvas.handleMouseDown.
    destruct (LabelingCanvas.session st) as [d0|] eqn:Hs; [|done].
    intros d r Hs' Hr. simpl in Hs'. apply (inj Some) in Hs'. subst d. simpl in Hr.
    apply (inj Some) in Hr. subst r. cbn [LabelingCanvas.heap].
    rewrite lookup_app_r, Nat.sub_diag by done. simpl. by eexists _, _, _, _, _, _, _.
  - unfold LabelingCanvas.handleMouseMove.
    destruct (LabelingCanvas.session st) as [d0|] eqn:Hs; [|done].
    destruct (LabelingCanvas.rect d0) as [r0|] eqn:Hr0; [|done].
    destruct (LabelingCanvas.heap st !! r0) as [old|] eqn:Hh; [|done].
    intros d r Hs' Hr. cbn [LabelingCanvas.session] in Hs'.
    apply (inj Some) in Hs'. subst d0.
    rewrite Hr0 in Hr. apply (inj Some) in Hr. subst r0.
    destruct (Hd d r Hs Hr0) as (l & t & w & h & dt & sx & sy & Hh' & Hx & Hy).
    cbn [LabelingCanvas.heap]. rewrite list_lookup_insert_eq by (by eapply lookup_lt_Some).
    rewrite Hx, Hy. cbn [fst snd]. rewrite !Math_min_Num. simpl.
    by eexists _, _, _, _, _, _, _.
  - unfold LabelingCanvas.handleMouseUp.
    destruct (LabelingCanvas.session st) eqn:Hs; [|done]. by intros ? ?.
  - destruct (deleteBox_state id st) as (Hh & Hs & _).
    intros d r Hs' Hr. rewrite Hh. rewrite Hs in Hs'. by apply Hd.
  - done.
  - done.
  - destruct (showPredictions_heap ls st) as (Hs & _ & more & Hh).
    intros d r Hs' Hr. rewrite Hs in Hs'.
    destruct (Hd d r Hs' Hr) as (l & t & w & h & dt & sx & sy & Hh' & Hx & Hy).
    rewrite Hh. exists l, t, w, h, dt, sx, sy.
    split; [|done]. by apply lookup_app_l_Some.
Qed.

Lemma step_labels st a :
  drawing_finite st →
  LabelingCanvas.labels (LabelingCanvas.step st a) = LabelingCanvas.labels st ∨
  (∃ id, LabelingCanvas.labels (LabelingCanvas.step st a) =
           filter (λ label, DataExport.id label ≠ id) (LabelingCanvas.labels st)) ∨
  LabelingCanvas.labels (LabelingCanvas.step st a) = [] ∨
  (∃ label, well_drawn label ∧ is_Some (LabelingCanvas.session st) ∧
     LabelingCanvas.session (LabelingCanvas.step st a) = None ∧
     LabelingCanvas.labels (LabelingCanvas.step st a) = LabelingCanvas.labels st ++ [label]).
Proof.
  intros Hd. destruct a as [|x y now|x y| |id| |t|ls]; simpl.
  - left. unfold LabelingCanvas.startDrawing. by destruct (LabelingCanvas.session st).
  - left. unfold LabelingCanvas.handleMouseDown. by destruct (LabelingCanvas.session st).
  - left. unfold LabelingCanvas.handleMouseMove.
    destruct (LabelingCanvas.session st) as [d|]; [|done].
    destruct (LabelingCanvas.rect d) as [r|]; [|done].
    by destruct (LabelingCanvas.heap st !! r).
  - destruct (LabelingCanvas.session st) as [d|] eqn:Hs.
    + destruct (LabelingCanvas.rect d) as [r|] eqn:Hr.
      * destruct (Hd d r Hs Hr) as (l & t & w & h & dt & sx & sy & Hh & _).
        rewrite (mouseUp_labels st d r l t w h dt Hs Hr Hh).
        destruct (LabelingCanvas.newLabel d _) as [label|] eqn:Hn; [|by left].
        do 3 right. exists label.
        split; [by apply (newLabel_well_drawn _ _ _ _ _ _ _ Hn)|].
        split; [done|]. split; [|done].
        unfold LabelingCanvas.handleMouseUp. by rewrite Hs.
      * left. apply mouseUp_labels_none. intros d' Hs'. by simplify_eq.
    + left. unfold LabelingCanvas.handleMouseUp. by rewrite Hs.
  - destruct (deleteBox_state id st) as (_ & _ & [H | H]); [by left|].
    right. left. by exists id.
  - by do 2 right; left.
  - by left.
  - left. apply showPredictions_heap.
Qed.

Lemma run_drawing_finite actions :
  drawing_finite (LabelingCanvas.run LabelingCanvas.initial actions).
Proof.
  induction actions as [|a actions IH] using rev_ind.
  - by intros d r.
  - rewrite run_snoc. by apply step_drawing_finite.
Qed.

(** X24: whatever is done on the canvas (drawing, deleting, clearing,
    changing the tag, showing predictions), every manual label it holds has type
    [manual], one of the four tags, and a box of finite corners that is more
    than 10 wide and more than 10 high; so no manual label has a tag outside the
    four categories. *)
Theorem canvas_labels_well_drawn (actions : list LabelingCanvas.action) :
  Forall well_drawn
    (LabelingCanvas.labels (LabelingCanvas.run LabelingCanvas.initial actions)) ∧
  stray_labels
    (LabelingCanvas.labels (LabelingCanvas.run LabelingCanvas.initial actions)) = [].
Proof.
  assert (Forall well_drawn
    (LabelingCanvas.labels (LabelingCanvas.run LabelingCanvas.initial actions))) as Hall.
  { induction actions as [|a actions IH] using rev_ind; [constructor|].
    rewrite run_snoc.
    destruct (step_labels (LabelingCanvas.run LabelingCanvas.initial actions) a
                (run_drawing_finite actions))
      as [-> | [[id ->] | [-> | (label & Hl & _ & _ & ->)]]].
    - done.
    - apply Forall_forall. intros l [_ Hin]%list_elem_of_filter.
      by apply (proj1 (Forall_forall _ _) IH).
    - constructor.
    - apply Forall_app. split; [done|]. by constructor. }
  split; [done|]. unfold stray_labels.
  induction Hall as [|l ls (_ & Ht & _) _ IH]; [done|].
  rewrite filter_cons, decide_False; [done|]. intros Hn. by apply Hn.
Qed.

Lemma count_start_snoc actions a :
  count_start (actions ++ [a]) =
  (count_start actions + count_start [a])%nat.
Proof.
  induction actions as [|b actions IH]; simpl.
  - by destruct a.
  - destruct b; rewrite ?IH; done.
Qed.

Lemma step_session_count st a :
  (length (LabelingCanvas.labels (LabelingCanvas.step st a)) + busy (LabelingCanvas.step st a)
   ≤ length (LabelingCanvas.labels st) + busy st + count_start [a])%nat.
Proof.
  unfold busy. destruct a as [|x y now|x y| |id| |t|ls]; simpl.
  - unfold LabelingCanvas.startDrawing.
    destruct (LabelingCanvas.session st) eqn:Hs; simpl; rewrite ?Hs; lia.
  - unfold LabelingCanvas.handleMouseDown.
    destruct (LabelingCanvas.session st) eqn:Hs; simpl; rewrite ?Hs; lia.
  - unfold LabelingCanvas.handleMouseMove.
    destruct (LabelingCanvas.session st) as [d|] eqn:Hs; [|rewrite ?Hs; lia].
    destruct (LabelingCanvas.rect d) as [r|]; [|rewrite ?Hs; lia].
    destruct (LabelingCanvas.heap st !! r); simpl; rewrite ?Hs; lia.
  - unfold LabelingCanvas.handleMouseUp.
    destruct (LabelingCanvas.session st) as [d|] eqn:Hs; [|rewrite ?Hs; lia].
    cbn [LabelingCanvas.labels LabelingCanvas.session].
    destruct (_ ≫= _) as [label|]; rewrite ?length_app; simpl; lia.
  - unfold LabelingCanvas.deleteBox.
    destruct (list_find _ _) as [[i r]|]; [|lia].
    cbn [LabelingCanvas.labels LabelingCanvas.session].
    pose proof (length_filter (λ label, DataExport.id label ≠ id) (LabelingCanvas.labels st)).
    lia.
  - lia.
  - lia.
  - destruct (showPredictions_heap ls st) as (-> & -> & _). lia.
Qed.

(** X25: the canvas never holds more manual labels than the number of
    times [Draw Box] was pressed: one press lets the user draw one box. *)
Theorem one_label_per_draw (actions : list LabelingCanvas.action) :
  (length (LabelingCanvas.labels (LabelingCanvas.run LabelingCanvas.initial actions))
   ≤ count_start actions)%nat.
Proof.
  assert ((length (LabelingCanvas.labels (LabelingCanvas.run LabelingCanvas.initial actions))
           + busy (LabelingCanvas.run LabelingCanvas.initial actions)
           ≤ count_start actions)%nat) as H; [|lia].
  induction actions as [|a actions IH] using rev_ind; [by cbv|].
  rewrite run_snoc, count_start_snoc.
  pose proof (step_session_count (LabelingCanvas.run LabelingCanvas.initial actions) a).
  lia.
Qed.

(** ** The drawing gesture *)

Lemma moves_keep (moves : list (Q * Q)) : ∀ st d r old sx sy,
  LabelingCanvas.session st = Some d → LabelingCanvas.rect d = Some r →
  LabelingCanvas.heap st !! r = Some old →
  LabelingCanvas.startX d = Num sx → LabelingCanvas.startY d = Num sy →
  let st' := LabelingCanvas.run st ((λ p, LabelingCanvas.MouseMove p.1 p.2) <$> moves) in
  LabelingCanvas.session st' = Some d ∧
  LabelingCanvas.labels st' = LabelingCanvas.labels st ∧
  ∃ old', LabelingCanvas.heap st' !! r = Some old' ∧
          LabelingCanvas.data old' = LabelingCanvas.data old.
Proof.
  induction moves as [|[x y] moves IH]; intros st d r old sx sy Hs Hr Hh Hx Hy; cbv zeta.
  - simpl. eauto.
  - rewrite fmap_cons. unfold LabelingCanvas.run. cbn [fold_left LabelingCanvas.step fst snd].
    rewrite (mouseMove_state st d r old sx sy x y Hs Hr Hh Hx Hy).
    match goal with |- context [fold_left _ _ ?s] => set (s1 := s) end.
    match goal with s1 := {| LabelingCanvas.heap := <[_ := ?m]> _ |} |- _ =>
      set (moved := m) in * end.
    assert (Hh1 : LabelingCanvas.heap s1 !! r = Some moved)
      by (apply list_lookup_insert_eq; by eapply lookup_lt_Some).
    destruct (IH s1 d r moved sx sy eq_refl Hr Hh1 Hx Hy) as (Hs' & Hl' & old' & Hh' & Hd').
    unfold LabelingCanvas.run in Hs', Hl', Hh'.
    split; [done|]. split; [done|]. by exists old'.
Qed.

(** X26: a drag while drawing, from a press through any moves to a last
    pointer position and the release, adds no label when the press and the
    last position are 10 or less apart along x or along y; whatever the drag,
    the labels are unchanged or one label is appended, with the id of the
    press, the captured tag, and a box whose first corner is the smaller x and
    the smaller y of the press and the last position; a press released
    without a move adds nothing. *)
Theorem drag_adds_at_most_one (st : LabelingCanvas.state) (d : LabelingCanvas.drawing)
    (px py : Q) (now : Z) (moves : list (Q * Q)) (qx qy : Q) :
  LabelingCanvas.session st = Some d →
  (Qabs (qx - px) <= 10 ∨ Qabs (qy - py) <= 10 →
   LabelingCanvas.labels (LabelingCanvas.run st (drag px py now moves qx qy)) =
     LabelingCanvas.labels st)%Q ∧
  (LabelingCanvas.labels (LabelingCanvas.run st (drag px py now moves qx qy)) =
     LabelingCanvas.labels st ∨
   ∃ a1 a2 a3 a4,
     LabelingCanvas.labels (LabelingCanvas.run st (drag px py now moves qx qy)) =
       LabelingCanvas.labels st ++
       [{| DataExport.id := "manual-" +:+ pretty now;
           DataExport.tag := LabelingCanvas.tag_name (LabelingCanvas.d_tag d);
           DataExport.bbox := qbox a1 a2 a3 a4;
           DataExport.type := DataExport.manual |}] ∧
     a1 == qmin px qx ∧ a2 == qmin py qy)%Q ∧
  LabelingCanvas.labels
    (LabelingCanvas.run st [LabelingCanvas.MouseDown px py now; LabelingCanvas.MouseUp]) =
    LabelingCanvas.labels st.
Proof.
  intros Hs.
  set (r := length (LabelingCanvas.heap st)).
  set (dt := {| LabelingCanvas.data_type := DataExport.manual;
                LabelingCanvas.data_tag := LabelingCanvas.tag_name (LabelingCanvas.d_tag d);
                LabelingCanvas.data_id := "manual-" +:+ pretty now |}).
  set (d1 := {| LabelingCanvas.d_tag := LabelingCanvas.d_tag d;
                LabelingCanvas.startX := Num px; LabelingCanvas.startY := Num py;
                LabelingCanvas.rect := Some r |}).
  set (s1 := LabelingCanvas.handleMouseDown (Num px, Num py) now st).
  assert (Hs1 : LabelingCanvas.session s1 = Some d1).
  { unfold s1, LabelingCanvas.handleMouseDown. by rewrite Hs. }
  assert (Hl1 : LabelingCanvas.labels s1 = LabelingCanvas.labels st).
  { unfold s1, LabelingCanvas.handleMouseDown. by rewrite Hs. }
  assert (Hh1 : LabelingCanvas.heap s1 !! r =
                Some (LabelingCanvas.Build_Rect (Num px) (Num py) (Num 0) (Num 0) dt)).
  { unfold s1, LabelingCanvas.handleMouseDown. rewrite Hs. cbn [LabelingCanvas.heap].
    by rewrite lookup_app_r, Nat.sub_diag. }
  assert (Hclick : LabelingCanvas.labels (LabelingCanvas.handleMouseUp s1) =
                   LabelingCanvas.labels st).
  { by rewrite (mouseUp_labels s1 d1 r _ _ _ _ _ Hs1 eq_refl Hh1). }
  split; [|split; [|exact Hclick]].
  all: unfold drag, LabelingCanvas.run; cbn [fold_left LabelingCanvas.step];
    change (LabelingCanvas.handleMouseDown (Num px, Num py) now st) with s1;
    rewrite fold_left_app;
    destruct (moves_keep moves s1 d1 r _ px py Hs1 eq_refl Hh1 eq_refl eq_refl)
      as (Hs2 & Hl2 & old & Hh2 & Hd2);
    unfold LabelingCanvas.run in Hs2, Hl2, Hh2;
    set (s2 := fold_left LabelingCanvas.step
                 ((λ p, LabelingCanvas.MouseMove p.1 p.2) <$> moves) s1) in *;
    cbn [fold_left LabelingCanvas.step];
    rewrite (mouseMove_state s2 d1 r old px py qx qy Hs2 eq_refl Hh2 eq_refl eq_refl);
    rewrite Hd2; cbn [LabelingCanvas.data];
    match goal with |- context [LabelingCanvas.handleMouseUp ?s] => set (s3 := s) end;
    assert (Hh3 : LabelingCanvas.heap s3 !! r =
              Some (LabelingCanvas.Build_Rect (Num (qmin px qx)) (Num (qmin py qy))
                      (Num (Qabs (qx - px))) (Num (Qabs (qy - py))) dt))
      by (apply list_lookup_insert_eq; by eapply lookup_lt_Some);
    rewrite (mouseUp_labels s3 d1 r _ _ _ _ _ eq_refl eq_refl Hh3);
    unfold s3; cbn [LabelingCanvas.labels]; rewrite Hl2, Hl1;
    unfold LabelingCanvas.newLabel; cbn [LabelingCanvas.width LabelingCanvas.height].
  - intros Hsmall.
    destruct (js_gt (Num (Qabs (qx - px))) (Num 10)) eqn:Hw; [|done].
    destruct (js_gt (Num (Qabs (qy - py))) (Num 10)) eqn:Hh; [|done].
    apply js_gt_Num in Hw, Hh. destruct Hsmall; lra.
  - destruct (js_gt (Num (Qabs (qx - px))) (Num 10)); [|by left].
    destruct (js_gt (Num (Qabs (qy - py))) (Num 10)); [|by left].
    right. simpl. eexists _, _, _, _. split; [reflexivity|]. split; reflexivity.
Qed.

Lemma drag_adds_at_most_one_witness :
  (Qabs (112 - 120) <= 10 ∨ Qabs (30 - 80) <= 10)%Q ∧
  LabelingCanvas.labels
    (LabelingCanvas.run (LabelingCanvas.startDrawing LabelingCanvas.initial)
       (drag 120 80 1 [(100, 70)%Q] 112 30)) =
  LabelingCanvas.labels (LabelingCanvas.startDrawing LabelingCanvas.initial).
Proof.
  assert (H : (Qabs (112 - 120) <= 10 ∨ Qabs (30 - 80) <= 10)%Q) by (left; by vm_compute).
  split; [exact H|].
  exact (proj1 (drag_adds_at_most_one (LabelingCanvas.startDrawing LabelingCanvas.initial) _
                  120 80 1 [(100, 70)%Q] 112 30 eq_refl) H).
Defined.

Lemma manual_id_inj n m : manual_id n = manual_id m → n = m.
Proof. unfold manual_id. simpl. intros [= H]. by apply (inj pretty). Qed.

(** ** The ids of the drawn labels *)

Lemma timestamps_snoc actions a :
  timestamps (actions ++ [a]) = timestamps actions ++ timestamps [a].
Proof. apply omap_app. Qed.

Lemma newLabel_id d drawn label :
  LabelingCanvas.newLabel d drawn = Some label →
  DataExport.id label = LabelingCanvas.data_id (LabelingCanvas.data drawn).
Proof. unfold LabelingCanvas.newLabel. destruct (_ && _); [|done]. by intros [= <-]. Qed.

Lemma ids_fresh_weaken seen more st labels' :
  ids_fresh seen st →
  labels' ⊆ LabelingCanvas.labels st →
  NoDup (DataExport.id <$> labels') →
  (∀ l, l ∈ labels' → ∃ n, n ∈ seen ++ more ∧ DataExport.id l = manual_id n) ∧
  NoDup (DataExport.id <$> labels') ∧
  (∀ d r, LabelingCanvas.session st = Some d → LabelingCanvas.rect d = Some r →
     ∃ drawn n, LabelingCanvas.heap st !! r = Some drawn ∧
       LabelingCanvas.data_id (LabelingCanvas.data drawn) = manual_id n ∧
       n ∈ seen ++ more ∧ manual_id n ∉ DataExport.id <$> labels').
Proof.
  intros (Ha & Hb & Hc) Hsub Hnd. split; [|split; [done|]].
  - intros l Hl. destruct (Ha l (Hsub l Hl)) as (n & Hn & Hid).
    exists n. split; [|done]. apply elem_of_app. by left.
  - intros d r Hs Hr. destruct (Hc d r Hs Hr) as (drawn & n & Hh & Hid & Hn & Hfresh).
    exists drawn, n. split; [done|]. split; [done|].
    split; [apply elem_of_app; by left|].
    intros (l & Hl1 & Hl2)%list_elem_of_fmap. apply Hfresh.
    apply list_elem_of_fmap. exists l. split; [done|]. by apply Hsub.
Qed.

Lemma ids_fresh_more seen more st : ids_fresh seen st → ids_fresh (seen ++ more) st.
Proof.
  intros Hinv. apply (ids_fresh_weaken seen more st (LabelingCanvas.labels st) Hinv);
    [done | apply Hinv].
Qed.

Lemma filter_ids_NoDup id (ls : list DataExport.BoundingBox) :
  NoDup (DataExport.id <$> ls) →
  NoDup (DataExport.id <$> filter (λ label, DataExport.id label ≠ id) ls).
Proof.
  induction ls as [|l ls IH]; [done|].
  rewrite fmap_cons, NoDup_cons. intros [Hl Hnd]. rewrite filter_cons.
  destruct (decide _); [|by apply IH].
  rewrite fmap_cons, NoDup_cons. split; [|by apply IH].
  intros (l' & Hl1 & [_ Hl2]%list_elem_of_filter)%list_elem_of_fmap.
  apply Hl. apply list_elem_of_fmap. by exists l'.
Qed.

Lemma step_ids_fresh seen st a :
  NoDup (seen ++ timestamps [a]) →
  ids_fresh seen st →
  ids_fresh (seen ++ timestamps [a]) (LabelingCanvas.step st a).
Proof.
  intros Hnd Hinv.
  destruct a as [|x y now|x y| |id| |t|ls]; cbn [LabelingCanvas.step].
  - unfold LabelingCanvas.startDrawing.
    destruct (LabelingCanvas.session st) eqn:Hs.
    + by apply (ids_fresh_more seen []).
    + destruct Hinv as (Ha & Hb & _). split; [|split; [done|]].
      * intros l Hl. destruct (Ha l Hl) as (n & ? & ?). exists n.
        split; [apply elem_of_app; by left | done].
      * intros d r Hs' Hr. simpl in Hs'. apply (inj Some) in Hs'. by subst d.
  - unfold LabelingCanvas.handleMouseDown. change (timestamps _) with [now] in *.
    destruct (LabelingCanvas.session st) as [d0|] eqn:Hs.
    + destruct Hinv as (Ha & Hb & _). split; [|split; [done|]].
      * intros l Hl. destruct (Ha l Hl) as (n & ? & ?). exists n.
        split; [apply elem_of_app; by left | done].
      * intros d r Hs' Hr. cbn [LabelingCanvas.session] in Hs'.
        apply (inj Some) in Hs'. subst d. cbn [LabelingCanvas.rect] in Hr.
        apply (inj Some) in Hr. subst r. cbn [LabelingCanvas.heap LabelingCanvas.labels].
        rewrite lookup_app_r, Nat.sub_diag by done. eexists _, now.
        split; [done|]. split; [done|].
        split; [apply elem_of_app; right; by apply list_elem_of_singleton|].
        intros (l & Hid & Hl)%list_elem_of_fmap.
        destruct (Ha l Hl) as (n & Hn & Hid'). rewrite Hid' in Hid.
        apply manual_id_inj in Hid. subst n.
        apply NoDup_app in Hnd as (_ & Hnd & _). apply (Hnd now Hn).
        by apply list_elem_of_singleton.
    + by apply (ids_fresh_more seen [now]).
  - change (timestamps _) with (@nil Z). unfold LabelingCanvas.handleMouseMove.
    destruct (LabelingCanvas.session st) as [d0|] eqn:Hs;
      [|by apply (ids_fresh_more seen [])].
    destruct (LabelingCanvas.rect d0) as [r0|] eqn:Hr0;
      [|by apply (ids_fresh_more seen [])].
    destruct (LabelingCanvas.heap st !! r0) as [old|] eqn:Hh;
      [|by apply (ids_fresh_more seen [])].
    destruct (ids_fresh_weaken seen [] st (LabelingCanvas.labels st) Hinv)
      as (Ha & Hb & Hc); [done | apply Hinv|].
    split; [done|]. split; [done|].
    intros d r Hs' Hr. cbn [LabelingCanvas.session] in Hs'.
    apply (inj Some) in Hs'. subst d0.
    rewrite Hr0 in Hr. apply (inj Some) in Hr. subst r0.
    destruct (Hc d r Hs Hr0) as (drawn & n & Hh' & Hid & Hn & Hfresh).
    cbn [LabelingCanvas.heap LabelingCanvas.labels].
    rewrite list_lookup_insert_eq by (by eapply lookup_lt_Some).
    eexists _, n. split; [done|]. cbn [LabelingCanvas.data].
    rewrite Hh in Hh'. apply (inj Some) in Hh'. by subst old.
  - change (timestamps _) with (@nil Z). unfold LabelingCanvas.handleMouseUp.
    destruct (LabelingCanvas.session st) as [d0|] eqn:Hs;
      [|by apply (ids_fresh_more seen [])].
    destruct (ids_fresh_weaken seen [] st (LabelingCanvas.labels st) Hinv)
      as (Ha & Hb & Hc); [done | apply Hinv|].
    cbn [LabelingCanvas.labels LabelingCanvas.session].
    destruct (LabelingCanvas.rect d0) as [r0|] eqn:Hr0; [|by split; [|split]].
    destruct (Hc d0 r0 Hs Hr0) as (drawn & n & Hh & Hid & Hn & Hfresh).
    csimpl. rewrite Hh. csimpl.
    destruct (LabelingCanvas.newLabel d0 drawn) as [label|] eqn:Hl; [|by split; [|split]].
    apply newLabel_id in Hl. rewrite Hid in Hl.
    unfold ids_fresh. cbn [LabelingCanvas.labels LabelingCanvas.session].
    split; [|split; [|done]].
    + intros l [Hin | ->%list_elem_of_singleton]%elem_of_app; [by apply Ha|]. by exists n.
    + rewrite fmap_app. apply NoDup_app. split; [done|]. split.
      * intros i Hi ->%list_elem_of_singleton. rewrite Hl in Hi. by apply Hfresh.
      * apply NoDup_singleton.
  - change (timestamps _) with (@nil Z). unfold LabelingCanvas.deleteBox.
    destruct (list_find _ _) as [[i r0]|]; [|by apply (ids_fresh_more seen [])].
    apply (ids_fresh_weaken seen [] st); [done | |].
    + intros l [_ Hl]%list_elem_of_filter. done.
    + apply filter_ids_NoDup, Hinv.
  - change (timestamps _) with (@nil Z).
    apply (ids_fresh_weaken seen [] st []); [done | | constructor].
    by intros l Hl%elem_of_nil.
  - by apply (ids_fresh_more seen []).
  - change (timestamps _) with (@nil Z).
    destruct (showPredictions_heap ls st) as (Hs & Hl & more & Hh).
    destruct (ids_fresh_weaken seen [] st (LabelingCanvas.labels st) Hinv)
      as (Ha & Hb & Hc); [done | apply Hinv|].
    unfold ids_fresh. rewrite Hs, Hl, Hh. split; [done|]. split; [done|].
    intros d r Hs' Hr. destruct (Hc d r Hs' Hr) as (drawn & n & Hh' & ?).
    exists drawn, n. split; [by apply lookup_app_l_Some | done].
Qed.

(** X27: when no two presses on the canvas happen at the same
    [Date.now()], the manual labels all have different ids. *)
Theorem drawn_ids_distinct (actions : list LabelingCanvas.action) :
  NoDup (timestamps actions) →
  NoDup (DataExport.id <$>
           LabelingCanvas.labels (LabelingCanvas.run LabelingCanvas.initial actions)).
Proof.
  intros Hnd.
  assert (ids_fresh (timestamps actions)
            (LabelingCanvas.run LabelingCanvas.initial actions)) as H; [|apply H].
  induction actions as [|a actions IH] using rev_ind.
  - split; [by intros l Hl%elem_of_nil|]. split; [constructor|]. by intros d r.
  - rewrite run_snoc, timestamps_snoc in *.
    apply step_ids_fresh; [done|]. apply IH. by apply NoDup_app in Hnd as (? & _).
Qed.

Lemma drawn_ids_distinct_witness :
  NoDup (DataExport.id <$>
           LabelingCanvas.labels
             (LabelingCanvas.run LabelingCanvas.initial
                (LabelingCanvas.StartDrawing :: drag 0 0 1 [] 100 40 ++
                 LabelingCanvas.StartDrawing :: drag 0 60 2 [] 100 100))).
Proof.
  apply drawn_ids_distinct. by apply (bool_decide_unpack _).
Defined.

(** ** The predictions *)

Lemma floor_scaled (r : Q) (n : Z) :
  (0 <= r < 1)%Q → 0 < n → 0 ≤ Qfloor (r * inject_Z n) < n.
Proof.
  intros Hr Hn.
  assert (0 < inject_Z n)%Q as Hn' by (change 0%Q with (inject_Z 0); by rewrite <- Zlt_Qlt).
  pose proof (Qfloor_le (r * inject_Z n)) as Hle.
  pose proof (Qlt_floor (r * inject_Z n)) as Hlt.
  set (f := Qfloor (r * inject_Z n)) in *.
  rewrite inject_Z_plus in Hlt. change (inject_Z 1) with 1%Q in Hlt.
  split.
  - destruct (Z_le_gt_dec 0 f) as [H | H]; [done|].
    assert (f + 1 ≤ 0) as H' by lia. rewrite Zle_Qle, inject_Z_plus in H'.
    change (inject_Z 1) with 1%Q in H'. change (inject_Z 0) with 0%Q in H'. nra.
  - rewrite Zlt_Qlt. nra.
Qed.

Lemma array_get_tags (r : Q) :
  (0 <= r < 1)%Q →
  ∃ t, LLMPredictor.array_get LLMPredictor.tags
         (LLMPredictor.Math_floor
            (js_mul (Num r) (of_Z (Z.of_nat (length LLMPredictor.tags))))) = Some t ∧
       t ∈ UI_TAGS.
Proof.
  intros Hr. change (Z.of_nat (length LLMPredictor.tags)) with 4.
  unfold of_Z. cbn [js_mul LLMPredictor.Math_floor]. unfold of_Z, LLMPredictor.array_get.
  pose proof (floor_scaled r 4 Hr eq_refl) as Hf.
  set (f := Qfloor (r * inject_Z 4)) in *.
  rewrite Qfloor_Z, (proj2 (Qeq_bool_iff _ _)) by reflexivity.
  rewrite (proj2 (Z.leb_le 0 f)) by lia. cbn [andb].
  assert (f = 0 ∨ f = 1 ∨ f = 2 ∨ f = 3) as [-> | [-> | [-> | ->]]] by lia;
    (eexists; split; [reflexivity | by apply (bool_decide_unpack _)]).
Qed.

Lemma mock_condition (r : Q) (i : Z) :
  (0 <= r < 1)%Q →
  LLMPredictor.js_lt (of_Z i)
    (js_add (LLMPredictor.Math_floor (js_mul (Num r) (Num 5))) (Num 2)) =
  bool_decide (i < Qfloor (r * 5) + 2) ∧ 0 ≤ Qfloor (r * 5) ≤ 4.
Proof.
  intros Hr. pose proof (floor_scaled r 5 Hr eq_refl) as Hf.
  change (inject_Z 5) with 5%Q in Hf. split; [|lia].
  unfold LLMPredictor.js_lt, of_Z. cbn [js_mul LLMPredictor.Math_floor js_add]. unfold of_Z.
  set (f := Qfloor (r * 5)) in *.
  assert (inject_Z f + 2 == inject_Z (f + 2))%Q as Hsum
    by (rewrite inject_Z_plus; reflexivity).
  case_bool_decide as Hi.
  - apply js_gt_Num. rewrite Hsum, <- Zlt_Qlt. done.
  - apply js_gt_Num_false. rewrite Hsum, <- Zle_Qle. lia.
Qed.

Lemma mock_loop_spec (src : LLMPredictor.Source) :
  (∀ k, 0 <= LLMPredictor.Math_random src k < 1)%Q →
  ∀ fuel i k c acc,
    0 ≤ i ≤ 6 → 7 ≤ i + Z.of_nat fuel → Z.of_nat (length acc) = i →
    Forall mock_shaped acc →
    ∃ preds, LLMPredictor.mock_loop src fuel i k c acc = Some preds ∧
      (2 ≤ length preds ≤ 6)%nat ∧ Forall mock_shaped preds.
Proof.
  intros Hr. induction fuel as [|fuel IH]; intros i k c acc Hi Hfuel Hlen Hacc; [lia|].
  cbn [LLMPredictor.mock_loop]. cbv zeta.
  destruct (mock_condition (LLMPredictor.Math_random src (k + 0)) i (Hr _)) as [-> Hf].
  case_bool_decide as Hcond.
  - apply IH; [lia | lia | rewrite length_app; simpl; lia |].
    apply Forall_app. split; [done|]. constructor; [|constructor].
    destruct (array_get_tags (LLMPredictor.Math_random src (k + 5)) (Hr _))
      as (t & Ht & Hin).
    split; [done|]. cbn [LLMPredictor.tag LLMPredictor.bbox]. rewrite Ht.
    pose proof (Hr (k + 1)%nat). pose proof (Hr (k + 2)%nat).
    pose proof (Hr (k + 3)%nat). pose proof (Hr (k + 4)%nat).
    eexists t, _, _, _, _. split; [done|]. split; [done|].
    split; [reflexivity|]. lra.
  - exists acc. split; [done|]. split; [lia | done].
Qed.

Lemma mock_shaped_bounded p : mock_shaped p → mock_bounded p.
Proof.
  intros (Ht & t & a1 & a2 & a3 & a4 & Htag & Hin & Hbox & Hb).
  split; [done|]. exists t, a1, a2, a3, a4. repeat split; try done; lra.
Qed.

(** X28: for every sequence of results of [Math.random()] in [0, 1),
    [generateMockPredictions] ends after at most seven tests of its loop
    condition and returns between 2 and 6 predictions, each of type
    [predicted], with one of the four tags and a box whose first corner has x
    from 0 to 600 and y from 0 to 400 and whose second corner lies beyond the
    first, with x at most 800 and y at most 480. *)
Theorem mock_predictions_bounded (src : LLMPredictor.Source) (fuel : nat) :
  (∀ k, 0 <= LLMPredictor.Math_random src k < 1)%Q →
  (7 ≤ fuel)%nat →
  ∃ mockPredictions,
    LLMPredictor.generateMockPredictions src fuel = Some mockPredictions ∧
    (2 ≤ length mockPredictions ≤ 6)%nat ∧
    Forall mock_bounded mockPredictions.
Proof.
  intros Hr Hfuel.
  destruct (mock_loop_spec src Hr fuel 0 0%nat 0%nat []) as (preds & Hp & Hlen & Hall);
    [lia | lia | done | constructor |].
  exists preds. split; [done|]. split; [done|].
  eapply Forall_impl; [exact Hall | apply mock_shaped_bounded].
Qed.

Lemma mock_predictions_bounded_witness :
  ∃ mockPredictions,
    LLMPredictor.generateMockPredictions
      {| LLMPredictor.Math_random := λ k, (Z.of_nat (k mod 7) # 7)%Q;
         LLMPredictor.Date_now := λ c, 1700000000000 + Z.of_nat c |} 7
      = Some mockPredictions ∧
    (2 ≤ length mockPredictions ≤ 6)%nat ∧
    Forall mock_bounded mockPredictions.
Proof.
  apply mock_predictions_bounded; [|lia].
  intros k. cbn [LLMPredictor.Math_random].
  pose proof (Nat.mod_upper_bound k 7 ltac:(lia)) as Hk.
  unfold Qle, Qlt. simpl. lia.
Defined.

Lemma export_imap_labels (g : nat → string) (labels : list Evaluate.label) :
  DataExport.export_labels
    (imap (λ index label,
             {| DataExport.id := g index;
                DataExport.tag := Evaluate.tag label;
                DataExport.bbox := Evaluate.bbox label;
                DataExport.type := DataExport.predicted |}) labels) = labels.
Proof.
  revert g. induction labels as [|[t b] labels IH]; intros g; [done|].
  unfold DataExport.export_labels in *. rewrite imap_cons, fmap_cons. f_equal.
  apply (IH (g ∘ S)).
Qed.

(** X29: the predictions made from the labels of a model's answer keep
    these labels as they are, tags unchecked: [exportPredictions] downloads
    exactly the answer's list of labels in order, and refuses to export when
    the answer has no label or no [labels] at all. *)
Theorem predictions_round_trip (now : nat → Z) (labels : list Evaluate.label)
    (imageName : string) :
  DataExport.exportPredictions (LLMPredictor.to_predictions now (Some labels)) imageName =
    (if decide (labels = []) then None else Some (Evaluate.Document imageName labels)) ∧
  length (LLMPredictor.to_predictions now (Some labels)) = length labels ∧
  DataExport.exportPredictions (LLMPredictor.to_predictions now None) imageName = None.
Proof.
  split; [|split; [apply length_imap | done]].
  unfold DataExport.exportPredictions, LLMPredictor.to_predictions.
  rewrite length_imap, export_imap_labels. by destruct labels.
Qed.

(** ** The script on JSON values *)

(** X30: on two arrays that start with four numbers the script's
    [calculateIoU] returns the IoU of section 4.1 computed in binary64,
    whatever follows the four numbers; on a box that is [undefined] it throws
    the [TypeError] of reading index 0. *)
Theorem script_iou_of_arrays (h : Js.Host) (a b : Js.box) (restA restB : list Js.json)
    (boxB : Js.value) :
  Script.calculateIoU h
    (Some (Js.JArray (Js.JNumber (Js.x1 a) :: Js.JNumber (Js.y1 a) :: Js.JNumber (Js.x2 a)
                      :: Js.JNumber (Js.y2 a) :: restA)))
    (Some (Js.JArray (Js.JNumber (Js.x1 b) :: Js.JNumber (Js.y1 b) :: Js.JNumber (Js.x2 b)
                      :: Js.JNumber (Js.y2 b) :: restB)))
  = Js.Return (Spec.iou a b) ∧
  Script.calculateIoU h None boxB = Js.ThrowTypeError (Js.read_of_undefined "0").
Proof. split; [apply calculateIoU_boxes | done]. Qed.

Lemma labels_filter_array callee labels t kept :
  Script.labels_filter callee labels t = Js.Return kept →
  ∃ items, labels = Some (Js.JArray items).
Proof. destruct labels as [[]|]; try done. eauto. Qed.

Lemma evaluateTag_arrays h gtData predData t m :
  Script.evaluateTag h gtData predData t = Js.Return m →
  labels_array gtData ∧ labels_array predData.
Proof.
  unfold Script.evaluateTag.
  destruct (Js.get (Some gtData) "labels") as [gtLabels|] eqn:Hg;
    cbn [mbind Js.completion_bind]; [|done].
  destruct (Script.labels_filter _ gtLabels t) as [gtBoxes|] eqn:Hgf;
    cbn [mbind Js.completion_bind]; [|done].
  destruct (Js.get (Some predData) "labels") as [predLabels|] eqn:Hp;
    cbn [mbind Js.completion_bind]; [|done].
  destruct (Script.labels_filter _ predLabels t) as [predBoxes|] eqn:Hpf;
    cbn [mbind Js.completion_bind]; [|done].
  intros _.
  apply labels_filter_array in Hgf as [gitems ->], Hpf as [pitems ->].
  split.
  - destruct gtData; try done. injection Hg as Hg. by eexists _, _.
  - destruct predData; try done. injection Hp as Hp. by eexists _, _.
Qed.

(** X31: the shape of a document is checked only by use: when the [labels]
    of the ground-truth document or of the prediction document is not an
    array, [evaluateSingleFile] throws a [TypeError], whatever the other
    document holds. *)
Theorem evaluation_needs_label_arrays (h : Js.Host) (gtData predData : Js.json) :
  ¬ labels_array gtData ∨ ¬ labels_array predData →
  ∃ f, Script.evaluateSingleFile h gtData predData = Js.ThrowTypeError f.
Proof.
  intros Hshape.
  destruct (Script.evaluateSingleFile h gtData predData) as [metrics|f] eqn:He; [|by exists f].
  apply evaluateSingleFile_Return in He as (m1 & _ & _ & _ & H1 & _).
  apply evaluateTag_arrays in H1 as [Hg Hp]. by destruct Hshape.
Qed.

Lemma evaluation_needs_label_arrays_witness :
  (¬ labels_array (Js.JArray []) ∨ ¬ labels_array Samples64.empty_json) ∧
  ∃ f, Script.evaluateSingleFile Samples64.host (Js.JArray []) Samples64.empty_json =
       Js.ThrowTypeError f.
Proof.
  assert (H : ¬ labels_array (Js.JArray []) ∨ ¬ labels_array Samples64.empty_json).
  { left. by intros (members & items & [=] & _). }
  split; [exact H|].
  exact (evaluation_needs_label_arrays Samples64.host (Js.JArray []) Samples64.empty_json H).
Defined.

(** X32: a label without [bbox] passes or fails by what it meets: a
    ground-truth button without [bbox] is counted as a false negative when
    the prediction document has no label, and makes [evaluateSingleFile]
    throw when the prediction document has a button. *)
Theorem boxless_label_counted_or_thrown (h : Js.Host) :
  (∃ metrics m,
     Script.evaluateSingleFile h Samples64.boxless_json Samples64.empty_json =
       Js.Return metrics ∧
     obj_get "Button" metrics = Some m ∧
     Js.ground_truth_count m = 1 ∧ Js.true_positives m = 0 ∧ Js.false_negatives m = 1) ∧
  Script.evaluateSingleFile h Samples64.boxless_json Samples64.button_json =
    Js.ThrowTypeError (Js.read_of_undefined "0").
Proof. split; [by eexists _, _|done]. Qed.

(** *** The counters of an entry *)

Lemma forEach_result h m g preds : ∀ i st best,
  Js.forEach (Script.scan_pred h m g) i preds st = Js.Return best →
  best = st ∨ ∃ k p, candidates m i preds !! k = Some (best.2, p).
Proof.
  induction preds as [|p l IH]; intros i st best; cbn [Js.forEach candidates].
  - intros [= <-]. by left.
  - destruct (Script.scan_pred h m g st p i) as [s'|] eqn:Hs;
      cbn [mbind Js.completion_bind]; [|done].
    intros Hl. unfold Script.scan_pred in Hs.
    destruct (decide (i ∈ m)) as [Hi | Hi].
    + injection Hs as <-. by apply IH.
    + destruct (Js.get (Some g) "bbox") as [boxA|]; cbn [mbind Js.completion_bind] in Hs;
        [|done].
      destruct (Js.get (Some p) "bbox") as [boxB|]; cbn [mbind Js.completion_bind] in Hs;
        [|done].
      destruct (Script.calculateIoU h boxA boxB) as [iou|];
        cbn [mbind Js.completion_bind] in Hs; [|done].
      injection Hs as <-.
      destruct (IH _ _ _ Hl) as [-> | (k & q & Hk)].
      * destruct (_ <? _)%float; [|by left]. right. by exists 0%nat, p.
      * right. by exists (S k), q.
Qed.

Lemma match_gtBox_result h preds st g st' :
  Script.match_gtBox h preds st g = Js.Return st' →
  st' = st ∨
  (st'.1 = st.1 + 1 ∧
   S (length (candidates st'.2 0 preds)) = length (candidates st.2 0 preds)).
Proof.
  unfold Script.match_gtBox.
  destruct (Js.forEach _ 0 preds _) as [best|] eqn:Hf; cbn [mbind Js.completion_bind]; [|done].
  intros [= <-].
  destruct (forEach_result _ _ _ _ _ _ _ Hf) as [-> | (k & p & Hk)]; [by left|].
  destruct (_ <=? _)%float; [right | by left]. cbn [fst snd]. split; [done|].
  rewrite (candidates_insert _ _ _ _ _ _ Hk), length_delete by eauto.
  apply lookup_lt_Some in Hk. lia.
Qed.

Lemma for_of_bounds h preds gts : ∀ st st',
  Js.for_of (Script.match_gtBox h preds) gts st = Js.Return st' →
  st.1 ≤ st'.1 ≤ st.1 + Z.of_nat (length gts) ∧
  st'.1 + Z.of_nat (length (candidates st'.2 0 preds)) =
    st.1 + Z.of_nat (length (candidates st.2 0 preds)).
Proof.
  induction gts as [|g gts IH]; intros st st'; cbn [Js.for_of].
  - intros [= <-]. simpl. lia.
  - destruct (Script.match_gtBox h preds st g) as [s1|] eqn:Hs;
      cbn [mbind Js.completion_bind]; [|done].
    intros Hl. apply IH in Hl. apply match_gtBox_result in Hs.
    destruct Hs as [-> | [H1 H2]]; simpl; lia.
Qed.

Lemma candidates_length {A} (l : list A) i : length (candidates ∅ i l) = length l.
Proof. by rewrite <- (length_fmap snd), candidates_empty. Qed.

Lemma evaluateTag_consistent64 h gtData predData t m :
  Script.evaluateTag h gtData predData t = Js.Return m → consistent_entry m.
Proof.
  unfold Script.evaluateTag.
  destruct (Js.get (Some gtData) "labels") as [gtLabels|];
    cbn [mbind Js.completion_bind]; [|done].
  destruct (Script.labels_filter _ gtLabels t) as [gtBoxes|];
    cbn [mbind Js.completion_bind]; [|done].
  destruct (Js.get (Some predData) "labels") as [predLabels|];
    cbn [mbind Js.completion_bind]; [|done].
  destruct (Script.labels_filter _ predLabels t) as [predBoxes|];
    cbn [mbind Js.completion_bind]; [|done].
  destruct (Js.for_of _ gtBoxes _) as [st|] eqn:Hloop; cbn [mbind Js.completion_bind]; [|done].
  intros [= <-]. apply for_of_bounds in Hloop as [H1 H2].
  rewrite candidates_length in H2. simpl in *.
  unfold consistent_entry. simpl. lia.
Qed.

(** X33: whatever the two JSON values are, every entry of the metrics that
    [evaluateSingleFile] returns satisfies
    [ground_truth_count = true_positives + false_negatives],
    [predicted_count = true_positives + false_positives] and
    [0 <= true_positives <= min(ground_truth_count, predicted_count)]. *)
Theorem returned_counts_consistent (h : Js.Host) (gtData predData : Js.json)
    (metrics : object Js.TagMetrics) (t : string) (m : Js.TagMetrics) :
  Script.evaluateSingleFile h gtData predData = Js.Return metrics →
  obj_get t metrics = Some m →
  consistent_entry m.
Proof.
  intros Hm. rewrite (evaluateSingleFile_Return_get _ _ _ _ _ Hm).
  destruct (decide _); [|done].
  destruct (Script.evaluateTag h gtData predData t) eqn:Ht; [|done].
  intros [= <-]. by eapply evaluateTag_consistent64.
Qed.

Lemma returned_counts_consistent_witness :
  consistent_entry
    {| Js.true_positives := 1; Js.false_positives := 1; Js.false_negatives := 1;
       Js.ground_truth_count := 2; Js.predicted_count := 2;
       Js.precision := 0.5; Js.recall := 0.5; Js.f1_score := 0.5 |}.
Proof.
  eapply (returned_counts_consistent Samples64.host Samples64.mixed_manual_json
            Samples64.mixed_predicted_json _ "Button"); reflexivity.
Defined.

(** *** The order of the images *)

Lemma total_perm field t outcomes shuffled :
  outcomes ≡ₚ shuffled → Spec.total field t outcomes = Spec.total field t shuffled.
Proof.
  unfold Spec.total. induction 1; simpl; [done | by f_equal | lia | congruence].
Qed.

(** X34: in binary64 too the report does not depend on the order of the
    images: [aggregateResults] of a permutation of the per-image metrics is
    the same report, counters and rates. *)
Theorem aggregate_order_irrelevant (allMetrics shuffled : list (object Js.TagMetrics)) :
  allMetrics ≡ₚ shuffled →
  Script.aggregateResults allMetrics = Script.aggregateResults shuffled.
Proof.
  intros Hperm. rewrite !aggregateResults_aggregate.
  unfold Spec.aggregate, Spec.grand_total. simpl.
  by rewrite !(λ field t, total_perm field t allMetrics shuffled Hperm).
Qed.

Lemma aggregate_order_irrelevant_witness :
  Script.aggregateResults
    [[("Button"%string, Spec.entry 1 1 1 2 2)]; [("Button"%string, Spec.entry 3 10 16 19 13)]] =
  Script.aggregateResults
    [[("Button"%string, Spec.entry 3 10 16 19 13)]; [("Button"%string, Spec.entry 1 1 1 2 2)]].
Proof.
  apply aggregate_order_irrelevant. apply perm_swap.
Defined.
